(** * metaopts: the AVOA and STBO optimisation engines

    A shallow embedding of [metaopts/algorithms/avoa.py] and
    [metaopts/algorithms/stbo.py].

    Conventions of the embedding.
    - A float32 scalar is a real number ([R] of the Standard Library):
      rounding, overflow and the non-finite values of IEEE arithmetic are
      outside the model.  Where the code divides by zero, or raises [0] to
      a negative power, its value is not a real number and the value of the
      model's expression is a placeholder: the theorems below either carry
      the hypothesis that excludes the case ([0 < gen], [0 < T], [0 <= w])
      or do not depend on the value.
    - The generation counter [gen] is a float32 variable that counts
      exactly up to [2^24]; it is a natural number here, and the theorems
      on whole runs carry the hypothesis [generation_limit < 2^24].
    - A tensor of shape [s] is the list of its elements in row-major order;
      a population variable of shape [(N,) + s] is the list of its [N] rows.
    - The TensorFlow random generator is an oracle: a stream of draws
      indexed by a counter that every draw advances.
    - The calls into [metaopts.utilities] that pass data (evaluation, log,
      checkpoint, status line, write-back) are recorded, in order, in a
      trace.  The diagnostic calls [print_function_trace],
      [print_algo_start] and [print_algo_end] are not recorded. *)

From Stdlib Require Import Reals Lra Lia List ZArith Bool Permutation Arith.
Import ListNotations.
Open Scope R_scope.

(** ** Tensors and list helpers *)

Definition tensor := list R.
Definition slot := list tensor.
Definition population := list slot.
Definition candidate := list tensor.

Fixpoint zip_with {A B C} (f : A -> B -> C) (l1 : list A) (l2 : list B) : list C :=
  match l1, l2 with
  | a :: t1, b :: t2 => f a b :: zip_with f t1 t2
  | _, _ => []
  end.

Fixpoint zip_with3 {A B C D} (f : A -> B -> C -> D)
    (l1 : list A) (l2 : list B) (l3 : list C) : list D :=
  match l1, l2, l3 with
  | a :: t1, b :: t2, c :: t3 => f a b c :: zip_with3 f t1 t2 t3
  | _, _, _ => []
  end.

(** [p[i].assign(v)] on a variable given by its rows. *)
Fixpoint set_row {A} (i : nat) (v : A) (p : list A) : list A :=
  match p, i with
  | [], _ => []
  | _ :: t, O => v :: t
  | a :: t, S j => a :: set_row j v t
  end.

Definition row (i : nat) (p : slot) : tensor := nth i p [].

(** [tf.gather(p, indices)] along the first axis. *)
Definition gather (p : slot) (indices : list nat) : slot :=
  map (fun j => row j p) indices.

(** Individual [i] of a population: its row in every slot. *)
Definition individual (P : population) (i : nat) : candidate :=
  map (row i) P.

(** [tf.reshape(x, (-1,))] and [tf.reshape(flat, shape)] for a variable whose
    rows have [sz] elements. *)
Definition flatten (x : slot) : tensor := concat x.

Fixpoint reshape (n sz : nat) (flat : tensor) : slot :=
  match n with
  | O => []
  | S n' => firstn sz flat :: reshape n' sz (skipn sz flat)
  end.

(** ** Scalar operations *)

Definition Rltb (x y : R) : bool := if Rlt_dec x y then true else false.
Definition Rleb (x y : R) : bool := if Rle_dec x y then true else false.
Definition Rgeb (x y : R) : bool := Rleb y x.
Definition Rgtb (x y : R) : bool := Rltb y x.

(** [tf.pow] with a real exponent, on the domain where its value is a real
    number: a non-negative base, and a non-negative exponent at base [0].
    Outside this domain [tf.pow] gives [inf] or [NaN] and the value here is
    a placeholder. *)
Definition tf_pow (x y : R) : R :=
  if Req_dec_T x 0 then (if Req_dec_T y 0 then 1 else 0) else Rpower x y.

(** [tf.round]: rounds halves to the nearest even integer. *)
Definition tf_round (x : R) : Z :=
  let n := Int_part x in
  let f := frac_part x in
  if Rlt_dec f (1/2) then n
  else if Rlt_dec (1/2) f then (n + 1)%Z
  else if Z.even n then n else (n + 1)%Z.

(** [gen.assign_add(1)] on the float32 variable [gen], for a counter of at
    most [2^25 - 2]: the sum is rounded to the nearest float32, ties to the
    even mantissa.  Up to [2^24] every integer is a float32.  From [2^24]
    to [2^25] the float32 numbers are the even integers: an odd sum lies
    half-way between two of them, and the one with the even mantissa is
    the multiple of [4]. *)
Definition float32_assign_add_1 (g : Z) : Z :=
  let v := (g + 1)%Z in
  if (v <=? 16777216)%Z then v
  else if Z.even v then v
  else if (v mod 4 =? 1)%Z then (v - 1)%Z else (v + 1)%Z.

(** [tf.clip_by_value]. *)
Definition clip_by_value (t lo hi : R) : R := Rmax (Rmin t hi) lo.

(** [tf.reduce_min] of a fitness vector.  TensorFlow gives [+inf] for an
    empty vector, which is not a real number: the empty case is a
    placeholder here, and the statements on whole runs carry the hypothesis
    of a positive population size. *)
Definition reduce_min (l : list R) : R :=
  match l with
  | [] => 0
  | x :: t => fold_left Rmin t x
  end.

(** [tf.argmin]: the first index holding the minimum. *)
Fixpoint argmin_from (best : nat) (bv : R) (k : nat) (l : list R) : nat :=
  match l with
  | [] => best
  | x :: t => if Rlt_dec x bv then argmin_from k x (S k) t
              else argmin_from best bv (S k) t
  end.

Definition argmin (l : list R) : nat :=
  match l with
  | [] => O
  | x :: t => argmin_from O x 1%nat t
  end.

(** [tf.argsort], ascending; equal keys keep their index order. *)
Fixpoint insert_by (key : nat -> R) (j : nat) (l : list nat) : list nat :=
  match l with
  | [] => [j]
  | k :: t => if Rlt_dec (key j) (key k) then j :: k :: t
              else k :: insert_by key j t
  end.

Definition argsort (v : list R) : list nat :=
  fold_left (fun acc j => insert_by (fun k => nth k v 0) j acc)
            (seq 0 (length v)) [].

(** ** Collaborators *)

(** The random generator: [uniform01 k] is the [k]-th unit uniform draw,
    [random_int k] the raw integer behind an integer draw, [categorical k]
    the index chosen by [tf.random.categorical] for the given logits and
    [shuffle k] the order chosen by [tf.random.shuffle]. *)
Record random_source := {
  uniform01 : nat -> R;
  random_int : nat -> nat;
  categorical : nat -> list R -> nat;
  shuffle : nat -> list nat -> list nat
}.

Record random_source_ok (rnd : random_source) : Prop := {
  uniform01_range : forall k, 0 <= uniform01 rnd k < 1;
  categorical_range : forall k logits,
      logits <> [] -> (categorical rnd k logits < length logits)%nat;
  shuffle_perm : forall k l, Permutation (shuffle rnd k l) l
}.

(** [tf.random.uniform((), minval, maxval)]. *)
Definition random_uniform (rnd : random_source) (k : nat) (minval maxval : R) : R :=
  uniform01 rnd k * (maxval - minval) + minval.

(** [tf.random.uniform(shape, minval, maxval)] for a tensor of [n] elements:
    draws [k .. k+n-1]. *)
Definition random_uniform_tensor (rnd : random_source) (k n : nat)
    (minval maxval : R) : tensor :=
  map (fun j => random_uniform rnd (k + j) minval maxval) (seq 0 n).

(** [tf.random.uniform(shape, minval, maxval, dtype=int32)], [minval < maxval]. *)
Definition random_uniform_int (rnd : random_source) (k : nat) (minval maxval : nat) : nat :=
  (minval + random_int rnd k mod (maxval - minval))%nat.

(** What the engines are run against: the black-box fitness of a candidate,
    the random generator, [math.gamma] ([None] where it raises: at a pole,
    or on overflow), the population that [mou.create_population] hands
    back, and what [mou.apply_best_solution], which is not part of the
    sources, leaves in the fitness vector variable that it is given (the
    one variable handed to it that the engines read afterwards by
    themselves, for the index of the final checkpoint). *)
Record environment := {
  model_fitness_fn : candidate -> R;
  rnd : random_source;
  math_gamma : R -> option R;
  created_population : population;
  fitness_after_apply : list R -> population -> list R
}.

(** The calls into [metaopts.utilities] that pass data, as the engines make
    them.  [ApplyBestSolution] records the fitness vector and the
    population that the call is given. *)
Inductive event :=
| UpdatePopulationFitness (values : list R)
| LogFitnessValue (fitness_value : R) (max_cache_size : Z) (force_file_write : bool)
| SaveIndividual (individual_index : nat)
| PrintTrainingStatus (generation : nat) (best_fitness_value : R)
| ApplyBestSolution (fitness_values : list R) (population : population).

(** A run either completes in a final state or raises after the calls in
    the given trace. *)
Inductive outcome (S : Type) :=
| Completed (final : S)
| Raised (calls : list event).
Arguments Completed {S} final.
Arguments Raised {S} calls.

(** Hyperparameters of both engines ([L1 .. beta] are AVOA's). *)
Record config := {
  model_weights : candidate;
  generation_limit : Z;
  fitness_limit : R;
  population_size : Z;
  transfer_learning : bool;
  fitness_log_frequency : Z;
  best_individual_save_frequency : Z;
  L1 : R; L2 : R; w : R; P1 : R; P2 : R; P3 : R;
  lb : R; ub : R; beta : R
}.

(** Modelled from the spec: [mou.update_population_fitness] is not part of
    the sources.  One fitness value per candidate, in candidate order. *)
Definition update_population_fitness (env : environment) (P : population)
    (N : nat) : list R :=
  map (fun i => model_fitness_fn env (individual P i)) (seq 0 N).

(** Modelled from the spec: [mou.create_population] is not part of the
    sources.  It fails only for a non-positive population size or an empty
    list of shapes; its random result is the environment's. *)
Definition create_population (env : environment) (weights : candidate)
    (N : Z) (transfer : bool) : option population :=
  if (N <=? 0)%Z then None
  else match weights with
       | [] => None
       | _ => Some (created_population env)
       end.

(** Shapes.  [shapes] lists the element count of every model weight; a
    population (or a scratch variable with a leading axis of [n] rows) has
    one slot per weight, [n] rows in each slot, and rows of that weight's
    size. *)
Definition slot_ok (n sz : nat) (x : slot) : Prop :=
  length x = n /\ forall r, (r < n)%nat -> length (nth r x []) = sz.

Definition slots_ok (n : nat) (shapes : list nat) (xs : list slot) : Prop :=
  length xs = length shapes
  /\ forall k, (k < length shapes)%nat -> slot_ok n (nth k shapes O) (nth k xs []).

Definition tensors_ok (shapes : list nat) (ts : list tensor) : Prop :=
  length ts = length shapes
  /\ forall k, (k < length shapes)%nat -> length (nth k ts []) = nth k shapes O.

Definition population_ok (shapes : list nat) (N : nat) (P : population) : Prop :=
  slots_ok N shapes P.

(** Every slot of a population has [N] rows. *)
Definition rows_ok (N : nat) (P : population) : Prop :=
  Forall (fun x : slot => length x = N) P.

Definition shapes_of (weights : candidate) : list nat := map (@length R) weights.

(** ** STBO: Sewing Training-Based Optimization ([stbo.py]) *)

Module Stbo.

(** The variables the closures of [stbo] share. *)
Record state := mk {
  X : population;
  F : list R;
  SI : list nat;
  XP : population;
  FP : list R;
  best_fitness : R;
  gen : nat;
  rng : nat;
  trace : list event
}.

Definition with_X v s := mk v (F s) (SI s) (XP s) (FP s) (best_fitness s) (gen s) (rng s) (trace s).
Definition with_F v s := mk (X s) v (SI s) (XP s) (FP s) (best_fitness s) (gen s) (rng s) (trace s).
Definition with_SI v s := mk (X s) (F s) v (XP s) (FP s) (best_fitness s) (gen s) (rng s) (trace s).
Definition with_XP v s := mk (X s) (F s) (SI s) v (FP s) (best_fitness s) (gen s) (rng s) (trace s).
Definition with_FP v s := mk (X s) (F s) (SI s) (XP s) v (best_fitness s) (gen s) (rng s) (trace s).
Definition with_best_fitness v s := mk (X s) (F s) (SI s) (XP s) (FP s) v (gen s) (rng s) (trace s).
Definition with_gen v s := mk (X s) (F s) (SI s) (XP s) (FP s) (best_fitness s) v (rng s) (trace s).
Definition with_rng v s := mk (X s) (F s) (SI s) (XP s) (FP s) (best_fitness s) (gen s) v (trace s).
Definition emit e s := mk (X s) (F s) (SI s) (XP s) (FP s) (best_fitness s) (gen s) (rng s) (trace s ++ [e]).

Definition row_size (x : slot) : nat := length (row 0 x).

(** [tf.size(x)]. *)
Definition size (x : slot) : nat := length (flatten x).

(** An elementwise tensor expression over the flat positions of [x],
    stored back with the shape of [x]. *)
Definition tabulate_like (x : slot) (f : nat -> R) : slot :=
  reshape (length x) (row_size x) (map f (seq 0 (size x))).

(** [eq_4(index)]: the candidate instructors of member [index]. *)
Definition eq_4 (Fv : list R) (index : nat) : list nat :=
  let CSI := filter (fun j => Rltb (nth j Fv 0) (nth index Fv 0))
                    (seq 0 (length Fv)) in
  match CSI with
  | [] => [index]
  | _ => CSI
  end.

(** One pass of the loop of [update_SI]. *)
Definition update_SI_step (rnd : random_source) (s : state) (i : nat) : state :=
  let CSI := eq_4 (F s) i in
  let candidate_count := length CSI in
  let selected_instructor := random_uniform_int rnd (rng s) 0 candidate_count in
  with_rng (S (rng s)) (with_SI (set_row i (nth selected_instructor CSI O) (SI s)) s).

Definition update_SI (rnd : random_source) (N : nat) (s : state) : state :=
  fold_left (update_SI_step rnd) (seq 0 N) s.

(** The body of the loop of [eq_5] for one slot; [k] is the random counter. *)
Definition eq_5_slot (rnd : random_source) (k : nat) (SIv : list nat) (x : slot) : slot :=
  let n := size x in
  let xf := flatten x in
  let r := random_uniform_tensor rnd k n 0 1 in
  let I := map (fun j => INR (random_uniform_int rnd (k + n + j) 1 3)) (seq 0 n) in
  let g := flatten (gather x SIv) in
  tabulate_like x
    (fun j => nth j xf 0 + nth j r 0 * (nth j g 0 - nth j I 0 * nth j xf 0)).

(** [ms] and [SDi] of [eq_7_and_8] for a slot of [m] elements.  [ms] is at
    least [1] inside the loop, where [0 <= gen <= T] and [0 < T]. *)
Definition ms_of (g : nat) (T : R) (m : nat) : Z :=
  tf_round (1 + INR g / (2 * T) * INR m).

Definition SDi_of (rnd : random_source) (k : nat) (g : nat) (T : R) (m : nat) : list nat :=
  firstn (Z.to_nat (ms_of g T m)) (shuffle rnd k (seq 0 m)).

(** [tf.tensor_scatter_nd_update(x_flat, indices, updates)]. *)
Definition tensor_scatter_nd_update (x_flat : tensor) (indices : list nat)
    (updates : tensor) : tensor :=
  fold_left (fun acc iu => set_row (fst iu) (snd iu) acc)
            (combine indices updates) x_flat.

(** The body of the loop of [eq_7_and_8] for one slot. *)
Definition eq_7_and_8_slot (rnd : random_source) (k : nat) (g : nat) (T : R)
    (SIv : list nat) (x : slot) : slot :=
  let m := size x in
  let SDi := SDi_of rnd k g T m in
  let x_flat := flatten x in
  let instructors_flat := flatten (gather x SIv) in
  let xp_flat := tensor_scatter_nd_update x_flat SDi
                   (map (fun j => nth j instructors_flat 0) SDi) in
  reshape (length x) (row_size x) xp_flat.

(** [l[:ms]]: the first [ms] entries of [l], or all but its last [-ms]
    entries for a negative [ms]. *)
Definition slice_to {A} (ms : Z) (l : list A) : list A :=
  if (0 <=? ms)%Z then firstn (Z.to_nat ms) l
  else firstn (length l - Z.to_nat (- ms)) l.

(** The body of the loop of [eq_7_and_8] for one slot, from the value [ms]
    of its third line on: whatever the float32 computation of [ms] has
    given, the positions are selected and overwritten like this. *)
Definition eq_7_and_8_slot_at (rnd : random_source) (k : nat) (ms : Z)
    (SIv : list nat) (x : slot) : slot :=
  let m := size x in
  let SDi := slice_to ms (shuffle rnd k (seq 0 m)) in
  let x_flat := flatten x in
  let instructors_flat := flatten (gather x SIv) in
  let xp_flat := tensor_scatter_nd_update x_flat SDi
                   (map (fun j => nth j instructors_flat 0) SDi) in
  reshape (length x) (row_size x) xp_flat.

(** One element of [eq_10].  At [g = 0] the quotient of the code is not a
    number ([inf] or [NaN]). *)
Definition eq_10_elem (lo hi : R) (g : R) (x r : R) : R :=
  clip_by_value (x + (lo + r * (hi - lo)) / g) lo hi.

(** The body of the loop of [eq_10] for one slot. *)
Definition eq_10_slot (rnd : random_source) (k : nat) (lo hi : R) (g : nat)
    (x : slot) : slot :=
  let n := size x in
  let xf := flatten x in
  let r := random_uniform_tensor rnd k n 0 1 in
  tabulate_like x (fun j => eq_10_elem lo hi (INR g) (nth j xf 0) (nth j r 0)).

(** [for x, xp in zip(X, XP): xp.assign(body(x))], where the body draws
    [draws x] random numbers. *)
Fixpoint assign_proposals (body : nat -> slot -> slot) (draws : slot -> nat)
    (k : nat) (Xs XPs : population) : population * nat :=
  match Xs, XPs with
  | x :: Xt, _ :: XPt =>
      let '(rest, k') := assign_proposals body draws (k + draws x) Xt XPt in
      (body k x :: rest, k')
  | _, _ => ([], k)
  end.

Section Engine.

Variable env : environment.
Variable cfg : config.

Let N : nat := Z.to_nat (population_size cfg).
Let T : R := IZR (generation_limit cfg).

Definition eq_5 (s : state) : state :=
  let '(xp, k) := assign_proposals (fun k x => eq_5_slot (rnd env) k (SI s) x)
                    (fun x => (2 * size x)%nat) (rng s) (X s) (XP s) in
  with_rng k (with_XP xp s).

Definition eq_7_and_8 (s : state) : state :=
  let '(xp, k) := assign_proposals
                    (fun k x => eq_7_and_8_slot (rnd env) k (gen s) T (SI s) x)
                    (fun _ => 1%nat) (rng s) (X s) (XP s) in
  with_rng k (with_XP xp s).

Definition eq_10 (s : state) : state :=
  let '(xp, k) := assign_proposals
                    (fun k x => eq_10_slot (rnd env) k (lb cfg) (ub cfg) (gen s) x)
                    size (rng s) (X s) (XP s) in
  with_rng k (with_XP xp s).

(** [tf.where(tf.reshape(improved_positions, F_shape), xp, x)]. *)
Definition where_rows {A} (improved : list bool) (xp x : list A) : list A :=
  zip_with3 (fun (b : bool) p c => if b then p else c) improved xp x.

Definition update_improved_positions (s : state) : state :=
  let Fv := update_population_fitness env (X s) N in
  let s1 := emit (UpdatePopulationFitness Fv) (with_F Fv s) in
  let FPv := update_population_fitness env (XP s1) N in
  let s2 := emit (UpdatePopulationFitness FPv) (with_FP FPv s1) in
  let improved_positions := zip_with Rltb (FP s2) (F s2) in
  let s3 := with_X (zip_with (where_rows improved_positions) (XP s2) (X s2)) s2 in
  with_F (where_rows improved_positions (FP s3) (F s3)) s3.

(** [eq_2]: the initial population. *)
Definition eq_2_slot (k : nat) (weights : tensor) : slot :=
  reshape N (length weights)
    (map (fun u => lb cfg + u * (ub cfg - lb cfg))
         (random_uniform_tensor (rnd env) k (N * length weights) 0 1)).

Fixpoint eq_2_slots (k : nat) (weights : candidate) : population * nat :=
  match weights with
  | [] => ([], k)
  | wt :: rest =>
      let '(slots, k') := eq_2_slots (k + N * length wt) rest in
      (eq_2_slot k wt :: slots, k')
  end.

(** [None] stands for the exception of the population constructor: that of
    [mou.create_population], or of a tensor of negative first dimension. *)
Definition eq_2 : option (population * nat) :=
  if transfer_learning cfg then
    match create_population env (model_weights cfg) (population_size cfg) true with
    | Some P => Some (P, O)
    | None => None
    end
  else if (population_size cfg <? 0)%Z then None
  else Some (eq_2_slots O (model_weights cfg)).

(** The state in front of the [while] loop. *)
Definition init : option state :=
  match eq_2 with
  | None => None
  | Some (X0, k) =>
      let F0 := update_population_fitness env X0 N in
      Some (mk X0 F0 (repeat O N) X0 F0 (reduce_min F0) O k
               [UpdatePopulationFitness F0])
  end.

(** The loop condition [best_fitness > fitness_limit and gen <= T]. *)
Definition continues (s : state) : bool :=
  Rgtb (best_fitness s) (fitness_limit cfg) && Rleb (INR (gen s)) T.

Definition log_fitness (force : bool) (s : state) : state :=
  if (0 <? fitness_log_frequency cfg)%Z
  then emit (LogFitnessValue (best_fitness s) (fitness_log_frequency cfg) force) s
  else s.

Definition save_best_in_loop (s : state) : state :=
  if (0 <? best_individual_save_frequency cfg)%Z
     && (Z.of_nat (gen s) mod best_individual_save_frequency cfg =? 0)%Z
  then emit (SaveIndividual (argmin (F s))) s
  else s.

(** The three phases of one generation. *)
Definition phase_1 (s : state) : state :=
  update_improved_positions (eq_5 (update_SI (rnd env) N s)).
Definition phase_2 (s : state) : state :=
  update_improved_positions (eq_7_and_8 s).
Definition phase_3 (s : state) : state :=
  update_improved_positions (eq_10 s).

(** The end of a pass: the best fitness, the hooks, the status line and
    the generation counter. *)
Definition end_of_generation (s3 : state) : state :=
  let s4 := with_best_fitness (reduce_min (F s3)) s3 in
  let s5 := save_best_in_loop (log_fitness false s4) in
  let s6 := emit (PrintTrainingStatus (gen s5) (best_fitness s5)) s5 in
  with_gen (S (gen s6)) s6.

(** The body of the [while] loop. *)
Definition generation (s : state) : state :=
  end_of_generation (phase_3 (phase_2 (phase_1 s))).

(** The [while] loop; [None] when the fuel runs out first. *)
Fixpoint loop (fuel : nat) (s : state) : option state :=
  match fuel with
  | O => None
  | S fuel' => if continues s then loop fuel' (generation s) else Some s
  end.

(** After the loop: the write-back, which is given [F] and [X], then the
    final log and checkpoint.  Of what the write-back does, the state
    takes up the fitness vector that it leaves; [X] stays as the loop has
    assigned it. *)
Definition finish (s : state) : state :=
  let s1 := with_F (fitness_after_apply env (F s) (X s))
              (emit (ApplyBestSolution (F s) (X s)) s) in
  let s2 := log_fitness true s1 in
  if (0 <? best_individual_save_frequency cfg)%Z
  then emit (SaveIndividual (argmin (F s2))) s2 else s2.

Definition stbo (fuel : nat) : option (outcome state) :=
  match init with
  | None => Some (Raised [])
  | Some s0 =>
      match loop fuel s0 with
      | None => None
      | Some s => Some (Completed (finish s))
      end
  end.

End Engine.

End Stbo.

(** ** AVOA: African Vultures Optimization Algorithm ([avoa.py]) *)

Module Avoa.

(** The variables the closures of [avoa] share.  [Rv] and [Sv] are the
    source's [R] and [S]. *)
Record state := mk {
  P : population;
  fitness_values : list R;
  best_vultures : list slot;
  Sv : list slot;
  A : list slot;
  Rv : list tensor;
  D : list tensor;
  Levy : list tensor;
  F : R;
  best_fitness : R;
  gen : nat;
  i : nat;
  rng : nat;
  trace : list event
}.

Definition with_P v s := mk v (fitness_values s) (best_vultures s) (Sv s) (A s) (Rv s) (D s) (Levy s) (F s) (best_fitness s) (gen s) (i s) (rng s) (trace s).
Definition with_fitness_values v s := mk (P s) v (best_vultures s) (Sv s) (A s) (Rv s) (D s) (Levy s) (F s) (best_fitness s) (gen s) (i s) (rng s) (trace s).
Definition with_best_vultures v s := mk (P s) (fitness_values s) v (Sv s) (A s) (Rv s) (D s) (Levy s) (F s) (best_fitness s) (gen s) (i s) (rng s) (trace s).
Definition with_Sv v s := mk (P s) (fitness_values s) (best_vultures s) v (A s) (Rv s) (D s) (Levy s) (F s) (best_fitness s) (gen s) (i s) (rng s) (trace s).
Definition with_A v s := mk (P s) (fitness_values s) (best_vultures s) (Sv s) v (Rv s) (D s) (Levy s) (F s) (best_fitness s) (gen s) (i s) (rng s) (trace s).
Definition with_Rv v s := mk (P s) (fitness_values s) (best_vultures s) (Sv s) (A s) v (D s) (Levy s) (F s) (best_fitness s) (gen s) (i s) (rng s) (trace s).
Definition with_D v s := mk (P s) (fitness_values s) (best_vultures s) (Sv s) (A s) (Rv s) v (Levy s) (F s) (best_fitness s) (gen s) (i s) (rng s) (trace s).
Definition with_Levy v s := mk (P s) (fitness_values s) (best_vultures s) (Sv s) (A s) (Rv s) (D s) v (F s) (best_fitness s) (gen s) (i s) (rng s) (trace s).
Definition with_F v s := mk (P s) (fitness_values s) (best_vultures s) (Sv s) (A s) (Rv s) (D s) (Levy s) v (best_fitness s) (gen s) (i s) (rng s) (trace s).
Definition with_best_fitness v s := mk (P s) (fitness_values s) (best_vultures s) (Sv s) (A s) (Rv s) (D s) (Levy s) (F s) v (gen s) (i s) (rng s) (trace s).
Definition with_gen v s := mk (P s) (fitness_values s) (best_vultures s) (Sv s) (A s) (Rv s) (D s) (Levy s) (F s) (best_fitness s) v (i s) (rng s) (trace s).
Definition with_i v s := mk (P s) (fitness_values s) (best_vultures s) (Sv s) (A s) (Rv s) (D s) (Levy s) (F s) (best_fitness s) (gen s) v (rng s) (trace s).
Definition with_rng v s := mk (P s) (fitness_values s) (best_vultures s) (Sv s) (A s) (Rv s) (D s) (Levy s) (F s) (best_fitness s) (gen s) (i s) v (trace s).
Definition emit e s := mk (P s) (fitness_values s) (best_vultures s) (Sv s) (A s) (Rv s) (D s) (Levy s) (F s) (best_fitness s) (gen s) (i s) (rng s) (trace s ++ [e]).

(** One element of the terms of Eq. (15).  At a zero denominator the
    quotient of the code is not a number ([inf] or [NaN]). *)
Definition eq_15_denominator (bv p : R) : R := bv - p ^ 2.
Definition eq_15_elem (Fs bv p : R) : R :=
  bv - ((bv * p) / eq_15_denominator bv p) * Fs.

(** One element of the Levy flight of Eq. (18). *)
Definition eq_18_elem (sigma bet u v : R) : R :=
  0.01 * ((u * sigma) / tf_pow (Rabs v) (1 / bet)).

(** The body of the loop of [eq_18] for one slot. *)
Definition eq_18_slot (rnd : random_source) (sigma bet : R) (k : nat)
    (l : tensor) : tensor :=
  let n := length l in
  let u := random_uniform_tensor rnd k n 0 1 in
  let v := random_uniform_tensor rnd (k + n) n 0 1 in
  zip_with (eq_18_elem sigma bet) u v.

Fixpoint eq_18_slots (rnd : random_source) (sigma bet : R) (k : nat)
    (ls : list tensor) : list tensor * nat :=
  match ls with
  | [] => ([], k)
  | l :: rest =>
      let '(out, k') := eq_18_slots rnd sigma bet (k + 2 * length l) rest in
      (eq_18_slot rnd sigma bet k l :: out, k')
  end.

(** What one pass of the outer loop leads to. *)
Inductive step :=
| Break (s : state)
| Next (s : state)
| Fail (calls : list event).

Section Engine.

Variable env : environment.
Variable cfg : config.

Let N : nat := Z.to_nat (population_size cfg).
Let T : R := IZR (generation_limit cfg).

(** [calculate_sigma()]; [None] when one of its two calls of [math.gamma]
    raises. *)
Definition calculate_sigma : option R :=
  match math_gamma env (1 + beta cfg), math_gamma env (1 + 2 * beta cfg) with
  | Some g1, Some g2 =>
      Some (tf_pow ((g1 * sin ((PI * beta cfg) / 2))
                    / (g2 * beta cfg * 2 * ((beta cfg - 1) / 2)))
                   (1 / beta cfg))
  | _, _ => None
  end.

(** The constant [sigma] of the closures: the loop is reached only when
    [calculate_sigma()] has returned. *)
Definition sigma : R :=
  match calculate_sigma with Some v => v | None => 0 end.

(** [bv.assign] raises when the gathered rows are not two. *)
Definition update_best_vultures (s : state) : option state :=
  let best_indices := firstn 2 (argsort (fitness_values s)) in
  if (length best_indices =? 2)%nat
  then Some (with_best_vultures
               (zip_with (fun (_ : slot) p => gather p best_indices)
                         (best_vultures s) (P s)) s)
  else None.

Definition eq_1 (s : state) : state :=
  let L := [L1 cfg; L2 cfg] in
  let reversed := map (fun l => (L1 cfg + L2 cfg) / l) L in
  let logits := map ln reversed in
  let selected := categorical (rnd env) (rng s) logits in
  with_rng (S (rng s))
    (with_Rv (zip_with (fun (_ : tensor) bv => row selected bv)
                       (Rv s) (best_vultures s)) s).

(** [eq_3] with its random draw at counter [k].  For [T = 0] the code's
    [gen/T] is [0/0], not a number; inside the loop with [0 < T] the base
    of the power lies in [[0, 1]]. *)
Definition eq_3 (g : nat) (k : nat) : R :=
  let h := random_uniform (rnd env) k (-2) 2 in
  h * (tf_pow (sin (PI / 2 * INR g / T)) (w cfg) + cos (PI / 2 * INR g / T) - 1).

Definition eq_4 (s : state) : state :=
  let rand_1 := random_uniform (rnd env) (rng s) 0 1 in
  let z := random_uniform (rnd env) (S (rng s)) (-1) 1 in
  let t := eq_3 (gen s) (S (S (rng s))) in
  with_rng (S (S (S (rng s))))
    (with_F ((2 * rand_1 + 1) * z * (1 - INR (gen s) / T) + t) s).

Definition eq_7 (s : state) : state :=
  let X := 2 * random_uniform (rnd env) (rng s) 0 1 in
  with_rng (S (rng s))
    (with_D (zip_with3
               (fun (_ : tensor) r p =>
                  zip_with (fun re pe => Rabs (X * re - pe)) r (row (i s) p))
               (D s) (Rv s) (P s)) s).

Definition eq_6 (s : state) : state :=
  let s1 := eq_7 s in
  with_P (zip_with3
            (fun p r d =>
               set_row (i s1) (zip_with (fun re de => re - de * F s1) r d) p)
            (P s1) (Rv s1) (D s1)) s1.

Definition eq_8 (s : state) : state :=
  let rand_2 := random_uniform (rnd env) (rng s) 0 1 in
  let rand_3 := random_uniform (rnd env) (S (rng s)) 0 1 in
  with_rng (S (S (rng s)))
    (with_P (zip_with
               (fun p r =>
                  set_row (i s)
                    (map (fun re => re - F s
                                    + rand_2 * ((ub cfg - lb cfg) * rand_3 + lb cfg)) r)
                    p)
               (P s) (Rv s)) s).

Definition eq_10 (s : state) : state :=
  let s1 := eq_7 s in
  let rand_4 := random_uniform (rnd env) (rng s1) 0 1 in
  with_rng (S (rng s1))
    (with_P (zip_with3
               (fun r p d =>
                  set_row (i s1)
                    (zip_with3 (fun re pe de => de * (F s1 + rand_4) - (re - pe))
                               r (row (i s1) p) d)
                    p)
               (Rv s1) (P s1) (D s1)) s1).

Definition eq_12 (s : state) : state :=
  let rand_5 := random_uniform (rnd env) (rng s) 0 1 in
  let rand_6 := random_uniform (rnd env) (S (rng s)) 0 1 in
  with_rng (S (S (rng s)))
    (with_Sv (zip_with3
                (fun sv r p =>
                   let s0 := zip_with (fun re pe => re * ((rand_5 * pe) / (2 * PI)) * cos pe)
                                      r (row (i s) p) in
                   let s1 := zip_with (fun re pe => re * ((rand_6 * pe) / (2 * PI)) * sin pe)
                                      r (row (i s) p) in
                   set_row 1 s1 (set_row 0 s0 sv))
                (Sv s) (Rv s) (P s)) s).

Definition eq_13 (s : state) : state :=
  let s1 := eq_12 s in
  with_P (zip_with3
            (fun p r sv =>
               set_row (i s1)
                 (zip_with3 (fun re s0 s1 => re - (s0 + s1)) r (row 0 sv) (row 1 sv))
                 p)
            (P s1) (Rv s1) (Sv s1)) s1.

Definition eq_15 (s : state) : state :=
  with_A (zip_with3
            (fun a bv p =>
               let a0 := zip_with (eq_15_elem (F s)) (row 0 bv) (row (i s) p) in
               let a1 := zip_with (eq_15_elem (F s)) (row 1 bv) (row (i s) p) in
               set_row 1 a1 (set_row 0 a0 a))
            (A s) (best_vultures s) (P s)) s.

Definition eq_16 (s : state) : state :=
  let s1 := eq_15 s in
  with_P (zip_with
            (fun p a =>
               set_row (i s1)
                 (zip_with (fun a0 a1 => (a0 + a1) / 2) (row 0 a) (row 1 a)) p)
            (P s1) (A s1)) s1.

Definition eq_18 (s : state) : state :=
  let '(ls, k) := eq_18_slots (rnd env) sigma (beta cfg) (rng s) (Levy s) in
  with_rng k (with_Levy ls s).

Definition eq_17 (s : state) : state :=
  let s1 := eq_18 s in
  with_P (zip_with3
            (fun p r l =>
               set_row (i s1)
                 (zip_with3 (fun re pe le => re - Rabs (re - pe) * F s1 * le)
                            r (row (i s1) p) l)
                 p)
            (P s1) (Rv s1) (Levy s1)) s1.

(** [P_k >= tf.random.uniform((), 0, 1)], with the draw it consumes. *)
Definition probability_test (p : R) (s : state) : bool * state :=
  (Rgeb p (random_uniform (rnd env) (rng s) 0 1), with_rng (S (rng s)) s).

(** The body of [while i < N]. *)
Definition update_vulture (s : state) : state :=
  let s1 := eq_4 (eq_1 s) in
  let s2 :=
    if Rgeb (Rabs (F s1)) 1 then
      let '(b, s') := probability_test (P1 cfg) s1 in
      if b then eq_6 s' else eq_8 s'
    else if Rgeb (Rabs (F s1)) 0.5 then
      let '(b, s') := probability_test (P2 cfg) s1 in
      if b then eq_10 s' else eq_13 s'
    else
      let '(b, s') := probability_test (P3 cfg) s1 in
      if b then eq_16 s' else eq_17 s'
  in with_i (S (i s2)) s2.

(** [while i < N], entered with [n = N - i] passes to go. *)
Fixpoint sweep (n : nat) (s : state) : state :=
  match n with
  | O => s
  | S n' => sweep n' (update_vulture s)
  end.

Definition log_fitness (force : bool) (s : state) : state :=
  if (0 <? fitness_log_frequency cfg)%Z
  then emit (LogFitnessValue (best_fitness s) (fitness_log_frequency cfg) force) s
  else s.

Definition save_best_in_loop (s : state) : state :=
  if (0 <? best_individual_save_frequency cfg)%Z
     && (Z.of_nat (gen s) mod best_individual_save_frequency cfg =? 0)%Z
  then emit (SaveIndividual (argmin (fitness_values s))) s
  else s.

(** The first part of a pass of [while gen <= T]: the evaluation, the two
    best vultures, the best fitness, the hooks and the status line.  [None]
    stands for the exception of [update_best_vultures]. *)
Definition start_of_generation (s : state) : option state :=
  let fv := update_population_fitness env (P s) N in
  let s1 := emit (UpdatePopulationFitness fv) (with_fitness_values fv s) in
  match update_best_vultures s1 with
  | None => None
  | Some s2 =>
      let s3 := with_best_fitness (reduce_min (fitness_values s2)) s2 in
      let s4 := save_best_in_loop (log_fitness false s3) in
      Some (emit (PrintTrainingStatus (gen s4) (best_fitness s4)) s4)
  end.

(** The body of [while gen <= T]. *)
Definition generation (s : state) : step :=
  match start_of_generation s with
  | None =>
      Fail (trace s ++ [UpdatePopulationFitness
                          (update_population_fitness env (P s) N)])
  | Some s5 =>
      if Rltb (best_fitness s5) (fitness_limit cfg) then Break s5
      else let s6 := sweep N (with_i O s5) in
           Next (with_gen (S (gen s6)) s6)
  end.

(** The outer loop; [None] when the fuel runs out first. *)
Fixpoint loop (fuel : nat) (s : state) : option (outcome state) :=
  match fuel with
  | O => None
  | S fuel' =>
      if Rleb (INR (gen s)) T then
        match generation s with
        | Break s' => Some (Completed s')
        | Next s' => loop fuel' s'
        | Fail calls => Some (Raised calls)
        end
      else Some (Completed s)
  end.

(** After the loop: the write-back, which is given [fitness_values] and
    [P], then the final log and checkpoint.  Of what the write-back does,
    the state takes up the fitness vector that it leaves; [P] stays as the
    loop has assigned it. *)
Definition finish (s : state) : state :=
  let s1 := with_fitness_values
              (fitness_after_apply env (fitness_values s) (P s))
              (emit (ApplyBestSolution (fitness_values s) (P s)) s) in
  let s2 := log_fitness true s1 in
  if (0 <? best_individual_save_frequency cfg)%Z
  then emit (SaveIndividual (argmin (fitness_values s2))) s2 else s2.

Definition zeros (n : nat) : tensor := repeat 0 n.

(** The state in front of the outer loop; [None] stands for an exception
    of the setup: that of [mou.create_population], or that of [math.gamma]
    inside [calculate_sigma()]. *)
Definition init : option state :=
  match create_population env (model_weights cfg) (population_size cfg)
                          (transfer_learning cfg) with
  | None => None
  | Some P0 =>
      match calculate_sigma with
      | None => None
      | Some _ =>
          let pair := map (fun wt : tensor => [zeros (length wt); zeros (length wt)])
                          (model_weights cfg) in
          let flat := map (fun wt : tensor => zeros (length wt)) (model_weights cfg) in
          Some (mk P0 (zeros N) pair pair pair flat flat flat 0 0 O O O [])
      end
  end.

Definition avoa (fuel : nat) : option (outcome state) :=
  match init with
  | None => Some (Raised [])
  | Some s0 =>
      match loop fuel s0 with
      | None => None
      | Some (Completed s) => Some (Completed (finish s))
      | Some (Raised calls) => Some (Raised calls)
      end
  end.

End Engine.

End Avoa.

(** The shapes that the variables of an AVOA run keep. *)
Definition avoa_shapes_ok (shapes : list nat) (N : nat) (s : Avoa.state) : Prop :=
  population_ok shapes N (Avoa.P s)
  /\ slots_ok 2 shapes (Avoa.best_vultures s)
  /\ slots_ok 2 shapes (Avoa.Sv s)
  /\ slots_ok 2 shapes (Avoa.A s)
  /\ tensors_ok shapes (Avoa.Rv s)
  /\ tensors_ok shapes (Avoa.D s)
  /\ tensors_ok shapes (Avoa.Levy s).

(** What the sweep over the vultures leaves alone. *)
Definition avoa_same_control (s s' : Avoa.state) : Prop :=
  Avoa.trace s' = Avoa.trace s
  /\ Avoa.gen s' = Avoa.gen s
  /\ Avoa.best_fitness s' = Avoa.best_fitness s
  /\ Avoa.fitness_values s' = Avoa.fitness_values s
  /\ Avoa.best_vultures s' = Avoa.best_vultures s.

(** ** The claims' vocabulary *)

(** The fitness values that the evaluation passes of a run produced. *)
Definition observed (calls : list event) : list R :=
  flat_map (fun e => match e with
                     | UpdatePopulationFitness values => values
                     | _ => []
                     end) calls.

Definition is_evaluation (e : event) : bool :=
  match e with UpdatePopulationFitness _ => true | _ => false end.

Definition is_status (e : event) : bool :=
  match e with PrintTrainingStatus _ _ => true | _ => false end.

Definition is_forced_log (e : event) : bool :=
  match e with LogFitnessValue _ _ true => true | _ => false end.

Definition is_save (e : event) : bool :=
  match e with SaveIndividual _ => true | _ => false end.

Definition is_apply (e : event) : bool :=
  match e with ApplyBestSolution _ _ => true | _ => false end.

Definition count (f : event -> bool) (calls : list event) : nat :=
  length (filter f calls).

(** The decision procedure of the specification for AVOA's update: the
    equation chosen from [F], the thresholds and one uniform draw. *)
Inductive equation := Eq6 | Eq8 | Eq10 | Eq13 | Eq16 | Eq17.

Definition spec_branch (Fs p1 p2 p3 u : R) : equation :=
  if Rge_dec (Rabs Fs) 1 then (if Rge_dec p1 u then Eq6 else Eq8)
  else if Rge_dec (Rabs Fs) 0.5 then (if Rge_dec p2 u then Eq10 else Eq13)
  else (if Rge_dec p3 u then Eq16 else Eq17).

(** The formulas of the specification, for one element: [Rj] is the
    element of the reference vulture, [p] that of the current one, [bv0] and
    [bv1] those of the two best vultures, [a] and [b] the equation's own
    uniform draws, [levy] the element of the Levy sample. *)
Definition spec_update (e : equation) (lo hi Fs Rj p bv0 bv1 a b levy : R) : R :=
  match e with
  | Eq6 => let Dj := Rabs (2 * a * Rj - p) in Rj - Dj * Fs
  | Eq8 => Rj - Fs + a * ((hi - lo) * b + lo)
  | Eq10 => let Dj := Rabs (2 * a * Rj - p) in Dj * (Fs + b) - (Rj - p)
  | Eq13 => let S0 := Rj * (a * p / (2 * PI)) * cos p in
            let S1 := Rj * (b * p / (2 * PI)) * sin p in
            Rj - (S0 + S1)
  | Eq16 => ((bv0 - (bv0 * p) / (bv0 - p ^ 2) * Fs)
             + (bv1 - (bv1 * p) / (bv1 - p ^ 2) * Fs)) / 2
  | Eq17 => Rj - Rabs (Rj - p) * Fs * levy
  end.

(** The number of random draws that the chosen equation makes: the one of
    Eq. (7) for Eq. (6), that and [rand4] for Eq. (10), two for Eq. (8) and
    for Eq. (12)-(13), none for Eq. (15)-(16), and two per element of the
    model weights for the Levy flight of Eq. (17)-(18). *)
Definition spec_draws (e : equation) (shapes : list nat) : nat :=
  match e with
  | Eq6 => 1
  | Eq8 | Eq10 | Eq13 => 2
  | Eq16 => 0
  | Eq17 => 2 * list_sum shapes
  end.

(** The adaptive factor of Eq. (3)-(4) from its three draws. *)
Definition spec_F (wv : R) (g T rand_1 z h : R) : R :=
  (2 * rand_1 + 1) * z * (1 - g / T)
  + h * (tf_pow (sin (PI / 2 * g / T)) wv + cos (PI / 2 * g / T) - 1).

(** The calls of one pass of a loop between the evaluation and the status
    line: the log and the checkpoint, each at its configured frequency. *)
Definition loop_hooks (cfg : config) (g : nat) (best : R) (fv : list R) : list event :=
  (if (0 <? fitness_log_frequency cfg)%Z
   then [LogFitnessValue best (fitness_log_frequency cfg) false] else [])
  ++ (if (0 <? best_individual_save_frequency cfg)%Z
         && (Z.of_nat g mod best_individual_save_frequency cfg =? 0)%Z
      then [SaveIndividual (argmin fv)] else []).

(** The calls after a loop: the write-back, given the fitness vector [fv]
    and the population [P], then the forced log and the checkpoint, each
    only when its frequency is positive; the index of the checkpoint is
    taken from the fitness vector as the write-back leaves it. *)
Definition final_calls (env : environment) (cfg : config) (fv : list R)
    (P : population) (best : R) : list event :=
  ApplyBestSolution fv P
  :: (if (0 <? fitness_log_frequency cfg)%Z
      then [LogFitnessValue best (fitness_log_frequency cfg) true] else [])
  ++ (if (0 <? best_individual_save_frequency cfg)%Z
      then [SaveIndividual (argmin (fitness_after_apply env fv P))] else []).

(** What holds of an AVOA state in front of a pass of the outer loop. *)
Definition avoa_at_head (cfg : config) (shapes : list nat) (s : Avoa.state) : Prop :=
  avoa_shapes_ok shapes (Z.to_nat (population_size cfg)) s
  /\ count is_evaluation (Avoa.trace s) = Avoa.gen s
  /\ count is_status (Avoa.trace s) = Avoa.gen s
  /\ count is_forced_log (Avoa.trace s) = O
  /\ count is_apply (Avoa.trace s) = O
  /\ (Avoa.gen s <= Z.to_nat (generation_limit cfg + 1))%nat.

(** What holds of the state in which the outer loop of AVOA ends: it ran
    out of generations, or the fitness threshold broke it. *)
Definition avoa_at_exit (cfg : config) (shapes : list nat) (s : Avoa.state) : Prop :=
  avoa_shapes_ok shapes (Z.to_nat (population_size cfg)) s
  /\ count is_forced_log (Avoa.trace s) = O
  /\ count is_apply (Avoa.trace s) = O
  /\ ((Avoa.gen s = Z.to_nat (generation_limit cfg + 1)
       /\ count is_evaluation (Avoa.trace s) = Avoa.gen s
       /\ count is_status (Avoa.trace s) = Avoa.gen s)
      \/ ((Avoa.gen s < Z.to_nat (generation_limit cfg + 1))%nat
          /\ Avoa.best_fitness s < fitness_limit cfg
          /\ count is_evaluation (Avoa.trace s) = S (Avoa.gen s)
          /\ count is_status (Avoa.trace s) = S (Avoa.gen s))).

(** What the phases of STBO keep: shapes, a fitness vector in step with the
    population, and a population that holds, for every fitness value seen so
    far, a member at least as good. *)
Definition stbo_in_step (env : environment) (cfg : config) (shapes : list nat)
    (s : Stbo.state) : Prop :=
  let N := Z.to_nat (population_size cfg) in
  population_ok shapes N (Stbo.X s)
  /\ population_ok shapes N (Stbo.XP s)
  /\ Stbo.F s = update_population_fitness env (Stbo.X s) N
  /\ incl (Stbo.F s) (observed (Stbo.trace s))
  /\ Forall (fun v => exists y, In y (Stbo.F s) /\ y <= v)
            (observed (Stbo.trace s)).

(** What holds of an STBO state in front of a pass of the loop. *)
Definition stbo_at_head (env : environment) (cfg : config) (shapes : list nat)
    (s : Stbo.state) : Prop :=
  stbo_in_step env cfg shapes s
  /\ Stbo.best_fitness s = reduce_min (Stbo.F s)
  /\ count is_evaluation (Stbo.trace s) = (1 + 6 * Stbo.gen s)%nat
  /\ count is_status (Stbo.trace s) = Stbo.gen s
  /\ count is_forced_log (Stbo.trace s) = O
  /\ count is_apply (Stbo.trace s) = O
  /\ (Stbo.gen s <= Z.to_nat (generation_limit cfg + 1))%nat.

(** The settings under which the engines are analysed: a random generator
    whose draws are in range, and a created population of the shapes of the
    model weights.  AVOA needs two individuals for its pair of best vultures;
    STBO builds its own population unless transfer learning is on. *)
Definition avoa_setting_ok (env : environment) (cfg : config) : Prop :=
  random_source_ok (rnd env)
  /\ (2 <= population_size cfg)%Z
  /\ model_weights cfg <> []
  /\ population_ok (shapes_of (model_weights cfg))
       (Z.to_nat (population_size cfg)) (created_population env).

Definition stbo_setting_ok (env : environment) (cfg : config) : Prop :=
  (0 <= population_size cfg)%Z
  /\ (transfer_learning cfg = true ->
      (0 < population_size cfg)%Z /\ model_weights cfg <> []
      /\ population_ok (shapes_of (model_weights cfg))
           (Z.to_nat (population_size cfg)) (created_population env)).

(** The settings of the statements on whole runs.  For [avoa], moreover, a
    [beta] at which [math.gamma] returns inside [calculate_sigma()]; for
    [stbo] a population that is not empty, so that its least fitness is a
    number; for both a generation limit below [2^24], which the float32
    counter [gen] reaches. *)
Definition avoa_run_ok (env : environment) (cfg : config) : Prop :=
  avoa_setting_ok env cfg
  /\ Avoa.calculate_sigma env cfg <> None
  /\ (generation_limit cfg < 16777216)%Z.

Definition stbo_run_ok (env : environment) (cfg : config) : Prop :=
  stbo_setting_ok env cfg
  /\ (0 < population_size cfg)%Z
  /\ (generation_limit cfg < 16777216)%Z.

(** ** Concrete settings *)

(** A generator whose uniform draws are all [1/2]. *)
Definition half_rnd : random_source := {|
  uniform01 := fun _ => 1 / 2;
  random_int := fun _ => O;
  categorical := fun _ _ => O;
  shuffle := fun _ l => l
|}.

(** The fitness of a candidate is its first element, or constantly [0]. *)
Definition first_element (c : candidate) : R := nth 0 (nth 0 c []) 0.

(** [math.gamma] returns (its value matters to the Levy step only, which
    the runs below do not take), and the write-back leaves the fitness
    vector as it is. *)
Definition env_of (fit : candidate -> R) (P0 : population) : environment := {|
  model_fitness_fn := fit;
  rnd := half_rnd;
  math_gamma := fun _ => Some 1;
  created_population := P0;
  fitness_after_apply := fun fv _ => fv
|}.

(** The defaults of [avoa] and [stbo] for one scalar weight and two
    individuals. *)
Definition default_config (limit : Z) (threshold : R) : config := {|
  model_weights := [[0]];
  generation_limit := limit;
  fitness_limit := threshold;
  population_size := 2;
  transfer_learning := false;
  fitness_log_frequency := -1;
  best_individual_save_frequency := -1;
  L1 := 0.8; L2 := 0.2; w := 2.5; P1 := 0.6; P2 := 0.4; P3 := 0.6;
  lb := -1; ub := 1; beta := 1.5
|}.


(** Two individuals of one scalar weight. *)
Definition two_scalars (x0 x1 : R) : population := [[[x0]; [x1]]].

(** An AVOA state of two scalars with zeroed scratch variables, and an
    STBO state with a proposal for each of two scalars. *)
Definition avoa_state_of (x0 x1 : R) : Avoa.state :=
  Avoa.mk (two_scalars x0 x1) [0; 0] (two_scalars 0 0) (two_scalars 0 0)
          (two_scalars 0 0) [[0]] [[0]] [[0]] 0 0 O O O [].

Definition stbo_state_of (x0 x1 p0 p1 : R) : Stbo.state :=
  Stbo.mk (two_scalars x0 x1) [x0; x1] [O; O] (two_scalars p0 p1) [x0; x1]
          (Rmin x0 x1) O O [].

(** ** The imitation phase as the specification words it *)

(** For individual [i] of a slot: [ms] distinct positions among the [m]
    elements of that individual are overwritten with the instructor's, the
    others are the individual's own. *)
Definition spec_imitation (g : nat) (T : R) (x : slot) (SIv : list nat)
    (xp : slot) (i : nat) : Prop :=
  let m := length (row i x) in
  let ms := Z.to_nat (tf_round (1 + INR g / (2 * T) * INR m)) in
  exists SD : list nat,
    NoDup SD /\ length SD = ms /\ (forall j, In j SD -> (j < m)%nat)
    /\ (forall j, In j SD ->
          nth j (row i xp) 0 = nth j (row (nth i SIv O) x) 0)
    /\ (forall j, (j < m)%nat -> ~ In j SD ->
          nth j (row i xp) 0 = nth j (row i x) 0).

(** ** Invariants of the update steps *)

(** Element [j] of individual [r] in slot [k], and element [j] of tensor
    [k]. *)
Definition elem (P : population) (k r j : nat) : R :=
  nth j (row r (nth k P [])) 0.

Definition telem (ts : list tensor) (k j : nat) : R := nth j (nth k ts []) 0.

(** An AVOA update step keeps the shapes, the control variables and [i]. *)
Definition avoa_stays (shapes : list nat) (N : nat) (s s' : Avoa.state) : Prop :=
  avoa_shapes_ok shapes N s' /\ avoa_same_control s s' /\ Avoa.i s' = Avoa.i s.

(** Rows of the other individuals are not touched. *)
Definition other_rows_kept (shapes : list nat) (s s' : Avoa.state) : Prop :=
  forall k r, (k < length shapes)%nat -> r <> Avoa.i s ->
    row r (nth k (Avoa.P s') []) = row r (nth k (Avoa.P s) []).

(** A proposal step of STBO writes [XP] (and [SI], and advances the random
    counter) and nothing else. *)
Definition stbo_proposed (shapes : list nat) (N : nat) (s s' : Stbo.state) : Prop :=
  Stbo.X s' = Stbo.X s /\ Stbo.F s' = Stbo.F s
  /\ Stbo.trace s' = Stbo.trace s /\ Stbo.gen s' = Stbo.gen s
  /\ Stbo.best_fitness s' = Stbo.best_fitness s
  /\ (population_ok shapes N (Stbo.X s) -> population_ok shapes N (Stbo.XP s) ->
      population_ok shapes N (Stbo.XP s')).

(** ** Vocabulary of the further properties *)

(** A list of indices in ascending order of their keys. *)
Fixpoint sorted_by (key : nat -> R) (l : list nat) : Prop :=
  match l with
  | [] => True
  | a :: t => (forall b, In b t -> key a <= key b) /\ sorted_by key t
  end.

(** The logits that [eq_1] hands to [tf.random.categorical], and the
    probabilities that logits stand for: [tf.random.categorical] reads them
    as unnormalised log-probabilities. *)
Definition eq_1_logits (cfg : config) : list R :=
  map ln (map (fun l => (L1 cfg + L2 cfg) / l) [L1 cfg; L2 cfg]).

Definition softmax (logits : list R) (j : nat) : R :=
  exp (nth j logits 0) / fold_right Rplus 0 (map exp logits).


(** ** Lemmas on the list helpers *)

Lemma zip_with_length {A B C} (f : A -> B -> C) l1 l2 :
  length (zip_with f l1 l2) = Nat.min (length l1) (length l2).
Proof.
  revert l2; induction l1 as [|a t IH]; intros [|b t2]; simpl; auto.
Qed.

Lemma zip_with3_length {A B C D} (f : A -> B -> C -> D) l1 l2 l3 :
  length (zip_with3 f l1 l2 l3)
  = Nat.min (length l1) (Nat.min (length l2) (length l3)).
Proof.
  revert l2 l3; induction l1 as [|a t IH]; intros [|b t2] [|c t3]; simpl; auto.
Qed.

Lemma nth_zip_with {A B C} (f : A -> B -> C) l1 l2 i d d1 d2 :
  (i < length l1)%nat -> (i < length l2)%nat ->
  nth i (zip_with f l1 l2) d = f (nth i l1 d1) (nth i l2 d2).
Proof.
  revert l2 i; induction l1 as [|a t IH]; intros [|b t2] [|i]; simpl;
    intros H1 H2; try lia; auto.
  apply IH; lia.
Qed.

Lemma nth_zip_with3 {A B C D} (f : A -> B -> C -> D) l1 l2 l3 i d d1 d2 d3 :
  (i < length l1)%nat -> (i < length l2)%nat -> (i < length l3)%nat ->
  nth i (zip_with3 f l1 l2 l3) d = f (nth i l1 d1) (nth i l2 d2) (nth i l3 d3).
Proof.
  revert l2 l3 i; induction l1 as [|a t IH]; intros [|b t2] [|c t3] [|i]; simpl;
    intros H1 H2 H3; try lia; auto.
  apply IH; lia.
Qed.

Lemma set_row_length {A} i (v : A) p : length (set_row i v p) = length p.
Proof.
  revert i; induction p as [|a t IH]; intros [|i]; simpl; auto.
Qed.

Lemma nth_set_row_eq {A} i (v d : A) p :
  (i < length p)%nat -> nth i (set_row i v p) d = v.
Proof.
  revert i; induction p as [|a t IH]; intros [|i]; simpl; intros H; try lia; auto.
  apply IH; lia.
Qed.

Lemma nth_set_row_neq {A} i j (v d : A) p :
  i <> j -> nth j (set_row i v p) d = nth j p d.
Proof.
  revert i j; induction p as [|a t IH]; intros [|i] [|j]; simpl; intros H;
    try congruence; auto.
Qed.

Lemma update_population_fitness_length env P N :
  length (update_population_fitness env P N) = N.
Proof.
  unfold update_population_fitness. now rewrite length_map, length_seq.
Qed.

Lemma nth_update_population_fitness env P N i :
  (i < N)%nat ->
  nth i (update_population_fitness env P N) 0
  = model_fitness_fn env (individual P i).
Proof.
  intros H. unfold update_population_fitness.
  rewrite (nth_indep _ 0 (model_fitness_fn env (individual P 0)))
    by now rewrite length_map, length_seq.
  rewrite (map_nth (fun i => model_fitness_fn env (individual P i))).
  now rewrite seq_nth.
Qed.

Lemma Rltb_true x y : Rltb x y = true <-> x < y.
Proof. unfold Rltb. destruct (Rlt_dec x y); split; intros; auto; discriminate. Qed.

Lemma Rltb_false x y : Rltb x y = false <-> y <= x.
Proof.
  unfold Rltb. destruct (Rlt_dec x y); split; intros; auto; try discriminate; lra.
Qed.

Lemma Rleb_true x y : Rleb x y = true <-> x <= y.
Proof. unfold Rleb. destruct (Rle_dec x y); split; intros; auto; discriminate. Qed.

Lemma Rleb_false x y : Rleb x y = false <-> y < x.
Proof.
  unfold Rleb. destruct (Rle_dec x y); split; intros; auto; try discriminate; lra.
Qed.

Lemma nth_where_rows {A} (improved : list bool) (xp x : list A) i d :
  (i < length improved)%nat -> (i < length xp)%nat -> (i < length x)%nat ->
  nth i (Stbo.where_rows improved xp x) d
  = if nth i improved false then nth i xp d else nth i x d.
Proof.
  intros H1 H2 H3. unfold Stbo.where_rows.
  now rewrite (nth_zip_with3 _ _ _ _ _ d false d d).
Qed.

Lemma where_rows_length {A} (improved : list bool) (xp x : list A) n :
  length improved = n -> length xp = n -> length x = n ->
  length (Stbo.where_rows improved xp x) = n.
Proof.
  intros H1 H2 H3. unfold Stbo.where_rows. rewrite zip_with3_length. lia.
Qed.

Lemma individual_zip_where (improved : list bool) (XPs Xs : population) N i :
  length improved = N -> rows_ok N XPs -> rows_ok N Xs ->
  length XPs = length Xs -> (i < N)%nat ->
  individual (zip_with (Stbo.where_rows improved) XPs Xs) i
  = if nth i improved false then individual XPs i else individual Xs i.
Proof.
  intros Himp Hxp Hx. revert Xs Hx.
  induction Hxp as [|xp XPt Hlen Hxp IH]; intros Xs Hx Hl Hi.
  - destruct Xs; [|discriminate]. simpl. now destruct (nth i improved false).
  - destruct Xs as [|x Xt]; [discriminate|]. inversion Hx; subst.
    simpl in Hl. injection Hl as Hl.
    unfold individual in *. simpl.
    rewrite IH by auto. unfold row at 1.
    rewrite nth_where_rows by lia.
    destruct (nth i improved false); reflexivity.
Qed.

Section StboAccept.

Variable env : environment.
Variable cfg : config.
Let N := Z.to_nat (population_size cfg).

Lemma improved_positions_facts (s : Stbo.state) :
  let s' := Stbo.update_improved_positions env cfg s in
  let Fv := update_population_fitness env (Stbo.X s) N in
  let FPv := update_population_fitness env (Stbo.XP s) N in
  let improved := zip_with Rltb FPv Fv in
  Stbo.X s' = zip_with (Stbo.where_rows improved) (Stbo.XP s) (Stbo.X s)
  /\ Stbo.F s' = Stbo.where_rows improved FPv Fv
  /\ Stbo.XP s' = Stbo.XP s /\ Stbo.FP s' = FPv
  /\ Stbo.SI s' = Stbo.SI s /\ Stbo.gen s' = Stbo.gen s
  /\ Stbo.rng s' = Stbo.rng s
  /\ Stbo.best_fitness s' = Stbo.best_fitness s
  /\ Stbo.trace s' = Stbo.trace s ++ [UpdatePopulationFitness Fv;
                                      UpdatePopulationFitness FPv].
Proof.
  unfold Stbo.update_improved_positions; simpl.
  repeat split; auto. now rewrite <- app_assoc.
Qed.

End StboAccept.

Lemma accept_pointwise (env : environment) (cfg : config) (s : Stbo.state) (i : nat) :
  let N := Z.to_nat (population_size cfg) in
  let s' := Stbo.update_improved_positions env cfg s in
  let old := model_fitness_fn env (individual (Stbo.X s) i) in
  let proposed := model_fitness_fn env (individual (Stbo.XP s) i) in
  rows_ok N (Stbo.X s) -> rows_ok N (Stbo.XP s) ->
  length (Stbo.XP s) = length (Stbo.X s) -> (i < N)%nat ->
  individual (Stbo.X s') i
    = (if Rlt_dec proposed old then individual (Stbo.XP s) i
       else individual (Stbo.X s) i)
  /\ nth i (Stbo.F s') 0 = Rmin old proposed
  /\ nth i (Stbo.F s') 0 = model_fitness_fn env (individual (Stbo.X s') i).
Proof.
  intros N s' old proposed HX HXP Hlen Hi.
  destruct (improved_positions_facts env cfg s) as (EX & EF & _).
  fold N in EX, EF. fold s' in EX, EF.
  set (Fv := update_population_fitness env (Stbo.X s) N) in *.
  set (FPv := update_population_fitness env (Stbo.XP s) N) in *.
  assert (LF : length Fv = N) by apply update_population_fitness_length.
  assert (LFP : length FPv = N) by apply update_population_fitness_length.
  assert (Limp : length (zip_with Rltb FPv Fv) = N)
    by (rewrite zip_with_length; lia).
  assert (Eimp : nth i (zip_with Rltb FPv Fv) false = Rltb proposed old).
  { rewrite (nth_zip_with _ _ _ _ _ 0 0) by lia.
    unfold FPv, Fv. now rewrite !nth_update_population_fitness by assumption. }
  assert (E1 : individual (Stbo.X s') i
               = if Rlt_dec proposed old then individual (Stbo.XP s) i
                 else individual (Stbo.X s) i).
  { rewrite EX, (individual_zip_where _ _ _ N) by auto.
    rewrite Eimp. unfold Rltb. now destruct (Rlt_dec proposed old). }
  assert (E2 : nth i (Stbo.F s') 0 = Rmin old proposed).
  { rewrite EF, nth_where_rows by lia. rewrite Eimp.
    unfold FPv, Fv. rewrite !nth_update_population_fitness by assumption.
    fold old proposed. unfold Rltb, Rmin.
    destruct (Rlt_dec proposed old), (Rle_dec old proposed); lra. }
  repeat split; auto.
  rewrite E2, E1. unfold Rmin.
  destruct (Rlt_dec proposed old), (Rle_dec old proposed); subst old proposed; lra.
Qed.

(** ** Shapes *)

Lemma slot_ok_set_row n sz i v x :
  slot_ok n sz x -> length v = sz -> slot_ok n sz (set_row i v x).
Proof.
  intros [Hl Hr] Hv. split.
  - now rewrite set_row_length.
  - intros r Hrn. destruct (Nat.eq_dec i r) as [->|Hne].
    + rewrite nth_set_row_eq by lia. exact Hv.
    + rewrite nth_set_row_neq by exact Hne. now apply Hr.
Qed.

Lemma slot_ok_row n sz i x : slot_ok n sz x -> (i < n)%nat -> length (row i x) = sz.
Proof. intros [_ Hr] Hi. now apply Hr. Qed.

Lemma slots_ok_zip_with {A B} n shapes (f : A -> B -> slot) l1 l2 d1 d2 :
  length l1 = length shapes -> length l2 = length shapes ->
  (forall k, (k < length shapes)%nat ->
     slot_ok n (nth k shapes O) (f (nth k l1 d1) (nth k l2 d2))) ->
  slots_ok n shapes (zip_with f l1 l2).
Proof.
  intros H1 H2 H. split.
  - rewrite zip_with_length. lia.
  - intros k Hk. rewrite (nth_zip_with _ _ _ _ _ d1 d2) by lia. now apply H.
Qed.

Lemma slots_ok_zip_with3 {A B C} n shapes (f : A -> B -> C -> slot) l1 l2 l3 d1 d2 d3 :
  length l1 = length shapes -> length l2 = length shapes ->
  length l3 = length shapes ->
  (forall k, (k < length shapes)%nat ->
     slot_ok n (nth k shapes O) (f (nth k l1 d1) (nth k l2 d2) (nth k l3 d3))) ->
  slots_ok n shapes (zip_with3 f l1 l2 l3).
Proof.
  intros H1 H2 H3 H. split.
  - rewrite zip_with3_length. lia.
  - intros k Hk. rewrite (nth_zip_with3 _ _ _ _ _ _ d1 d2 d3) by lia. now apply H.
Qed.

Lemma tensors_ok_zip_with {A B} shapes (f : A -> B -> tensor) l1 l2 d1 d2 :
  length l1 = length shapes -> length l2 = length shapes ->
  (forall k, (k < length shapes)%nat ->
     length (f (nth k l1 d1) (nth k l2 d2)) = nth k shapes O) ->
  tensors_ok shapes (zip_with f l1 l2).
Proof.
  intros H1 H2 H. split.
  - rewrite zip_with_length. lia.
  - intros k Hk. rewrite (nth_zip_with _ _ _ _ _ d1 d2) by lia. now apply H.
Qed.

Lemma tensors_ok_zip_with3 {A B C} shapes (f : A -> B -> C -> tensor) l1 l2 l3 d1 d2 d3 :
  length l1 = length shapes -> length l2 = length shapes ->
  length l3 = length shapes ->
  (forall k, (k < length shapes)%nat ->
     length (f (nth k l1 d1) (nth k l2 d2) (nth k l3 d3)) = nth k shapes O) ->
  tensors_ok shapes (zip_with3 f l1 l2 l3).
Proof.
  intros H1 H2 H3 H. split.
  - rewrite zip_with3_length. lia.
  - intros k Hk. rewrite (nth_zip_with3 _ _ _ _ _ _ d1 d2 d3) by lia. now apply H.
Qed.

Lemma slots_ok_row n shapes xs k i :
  slots_ok n shapes xs -> (k < length shapes)%nat -> (i < n)%nat ->
  length (row i (nth k xs [])) = nth k shapes O.
Proof. intros [_ H] Hk Hi. eapply slot_ok_row; eauto. Qed.

(** [argsort] lists every index once. *)
Lemma insert_by_perm key j l : Permutation (insert_by key j l) (j :: l).
Proof.
  induction l as [|k t IH]; simpl; auto.
  destruct (Rlt_dec (key j) (key k)); auto.
  rewrite IH. apply perm_swap.
Qed.

Lemma argsort_fold_perm key js acc :
  Permutation (fold_left (fun a j => insert_by key j a) js acc) (js ++ acc).
Proof.
  revert acc; induction js as [|j t IH]; intros acc; simpl; auto.
  rewrite IH. rewrite insert_by_perm. symmetry. apply Permutation_middle.
Qed.

Lemma argsort_perm v : Permutation (argsort v) (seq 0 (length v)).
Proof. unfold argsort. rewrite argsort_fold_perm. now rewrite app_nil_r. Qed.

Lemma argsort_length v : length (argsort v) = length v.
Proof. rewrite (Permutation_length (argsort_perm v)). apply length_seq. Qed.

Lemma In_firstn {A} n (l : list A) x : In x (firstn n l) -> In x l.
Proof.
  intros H. rewrite <- (firstn_skipn n l). apply in_or_app. now left.
Qed.

Lemma argsort_bound v j : In j (firstn 2 (argsort v)) -> (j < length v)%nat.
Proof.
  intros H. apply In_firstn in H.
  apply (Permutation_in _ (argsort_perm v)) in H.
  apply in_seq in H. lia.
Qed.

(** ** AVOA: shapes are kept by every update equation *)

Ltac avoa_fields :=
  unfold Avoa.with_P, Avoa.with_fitness_values, Avoa.with_best_vultures,
    Avoa.with_Sv, Avoa.with_A, Avoa.with_Rv, Avoa.with_D, Avoa.with_Levy,
    Avoa.with_F, Avoa.with_best_fitness, Avoa.with_gen, Avoa.with_i,
    Avoa.with_rng, Avoa.emit;
  cbn [Avoa.P Avoa.fitness_values Avoa.best_vultures Avoa.Sv Avoa.A Avoa.Rv
       Avoa.D Avoa.Levy Avoa.F Avoa.best_fitness Avoa.gen Avoa.i Avoa.rng
       Avoa.trace fst snd].

Section AvoaShapes.

Variable env : environment.
Variable cfg : config.
Variable shapes : list nat.
Variable N : nat.

Lemma zip_len2 {A B C} (f : A -> B -> C) l1 l2 n :
  length l1 = n -> length l2 = n -> length (zip_with f l1 l2) = n.
Proof. intros. rewrite zip_with_length. lia. Qed.

Lemma zip_len3 {A B C D} (f : A -> B -> C -> D) l1 l2 l3 n :
  length l1 = n -> length l2 = n -> length l3 = n ->
  length (zip_with3 f l1 l2 l3) = n.
Proof. intros. rewrite zip_with3_length. lia. Qed.

Ltac shape_step :=
  match goal with
  | |- slots_ok _ _ (zip_with3 _ _ _ _) =>
      apply (slots_ok_zip_with3 _ _ _ _ _ _ [] [] []); [| | |intros ? ?]
  | |- slots_ok _ _ (zip_with _ _ _) =>
      apply (slots_ok_zip_with _ _ _ _ _ [] []); [| |intros ? ?]
  | |- tensors_ok _ (zip_with3 _ _ _ _) =>
      apply (tensors_ok_zip_with3 _ _ _ _ _ [] [] []); [| | |intros ? ?]
  | |- tensors_ok _ (zip_with _ _ _) =>
      apply (tensors_ok_zip_with _ _ _ _ [] []); [| |intros ? ?]
  | |- slot_ok _ _ (set_row _ _ _) => apply slot_ok_set_row
  | |- length (zip_with _ _ _) = _ => apply zip_len2
  | |- length (zip_with3 _ _ _ _) = _ => apply zip_len3
  | |- length (map _ _) = _ => rewrite length_map
  | H : slots_ok _ _ ?xs |- length ?xs = _ => exact (proj1 H)
  | H : tensors_ok _ ?xs |- length ?xs = _ => exact (proj1 H)
  | H : slots_ok _ _ ?xs |- slot_ok _ _ (nth _ ?xs []) => apply (proj2 H); assumption
  | H : tensors_ok _ ?xs |- length (nth _ ?xs []) = _ => apply (proj2 H); assumption
  | H : slots_ok ?n _ ?xs |- length (row _ (nth _ ?xs [])) = _ =>
      apply (slots_ok_row n _ xs); [exact H | assumption | lia]
  end.

Ltac shapes_tac := repeat shape_step.

Lemma avoa_stays_trans s1 s2 s3 :
  avoa_stays shapes N s1 s2 -> avoa_stays shapes N s2 s3 -> avoa_stays shapes N s1 s3.
Proof.
  unfold avoa_stays, avoa_same_control. intuition congruence.
Qed.

Ltac start_eq :=
  intros (HP & Hbv & HS & HA & HR & HD & HL) Hi;
  unfold avoa_stays, avoa_shapes_ok, avoa_same_control, population_ok in *.

Ltac finish_eq :=
  avoa_fields;
  refine (conj (conj _ (conj _ (conj _ (conj _ (conj _ (conj _ _))))))
               (conj (conj _ (conj _ (conj _ (conj _ _)))) _));
  try assumption; try reflexivity; shapes_tac.

Lemma eq_7_stays s :
  avoa_shapes_ok shapes N s -> (Avoa.i s < N)%nat -> avoa_stays shapes N s (Avoa.eq_7 env s).
Proof.
  start_eq. unfold Avoa.eq_7. finish_eq.
Qed.

Lemma eq_6_stays s :
  avoa_shapes_ok shapes N s -> (Avoa.i s < N)%nat -> avoa_stays shapes N s (Avoa.eq_6 env s).
Proof.
  intros Hs Hi. destruct (eq_7_stays s Hs Hi) as (H1 & H2 & H3).
  apply avoa_stays_trans with (Avoa.eq_7 env s); [unfold avoa_stays; auto|].
  unfold Avoa.eq_6. rewrite <- H3 in Hi. revert H1 Hi.
  generalize (Avoa.eq_7 env s). clear. intros s.
  start_eq. finish_eq.
Qed.

Ltac after_stage stage lem :=
  let H1 := fresh in let H2 := fresh in let H3 := fresh in
  match goal with
  | Hs : avoa_shapes_ok shapes N ?s, Hi : (Avoa.i ?s < N)%nat |- _ =>
      destruct (lem s Hs Hi) as (H1 & H2 & H3);
      apply avoa_stays_trans with (stage s); [unfold avoa_stays; auto|];
      rewrite <- H3 in Hi; revert H1 Hi;
      generalize (stage s); clear; intros s
  end.

Lemma eq_8_stays s :
  avoa_shapes_ok shapes N s -> (Avoa.i s < N)%nat -> avoa_stays shapes N s (Avoa.eq_8 env cfg s).
Proof. start_eq. unfold Avoa.eq_8. finish_eq. Qed.

Lemma eq_10_stays s :
  avoa_shapes_ok shapes N s -> (Avoa.i s < N)%nat -> avoa_stays shapes N s (Avoa.eq_10 env s).
Proof.
  intros Hs Hi. unfold Avoa.eq_10. after_stage (Avoa.eq_7 env) eq_7_stays.
  start_eq. finish_eq.
Qed.

Lemma eq_12_stays s :
  avoa_shapes_ok shapes N s -> (Avoa.i s < N)%nat -> avoa_stays shapes N s (Avoa.eq_12 env s).
Proof. start_eq. unfold Avoa.eq_12. finish_eq. Qed.

Lemma eq_13_stays s :
  avoa_shapes_ok shapes N s -> (Avoa.i s < N)%nat -> avoa_stays shapes N s (Avoa.eq_13 env s).
Proof.
  intros Hs Hi. unfold Avoa.eq_13. after_stage (Avoa.eq_12 env) eq_12_stays.
  start_eq. finish_eq.
Qed.

Lemma eq_15_stays s :
  avoa_shapes_ok shapes N s -> (Avoa.i s < N)%nat -> avoa_stays shapes N s (Avoa.eq_15 s).
Proof. start_eq. unfold Avoa.eq_15. finish_eq. Qed.

Lemma eq_16_stays s :
  avoa_shapes_ok shapes N s -> (Avoa.i s < N)%nat -> avoa_stays shapes N s (Avoa.eq_16 s).
Proof.
  intros Hs Hi. unfold Avoa.eq_16. after_stage Avoa.eq_15 eq_15_stays.
  start_eq. finish_eq.
Qed.

Lemma tensors_ok_iff sh (ts : list tensor) :
  tensors_ok sh ts <-> map (@length R) ts = sh.
Proof.
  split.
  - intros [Hl Hk]. apply (nth_ext _ _ O O).
    + now rewrite length_map.
    + intros k Hlt. rewrite length_map in Hlt.
      rewrite (nth_indep _ O (length (@nil R))) by now rewrite length_map.
      rewrite (map_nth (@length R)). apply Hk. unfold tensor in *. lia.
  - intros <-. split.
    + now rewrite length_map.
    + intros k Hlt. rewrite length_map in Hlt.
      rewrite (nth_indep _ O (length (@nil R))) by now rewrite length_map.
      now rewrite (map_nth (@length R)).
Qed.

Lemma random_uniform_tensor_length rs k n a b :
  length (random_uniform_tensor rs k n a b) = n.
Proof. unfold random_uniform_tensor. now rewrite length_map, length_seq. Qed.

Lemma eq_18_slots_shapes rs sg bt k ls :
  map (@length R) (fst (Avoa.eq_18_slots rs sg bt k ls)) = map (@length R) ls.
Proof.
  revert k; induction ls as [|l t IH]; intros k; simpl; auto.
  specialize (IH (k + (length l + (length l + 0)))%nat).
  destruct (Avoa.eq_18_slots rs sg bt (k + (length l + (length l + 0))) t) as [out k'].
  simpl in *. rewrite IH. f_equal.
  unfold Avoa.eq_18_slot. apply zip_len2; apply random_uniform_tensor_length.
Qed.

Lemma eq_18_stays s :
  avoa_shapes_ok shapes N s -> (Avoa.i s < N)%nat -> avoa_stays shapes N s (Avoa.eq_18 env cfg s).
Proof.
  start_eq. unfold Avoa.eq_18.
  pose proof (eq_18_slots_shapes (rnd env) (Avoa.sigma env cfg)
                (beta cfg) (Avoa.rng s) (Avoa.Levy s)) as E.
  destruct (Avoa.eq_18_slots (rnd env) (Avoa.sigma env cfg)
              (beta cfg) (Avoa.rng s) (Avoa.Levy s)) as [ls k].
  simpl in E. apply tensors_ok_iff in HL. rewrite HL in E.
  apply tensors_ok_iff in E. apply tensors_ok_iff in HL. finish_eq.
Qed.

Lemma eq_17_stays s :
  avoa_shapes_ok shapes N s -> (Avoa.i s < N)%nat -> avoa_stays shapes N s (Avoa.eq_17 env cfg s).
Proof.
  intros Hs Hi. unfold Avoa.eq_17. after_stage (Avoa.eq_18 env cfg) eq_18_stays.
  start_eq. finish_eq.
Qed.

Lemma eq_4_stays s :
  avoa_shapes_ok shapes N s -> (Avoa.i s < N)%nat -> avoa_stays shapes N s (Avoa.eq_4 env cfg s).
Proof. start_eq. unfold Avoa.eq_4. finish_eq. Qed.

Lemma probability_test_stays p s :
  avoa_shapes_ok shapes N s -> (Avoa.i s < N)%nat ->
  avoa_stays shapes N s (snd (Avoa.probability_test env p s)).
Proof. start_eq. unfold Avoa.probability_test. finish_eq. Qed.

Hypothesis rnd_ok : random_source_ok (rnd env).

Lemma eq_1_stays s :
  avoa_shapes_ok shapes N s -> (Avoa.i s < N)%nat -> avoa_stays shapes N s (Avoa.eq_1 env cfg s).
Proof.
  start_eq. unfold Avoa.eq_1. finish_eq.
  apply (slots_ok_row 2 _ (Avoa.best_vultures s)); auto.
  match goal with
  | |- (categorical _ ?k ?l < 2)%nat =>
      apply (categorical_range _ rnd_ok k l); discriminate
  end.
Qed.

Lemma update_vulture_stays s :
  avoa_shapes_ok shapes N s -> (Avoa.i s < N)%nat ->
  avoa_shapes_ok shapes N (Avoa.update_vulture env cfg s)
  /\ avoa_same_control s (Avoa.update_vulture env cfg s)
  /\ Avoa.i (Avoa.update_vulture env cfg s) = S (Avoa.i s).
Proof.
  intros Hs Hi.
  assert (H4 : avoa_stays shapes N s (Avoa.eq_4 env cfg (Avoa.eq_1 env cfg s))).
  { pose proof (eq_1_stays s Hs Hi) as H1.
    eapply avoa_stays_trans; [exact H1|].
    destruct H1 as (H1 & _ & Hi1). apply eq_4_stays; [exact H1 | lia]. }
  unfold Avoa.update_vulture.
  set (s1 := Avoa.eq_4 env cfg (Avoa.eq_1 env cfg s)) in *.
  assert (Hbranch : forall p (f g : Avoa.state -> Avoa.state),
             (forall x, avoa_shapes_ok shapes N x -> (Avoa.i x < N)%nat ->
                        avoa_stays shapes N x (f x)) ->
             (forall x, avoa_shapes_ok shapes N x -> (Avoa.i x < N)%nat ->
                        avoa_stays shapes N x (g x)) ->
             avoa_stays shapes N s (let '(b, s') := Avoa.probability_test env p s1 in
                           if b then f s' else g s')).
  { intros p f g Hf Hg.
    pose proof (probability_test_stays p s1) as Hp.
    destruct H4 as (H4a & H4b & H4c).
    specialize (Hp H4a ltac:(lia)).
    destruct (Avoa.probability_test env p s1) as [b s']. simpl in Hp.
    assert (Hs' : avoa_stays shapes N s s').
    { eapply avoa_stays_trans; [|exact Hp]. unfold avoa_stays; auto. }
    destruct Hp as (Hp1 & _ & Hp3).
    destruct b; (eapply avoa_stays_trans; [exact Hs'|]);
      [apply Hf|apply Hg]; auto; lia. }
  match goal with
  | |- context [Avoa.with_i _ ?x] =>
      assert (Hx : avoa_stays shapes N s x)
  end.
  { destruct (Rgeb (Rabs (Avoa.F s1)) 1);
      [|destruct (Rgeb (Rabs (Avoa.F s1)) 0.5)]; apply Hbranch;
      auto using eq_6_stays, eq_8_stays, eq_10_stays, eq_13_stays,
        eq_16_stays, eq_17_stays. }
  destruct Hx as (Hx1 & Hx2 & Hx3).
  unfold avoa_shapes_ok, avoa_same_control in *. avoa_fields.
  rewrite Hx3. intuition.
Qed.

End AvoaShapes.

(** ** AVOA: the update equations, element by element *)

Lemma nth_map_lt {A B} (f : A -> B) l j d d' :
  (j < length l)%nat -> nth j (map f l) d = f (nth j l d').
Proof.
  intros H. rewrite (nth_indep _ d (f d')) by now rewrite length_map.
  apply map_nth.
Qed.

Section AvoaElements.

Variable env : environment.
Variable cfg : config.
Variable shapes : list nat.
Variable N : nat.

Ltac nth_step :=
  match goal with
  | |- context [nth ?k (zip_with3 ?f ?l1 ?l2 ?l3) []] =>
      rewrite (nth_zip_with3 f l1 l2 l3 k [] [] [] [])
  | |- context [nth ?k (zip_with ?f ?l1 ?l2) []] =>
      rewrite (nth_zip_with f l1 l2 k [] [] [])
  | |- context [nth ?i (set_row ?i ?v ?p) ?d] =>
      rewrite (nth_set_row_eq i v d p)
  | |- context [nth 0 (set_row 1 ?v ?p) ?d] =>
      rewrite (nth_set_row_neq 1 0 v d p) by discriminate
  | H : ?r <> ?i |- context [nth ?r (set_row ?i ?v ?p) ?d] =>
      rewrite (nth_set_row_neq i r v d p) by congruence
  | |- context [nth ?j (zip_with3 ?f ?l1 ?l2 ?l3) 0] =>
      rewrite (nth_zip_with3 f l1 l2 l3 j 0 0 0 0)
  | |- context [nth ?j (zip_with ?f ?l1 ?l2) 0] =>
      rewrite (nth_zip_with f l1 l2 j 0 0 0)
  | |- context [nth ?j (map ?f ?l) 0] =>
      rewrite (nth_map_lt f l j 0 0)
  end.

Ltac len_tac :=
  unfold row in *; rewrite ?set_row_length;
  repeat match goal with
  | H : slots_ok _ _ _ |- _ => destruct H as [? ?]
  | H : tensors_ok _ _ |- _ => destruct H as [? ?]
  end;
  repeat match goal with
  | H : forall k, (k < length shapes)%nat -> slot_ok _ _ _, Hk : (?k < length shapes)%nat |- _ =>
      let H1 := fresh in let H2 := fresh in
      destruct (H k Hk) as [H1 H2]; clear H
  end;
  try (unfold population, slot, tensor in *; lia);
  try (unfold population, slot, tensor in *;
       repeat match goal with
       | H : forall k, (k < length shapes)%nat -> _ = _, Hk : (?k < length shapes)%nat |- _ =>
           rewrite (H k Hk)
       | H : forall r, (r < _)%nat -> _ = _ |- _ => rewrite H by lia
       end; lia).

Lemma other_rows_eq (f : slot -> tensor) (p : slot) i r :
  r <> i -> row r (set_row i (f p) p) = row r p.
Proof. intros H. unfold row. apply nth_set_row_neq. congruence. Qed.

Ltac elem_start :=
  intros (HP & Hbv & HS & HA & HR & HD & HL) Hi Hk Hj;
  unfold population_ok in HP; unfold elem, telem, spec_update.

Ltac elem_go :=
  unfold row, population, slot, tensor in *;
  repeat (nth_step; [|len_tac..]); try reflexivity.

Lemma eq_7_elem s k j :
  avoa_shapes_ok shapes N s -> (Avoa.i s < N)%nat ->
  (k < length shapes)%nat -> (j < nth k shapes O)%nat ->
  telem (Avoa.D (Avoa.eq_7 env s)) k j
  = Rabs (2 * random_uniform (rnd env) (Avoa.rng s) 0 1 * telem (Avoa.Rv s) k j
          - elem (Avoa.P s) k (Avoa.i s) j).
Proof.
  elem_start. unfold Avoa.eq_7. avoa_fields. elem_go.
Qed.

Ltac split_shapes H :=
  destruct H as (HP & Hbv & HS & HA & HR & HD & HL);
  unfold population_ok in HP.

Ltac staged stage lem :=
  match goal with
  | Hs : avoa_shapes_ok shapes N ?s, Hi : (Avoa.i ?s < N)%nat |- _ =>
      let H := fresh "Hst" in
      destruct (lem env shapes N s Hs Hi) as (H & _ & _);
      destruct H as (_ & _ & HS1 & HA1 & _ & HD1 & HL1)
  end.

Lemma eq_6_elem s k j :
  avoa_shapes_ok shapes N s -> (Avoa.i s < N)%nat ->
  (k < length shapes)%nat -> (j < nth k shapes O)%nat ->
  elem (Avoa.P (Avoa.eq_6 env s)) k (Avoa.i s) j
  = spec_update Eq6 (lb cfg) (ub cfg) (Avoa.F s) (telem (Avoa.Rv s) k j)
      (elem (Avoa.P s) k (Avoa.i s) j) 0 0
      (random_uniform (rnd env) (Avoa.rng s) 0 1) 0 0.
Proof.
  intros Hs Hi Hk Hj.
  pose proof (eq_7_elem s k j Hs Hi Hk Hj) as HDj.
  staged (Avoa.eq_7 env) eq_7_stays.
  unfold Avoa.eq_6.
  change (Avoa.F (Avoa.eq_7 env s)) with (Avoa.F s).
  change (Avoa.Rv (Avoa.eq_7 env s)) with (Avoa.Rv s) in *.
  change (Avoa.P (Avoa.eq_7 env s)) with (Avoa.P s) in *.
  change (Avoa.i (Avoa.eq_7 env s)) with (Avoa.i s) in *.
  clear HS1 HA1 HL1. revert HD1 HDj.
  generalize (Avoa.D (Avoa.eq_7 env s)). intros l HD1 HDj.
  split_shapes Hs. clear HD. unfold elem, telem in *. avoa_fields. elem_go.
  rewrite HDj. reflexivity.
Qed.

Lemma eq_8_elem s k j :
  avoa_shapes_ok shapes N s -> (Avoa.i s < N)%nat ->
  (k < length shapes)%nat -> (j < nth k shapes O)%nat ->
  elem (Avoa.P (Avoa.eq_8 env cfg s)) k (Avoa.i s) j
  = spec_update Eq8 (lb cfg) (ub cfg) (Avoa.F s) (telem (Avoa.Rv s) k j)
      (elem (Avoa.P s) k (Avoa.i s) j) 0 0
      (random_uniform (rnd env) (Avoa.rng s) 0 1)
      (random_uniform (rnd env) (S (Avoa.rng s)) 0 1) 0.
Proof.
  elem_start. unfold Avoa.eq_8. avoa_fields. elem_go.
Qed.

Lemma eq_10_elem s k j :
  avoa_shapes_ok shapes N s -> (Avoa.i s < N)%nat ->
  (k < length shapes)%nat -> (j < nth k shapes O)%nat ->
  elem (Avoa.P (Avoa.eq_10 env s)) k (Avoa.i s) j
  = spec_update Eq10 (lb cfg) (ub cfg) (Avoa.F s) (telem (Avoa.Rv s) k j)
      (elem (Avoa.P s) k (Avoa.i s) j) 0 0
      (random_uniform (rnd env) (Avoa.rng s) 0 1)
      (random_uniform (rnd env) (S (Avoa.rng s)) 0 1) 0.
Proof.
  intros Hs Hi Hk Hj.
  pose proof (eq_7_elem s k j Hs Hi Hk Hj) as HDj.
  staged (Avoa.eq_7 env) eq_7_stays.
  unfold Avoa.eq_10.
  change (Avoa.F (Avoa.eq_7 env s)) with (Avoa.F s).
  change (Avoa.Rv (Avoa.eq_7 env s)) with (Avoa.Rv s) in *.
  change (Avoa.P (Avoa.eq_7 env s)) with (Avoa.P s) in *.
  change (Avoa.i (Avoa.eq_7 env s)) with (Avoa.i s) in *.
  change (Avoa.rng (Avoa.eq_7 env s)) with (S (Avoa.rng s)) in *.
  clear HS1 HA1 HL1. revert HD1 HDj.
  generalize (Avoa.D (Avoa.eq_7 env s)). intros l HD1 HDj.
  split_shapes Hs. clear HD. unfold elem, telem in *. avoa_fields. elem_go.
  rewrite HDj. reflexivity.
Qed.

Lemma eq_12_elem s k j :
  avoa_shapes_ok shapes N s -> (Avoa.i s < N)%nat ->
  (k < length shapes)%nat -> (j < nth k shapes O)%nat ->
  elem (Avoa.Sv (Avoa.eq_12 env s)) k 0 j
  = telem (Avoa.Rv s) k j
    * (random_uniform (rnd env) (Avoa.rng s) 0 1 * elem (Avoa.P s) k (Avoa.i s) j
       / (2 * PI))
    * cos (elem (Avoa.P s) k (Avoa.i s) j)
  /\ elem (Avoa.Sv (Avoa.eq_12 env s)) k 1 j
  = telem (Avoa.Rv s) k j
    * (random_uniform (rnd env) (S (Avoa.rng s)) 0 1 * elem (Avoa.P s) k (Avoa.i s) j
       / (2 * PI))
    * sin (elem (Avoa.P s) k (Avoa.i s) j).
Proof.
  elem_start. unfold Avoa.eq_12. avoa_fields. split; elem_go.
Qed.

Lemma eq_13_elem s k j :
  avoa_shapes_ok shapes N s -> (Avoa.i s < N)%nat ->
  (k < length shapes)%nat -> (j < nth k shapes O)%nat ->
  elem (Avoa.P (Avoa.eq_13 env s)) k (Avoa.i s) j
  = spec_update Eq13 (lb cfg) (ub cfg) (Avoa.F s) (telem (Avoa.Rv s) k j)
      (elem (Avoa.P s) k (Avoa.i s) j) 0 0
      (random_uniform (rnd env) (Avoa.rng s) 0 1)
      (random_uniform (rnd env) (S (Avoa.rng s)) 0 1) 0.
Proof.
  intros Hs Hi Hk Hj.
  destruct (eq_12_elem s k j Hs Hi Hk Hj) as [HS0 HS1j].
  staged (Avoa.eq_12 env) eq_12_stays.
  unfold Avoa.eq_13.
  change (Avoa.Rv (Avoa.eq_12 env s)) with (Avoa.Rv s) in *.
  change (Avoa.P (Avoa.eq_12 env s)) with (Avoa.P s) in *.
  change (Avoa.i (Avoa.eq_12 env s)) with (Avoa.i s) in *.
  clear HD1 HA1 HL1. revert HS1 HS0 HS1j.
  generalize (Avoa.Sv (Avoa.eq_12 env s)). intros l HS1 HS0 HS1j.
  split_shapes Hs. clear HS. unfold elem, telem in *. avoa_fields. elem_go.
  unfold row in *. rewrite HS0, HS1j. reflexivity.
Qed.

Lemma eq_15_elem_rows s k j :
  avoa_shapes_ok shapes N s -> (Avoa.i s < N)%nat ->
  (k < length shapes)%nat -> (j < nth k shapes O)%nat ->
  elem (Avoa.A (Avoa.eq_15 s)) k 0 j
  = Avoa.eq_15_elem (Avoa.F s) (elem (Avoa.best_vultures s) k 0 j)
      (elem (Avoa.P s) k (Avoa.i s) j)
  /\ elem (Avoa.A (Avoa.eq_15 s)) k 1 j
  = Avoa.eq_15_elem (Avoa.F s) (elem (Avoa.best_vultures s) k 1 j)
      (elem (Avoa.P s) k (Avoa.i s) j).
Proof.
  elem_start. unfold Avoa.eq_15. avoa_fields. split; elem_go.
Qed.

Lemma eq_16_elem s k j :
  avoa_shapes_ok shapes N s -> (Avoa.i s < N)%nat ->
  (k < length shapes)%nat -> (j < nth k shapes O)%nat ->
  elem (Avoa.P (Avoa.eq_16 s)) k (Avoa.i s) j
  = spec_update Eq16 (lb cfg) (ub cfg) (Avoa.F s) 0
      (elem (Avoa.P s) k (Avoa.i s) j)
      (elem (Avoa.best_vultures s) k 0 j) (elem (Avoa.best_vultures s) k 1 j)
      0 0 0.
Proof.
  intros Hs Hi Hk Hj.
  destruct (eq_15_elem_rows s k j Hs Hi Hk Hj) as [HA0 HA1j].
  match goal with
  | Hs : avoa_shapes_ok shapes N ?s, Hi : (Avoa.i ?s < N)%nat |- _ =>
      destruct (eq_15_stays shapes N s Hs Hi) as ((_ & _ & _ & HA1 & _) & _ & _)
  end.
  unfold Avoa.eq_16.
  change (Avoa.P (Avoa.eq_15 s)) with (Avoa.P s) in *.
  change (Avoa.i (Avoa.eq_15 s)) with (Avoa.i s) in *.
  revert HA1 HA0 HA1j.
  generalize (Avoa.A (Avoa.eq_15 s)). intros l HA1 HA0 HA1j.
  split_shapes Hs. clear HA. unfold elem, telem in *. avoa_fields. elem_go.
  unfold row in *. rewrite HA0, HA1j. reflexivity.
Qed.

Lemma eq_17_elem s k j :
  avoa_shapes_ok shapes N s -> (Avoa.i s < N)%nat ->
  (k < length shapes)%nat -> (j < nth k shapes O)%nat ->
  elem (Avoa.P (Avoa.eq_17 env cfg s)) k (Avoa.i s) j
  = spec_update Eq17 (lb cfg) (ub cfg) (Avoa.F s) (telem (Avoa.Rv s) k j)
      (elem (Avoa.P s) k (Avoa.i s) j) 0 0 0 0
      (telem (Avoa.Levy (Avoa.eq_17 env cfg s)) k j).
Proof.
  intros Hs Hi Hk Hj.
  destruct (eq_18_stays env cfg shapes N s Hs Hi)
    as ((_ & _ & _ & _ & _ & _ & HL1) & _ & _).
  assert (E : Avoa.P (Avoa.eq_18 env cfg s) = Avoa.P s
              /\ Avoa.Rv (Avoa.eq_18 env cfg s) = Avoa.Rv s
              /\ Avoa.i (Avoa.eq_18 env cfg s) = Avoa.i s
              /\ Avoa.F (Avoa.eq_18 env cfg s) = Avoa.F s).
  { unfold Avoa.eq_18.
    destruct (Avoa.eq_18_slots (rnd env) (Avoa.sigma env cfg)
                (beta cfg) (Avoa.rng s) (Avoa.Levy s)); auto. }
  destruct E as (E1 & E2 & E3 & E4).
  unfold Avoa.eq_17. avoa_fields. rewrite E1, E2, E3, E4.
  revert HL1.
  generalize (Avoa.Levy (Avoa.eq_18 env cfg s)). intros l HL1.
  split_shapes Hs. clear HL. unfold elem, telem in *. elem_go.
Qed.

Ltac other_start :=
  intros Hs Hi k r Hk Hr.

Lemma eq_6_other s :
  avoa_shapes_ok shapes N s -> (Avoa.i s < N)%nat ->
  other_rows_kept shapes s (Avoa.eq_6 env s).
Proof.
  other_start. staged (Avoa.eq_7 env) eq_7_stays.
  unfold Avoa.eq_6.
  change (Avoa.Rv (Avoa.eq_7 env s)) with (Avoa.Rv s) in *.
  change (Avoa.P (Avoa.eq_7 env s)) with (Avoa.P s) in *.
  change (Avoa.i (Avoa.eq_7 env s)) with (Avoa.i s) in *.
  clear HS1 HA1 HL1. revert HD1.
  generalize (Avoa.D (Avoa.eq_7 env s)). intros l HD1.
  split_shapes Hs. clear HD. avoa_fields. elem_go.
Qed.

Lemma eq_8_other s :
  avoa_shapes_ok shapes N s -> (Avoa.i s < N)%nat ->
  other_rows_kept shapes s (Avoa.eq_8 env cfg s).
Proof.
  other_start. split_shapes Hs. unfold Avoa.eq_8. avoa_fields. elem_go.
Qed.

Lemma eq_10_other s :
  avoa_shapes_ok shapes N s -> (Avoa.i s < N)%nat ->
  other_rows_kept shapes s (Avoa.eq_10 env s).
Proof.
  other_start. staged (Avoa.eq_7 env) eq_7_stays.
  unfold Avoa.eq_10.
  change (Avoa.Rv (Avoa.eq_7 env s)) with (Avoa.Rv s) in *.
  change (Avoa.P (Avoa.eq_7 env s)) with (Avoa.P s) in *.
  change (Avoa.i (Avoa.eq_7 env s)) with (Avoa.i s) in *.
  clear HS1 HA1 HL1. revert HD1.
  generalize (Avoa.D (Avoa.eq_7 env s)). intros l HD1.
  split_shapes Hs. clear HD. avoa_fields. elem_go.
Qed.

Lemma eq_13_other s :
  avoa_shapes_ok shapes N s -> (Avoa.i s < N)%nat ->
  other_rows_kept shapes s (Avoa.eq_13 env s).
Proof.
  other_start. staged (Avoa.eq_12 env) eq_12_stays.
  unfold Avoa.eq_13.
  change (Avoa.Rv (Avoa.eq_12 env s)) with (Avoa.Rv s) in *.
  change (Avoa.P (Avoa.eq_12 env s)) with (Avoa.P s) in *.
  change (Avoa.i (Avoa.eq_12 env s)) with (Avoa.i s) in *.
  clear HD1 HA1 HL1. revert HS1.
  generalize (Avoa.Sv (Avoa.eq_12 env s)). intros l HS1.
  split_shapes Hs. clear HS. avoa_fields. elem_go.
Qed.

Lemma eq_16_other s :
  avoa_shapes_ok shapes N s -> (Avoa.i s < N)%nat ->
  other_rows_kept shapes s (Avoa.eq_16 s).
Proof.
  other_start.
  destruct (eq_15_stays shapes N s Hs Hi) as ((_ & _ & _ & HA1 & _) & _ & _).
  unfold Avoa.eq_16.
  change (Avoa.P (Avoa.eq_15 s)) with (Avoa.P s) in *.
  change (Avoa.i (Avoa.eq_15 s)) with (Avoa.i s) in *.
  revert HA1. generalize (Avoa.A (Avoa.eq_15 s)). intros l HA1.
  split_shapes Hs. clear HA. avoa_fields. elem_go.
Qed.

Lemma eq_17_other s :
  avoa_shapes_ok shapes N s -> (Avoa.i s < N)%nat ->
  other_rows_kept shapes s (Avoa.eq_17 env cfg s).
Proof.
  other_start.
  destruct (eq_18_stays env cfg shapes N s Hs Hi)
    as ((_ & _ & _ & _ & _ & _ & HL1) & _ & _).
  assert (E : Avoa.P (Avoa.eq_18 env cfg s) = Avoa.P s
              /\ Avoa.Rv (Avoa.eq_18 env cfg s) = Avoa.Rv s
              /\ Avoa.i (Avoa.eq_18 env cfg s) = Avoa.i s).
  { unfold Avoa.eq_18.
    destruct (Avoa.eq_18_slots (rnd env) (Avoa.sigma env cfg)
                (beta cfg) (Avoa.rng s) (Avoa.Levy s)); auto. }
  destruct E as (E1 & E2 & E3).
  unfold Avoa.eq_17. avoa_fields. rewrite E1, E2, E3.
  revert HL1.
  generalize (Avoa.Levy (Avoa.eq_18 env cfg s)). intros l HL1.
  split_shapes Hs. clear HL. elem_go.
Qed.

End AvoaElements.

Lemma Rgeb_dec x y : Rgeb x y = if Rge_dec x y then true else false.
Proof.
  unfold Rgeb, Rleb. destruct (Rle_dec y x), (Rge_dec x y); auto; lra.
Qed.

Lemma update_vulture_elements (env : environment) (cfg : config)
    (shapes : list nat) (N : nat) (s : Avoa.state) (k j : nat) :
  random_source_ok (rnd env) ->
  avoa_shapes_ok shapes N s -> (Avoa.i s < N)%nat ->
  (k < length shapes)%nat -> (j < nth k shapes O)%nat ->
  let c := Avoa.rng s in
  let U n := random_uniform (rnd env) n 0 1 in
  let selected :=
    categorical (rnd env) c
      (map ln [(L1 cfg + L2 cfg) / L1 cfg; (L1 cfg + L2 cfg) / L2 cfg]) in
  let Fs := spec_F (w cfg) (INR (Avoa.gen s)) (IZR (generation_limit cfg))
              (U (S c)) (random_uniform (rnd env) (S (S c)) (-1) 1)
              (random_uniform (rnd env) (S (S (S c))) (-2) 2) in
  let s' := Avoa.update_vulture env cfg s in
  Avoa.F s' = Fs
  /\ elem (Avoa.P s') k (Avoa.i s) j
     = spec_update
         (spec_branch Fs (P1 cfg) (P2 cfg) (P3 cfg) (U (S (S (S (S c))))))
         (lb cfg) (ub cfg) Fs
         (elem (Avoa.best_vultures s) k selected j)
         (elem (Avoa.P s) k (Avoa.i s) j)
         (elem (Avoa.best_vultures s) k 0 j)
         (elem (Avoa.best_vultures s) k 1 j)
         (U (S (S (S (S (S c)))))) (U (S (S (S (S (S (S c)))))))
         (telem (Avoa.Levy s') k j)
  /\ (forall r, r <> Avoa.i s ->
        row r (nth k (Avoa.P s') []) = row r (nth k (Avoa.P s) [])).
Proof.
  intros Hrnd Hs Hi Hk Hj c U selected Fs s'.
  pose (s1 := Avoa.eq_4 env cfg (Avoa.eq_1 env cfg s)).
  assert (H1 : avoa_shapes_ok shapes N s1 /\ Avoa.i s1 = Avoa.i s).
  { destruct (eq_1_stays env cfg shapes N Hrnd s Hs Hi) as (Ha & _ & Hb).
    destruct (eq_4_stays env cfg shapes N _ Ha ltac:(lia)) as (Hc & _ & Hd).
    split; [exact Hc | unfold s1; congruence]. }
  destruct H1 as [Hs1 Hi1].
  assert (HR : telem (Avoa.Rv s1) k j = elem (Avoa.best_vultures s) k selected j).
  { unfold s1, Avoa.eq_4, Avoa.eq_1. avoa_fields.
    destruct Hs as (HP & Hbv & HS & HA & HR & HD & HL).
    unfold elem, telem, row, population, slot, tensor in *.
    destruct HR as [HR _]. destruct Hbv as [Hbv _].
    unfold population, slot, tensor in *.
    rewrite (nth_zip_with _ _ _ _ _ [] []); [reflexivity|lia|lia]. }
  assert (HF : Avoa.F s1 = Fs) by reflexivity.
  (* the state handed to the chosen equation *)
  pose (s2 := Avoa.with_rng (S (Avoa.rng s1)) s1).
  assert (Hs2 : avoa_shapes_ok shapes N s2) by exact Hs1.
  assert (Hi2 : (Avoa.i s2 < N)%nat) by (change (Avoa.i s2) with (Avoa.i s1); lia).
  assert (Hcases :
    forall (e : equation) (f : Avoa.state -> Avoa.state) a b,
      (elem (Avoa.P (f s2)) k (Avoa.i s2) j
       = spec_update e (lb cfg) (ub cfg) (Avoa.F s2) (telem (Avoa.Rv s2) k j)
           (elem (Avoa.P s2) k (Avoa.i s2) j) a b (U (S (Avoa.rng s1)))
           (U (S (S (Avoa.rng s1)))) (telem (Avoa.Levy (f s2)) k j)) ->
      other_rows_kept shapes s2 (f s2) ->
      Avoa.F (f s2) = Avoa.F s2 ->
      spec_branch Fs (P1 cfg) (P2 cfg) (P3 cfg) (U (S (S (S (S c))))) = e ->
      (e = Eq16 -> a = elem (Avoa.best_vultures s) k 0 j
                   /\ b = elem (Avoa.best_vultures s) k 1 j) ->
      let r := Avoa.with_i (S (Avoa.i (f s2))) (f s2) in
      Avoa.F r = Fs
      /\ elem (Avoa.P r) k (Avoa.i s) j
         = spec_update
             (spec_branch Fs (P1 cfg) (P2 cfg) (P3 cfg) (U (S (S (S (S c))))))
             (lb cfg) (ub cfg) Fs
             (elem (Avoa.best_vultures s) k selected j)
             (elem (Avoa.P s) k (Avoa.i s) j)
             (elem (Avoa.best_vultures s) k 0 j)
             (elem (Avoa.best_vultures s) k 1 j)
             (U (S (S (S (S (S c)))))) (U (S (S (S (S (S (S c)))))))
             (telem (Avoa.Levy r) k j)
      /\ (forall r0, r0 <> Avoa.i s ->
            row r0 (nth k (Avoa.P r) []) = row r0 (nth k (Avoa.P s) []))).
  { intros e f a b He Ho HFf Hb Hab r.
    change (Avoa.P r) with (Avoa.P (f s2)).
    change (Avoa.Levy r) with (Avoa.Levy (f s2)).
    change (Avoa.F r) with (Avoa.F (f s2)).
    change (Avoa.i s2) with (Avoa.i s1) in *. rewrite Hi1 in *.
    change (Avoa.F s2) with (Avoa.F s1) in *.
    change (Avoa.Rv s2) with (Avoa.Rv s1) in *.
    change (Avoa.P s2) with (Avoa.P s) in *.
    rewrite HF in *. rewrite HR in *.
    split; [exact HFf|]. split.
    - rewrite He, Hb. destruct e; try reflexivity.
      destruct (Hab eq_refl) as [-> ->]. reflexivity.
    - intros r0 Hr0. apply (Ho k r0 Hk).
      change (Avoa.i s2) with (Avoa.i s1). congruence. }
  unfold s', Avoa.update_vulture. fold s1.
  unfold Avoa.probability_test. fold s2.
  rewrite !Rgeb_dec. rewrite HF.
  change (random_uniform (rnd env) (Avoa.rng s1) 0 1) with (U (S (S (S (S c))))).
  unfold spec_branch in Hcases |- *.
  destruct (Rge_dec (Rabs Fs) 1);
    [|destruct (Rge_dec (Rabs Fs) 0.5)];
    match goal with
    | |- context [Rge_dec ?p ?u] => destruct (Rge_dec p u)
    end.
  - apply (Hcases Eq6 (Avoa.eq_6 env) 0 0); auto; try discriminate.
    + apply (eq_6_elem env cfg shapes N s2 k j); auto.
    + apply (eq_6_other env shapes N s2); auto.
  - apply (Hcases Eq8 (Avoa.eq_8 env cfg) 0 0); auto; try discriminate.
    + apply (eq_8_elem env cfg shapes N s2 k j); auto.
    + apply (eq_8_other env cfg shapes N s2); auto.
  - apply (Hcases Eq10 (Avoa.eq_10 env) 0 0); auto; try discriminate.
    + apply (eq_10_elem env cfg shapes N s2 k j); auto.
    + apply (eq_10_other env shapes N s2); auto.
  - apply (Hcases Eq13 (Avoa.eq_13 env) 0 0); auto; try discriminate.
    + apply (eq_13_elem env cfg shapes N s2 k j); auto.
    + apply (eq_13_other env shapes N s2); auto.
  - apply (Hcases Eq16 (Avoa.eq_16)
             (elem (Avoa.best_vultures s) k 0 j)
             (elem (Avoa.best_vultures s) k 1 j)); auto.
    + apply (eq_16_elem cfg shapes N s2 k j); auto.
    + apply (eq_16_other shapes N s2); auto.
  - apply (Hcases Eq17 (Avoa.eq_17 env cfg) 0 0); auto; try discriminate.
    + apply (eq_17_elem env cfg shapes N s2 k j); auto.
    + apply (eq_17_other env cfg shapes N s2); auto.
    + unfold Avoa.eq_17, Avoa.eq_18.
      destruct (Avoa.eq_18_slots (rnd env) (Avoa.sigma env cfg)
                  (beta cfg) (Avoa.rng s2) (Avoa.Levy s2)); reflexivity.
Qed.

Lemma eq_18_slots_counter rs sg bt k ls :
  snd (Avoa.eq_18_slots rs sg bt k ls)
  = (k + 2 * list_sum (map (@length R) ls))%nat.
Proof.
  revert k; induction ls as [|l t IH]; intros k; simpl; [lia|].
  specialize (IH (k + (length l + (length l + 0)))%nat).
  destruct (Avoa.eq_18_slots rs sg bt (k + (length l + (length l + 0))) t)
    as [out k'].
  simpl in *. lia.
Qed.

(** The random counter after the update of one vulture: one draw for
    Eq. (1), three for Eq. (4), one for the test against [P1], [P2] or
    [P3], and those of the chosen equation. *)
Lemma update_vulture_rng (env : environment) (cfg : config)
    (shapes : list nat) (N : nat) (s : Avoa.state) :
  avoa_shapes_ok shapes N s ->
  let c := Avoa.rng s in
  let Fs := Avoa.F (Avoa.eq_4 env cfg (Avoa.eq_1 env cfg s)) in
  let e := spec_branch Fs (P1 cfg) (P2 cfg) (P3 cfg)
             (random_uniform (rnd env) (S (S (S (S c)))) 0 1) in
  Avoa.rng (Avoa.update_vulture env cfg s) = (c + 5 + spec_draws e shapes)%nat.
Proof.
  intros Hs c Fs e.
  pose (s1 := Avoa.eq_4 env cfg (Avoa.eq_1 env cfg s)).
  pose (s2 := Avoa.with_rng (S (Avoa.rng s1)) s1).
  assert (Hc : Avoa.rng s2 = S (S (S (S (S c))))) by reflexivity.
  assert (HL : list_sum (map (@length R) (Avoa.Levy s2)) = list_sum shapes).
  { destruct Hs as (_ & _ & _ & _ & _ & _ & HL).
    apply tensors_ok_iff in HL. change (Avoa.Levy s2) with (Avoa.Levy s).
    now rewrite HL. }
  unfold e, Fs, Avoa.update_vulture. fold s1.
  unfold Avoa.probability_test. fold s2.
  rewrite !Rgeb_dec.
  change (random_uniform (rnd env) (Avoa.rng s1) 0 1)
    with (random_uniform (rnd env) (S (S (S (S c)))) 0 1).
  unfold spec_branch.
  destruct (Rge_dec (Rabs (Avoa.F s1)) 1);
    [|destruct (Rge_dec (Rabs (Avoa.F s1)) 0.5)];
    match goal with
    | |- context [Rge_dec ?p ?u] => destruct (Rge_dec p u)
    end; cbn [spec_draws].
  - change (Avoa.rng (Avoa.with_i _ (Avoa.eq_6 env s2))) with (S (Avoa.rng s2)).
    lia.
  - change (Avoa.rng (Avoa.with_i _ (Avoa.eq_8 env cfg s2)))
      with (S (S (Avoa.rng s2))).
    lia.
  - change (Avoa.rng (Avoa.with_i _ (Avoa.eq_10 env s2)))
      with (S (S (Avoa.rng s2))).
    lia.
  - change (Avoa.rng (Avoa.with_i _ (Avoa.eq_13 env s2)))
      with (S (S (Avoa.rng s2))).
    lia.
  - change (Avoa.rng (Avoa.with_i _ (Avoa.eq_16 s2))) with (Avoa.rng s2).
    lia.
  - pose proof (eq_18_slots_counter (rnd env) (Avoa.sigma env cfg) (beta cfg)
                  (Avoa.rng s2) (Avoa.Levy s2)) as Hk.
    unfold Avoa.eq_17, Avoa.eq_18.
    destruct (Avoa.eq_18_slots (rnd env) (Avoa.sigma env cfg)
                (beta cfg) (Avoa.rng s2) (Avoa.Levy s2)) as [ls k'].
    cbn [snd] in Hk.
    match goal with
    | |- Avoa.rng ?t = _ => change (Avoa.rng t) with k'
    end.
    rewrite Hk, Hc, HL. lia.
Qed.

(** C6.  The update of one vulture inside the loop ([gen <= T], with
    [0 < T], [0 <= w] and positive [L1], [L2], where every quantity of
    Eq. (1)-(4) is a number).  The factor [F] is that of Eq. (3)-(4); the
    equation is the one chosen by [|F|], [P1], [P2], [P3] and one uniform
    draw; on every element of the vulture the new value is the chosen
    equation's formula (for Eq. (16), where both denominators of Eq. (15)
    are not zero); the other vultures are not touched.  The draws are
    fresh: categorical draw [c], the three draws of [F] at [c+1 .. c+3],
    the test at [c+4], the equation's own from [c+5] on, and the counter
    is left behind all of them for the next vulture. *)
Theorem avoa_branch_dispatch (env : environment) (cfg : config)
    (shapes : list nat) (N : nat) (s : Avoa.state) (k j : nat) :
  random_source_ok (rnd env) ->
  avoa_shapes_ok shapes N s -> (Avoa.i s < N)%nat ->
  (k < length shapes)%nat -> (j < nth k shapes O)%nat ->
  (0 < generation_limit cfg)%Z ->
  (Z.of_nat (Avoa.gen s) <= generation_limit cfg)%Z ->
  0 <= w cfg -> 0 < L1 cfg -> 0 < L2 cfg ->
  let c := Avoa.rng s in
  let U n := random_uniform (rnd env) n 0 1 in
  let selected :=
    categorical (rnd env) c
      (map ln [(L1 cfg + L2 cfg) / L1 cfg; (L1 cfg + L2 cfg) / L2 cfg]) in
  let Fs := spec_F (w cfg) (INR (Avoa.gen s)) (IZR (generation_limit cfg))
              (U (S c)) (random_uniform (rnd env) (S (S c)) (-1) 1)
              (random_uniform (rnd env) (S (S (S c))) (-2) 2) in
  let e := spec_branch Fs (P1 cfg) (P2 cfg) (P3 cfg) (U (S (S (S (S c))))) in
  let p := elem (Avoa.P s) k (Avoa.i s) j in
  let bv0 := elem (Avoa.best_vultures s) k 0 j in
  let bv1 := elem (Avoa.best_vultures s) k 1 j in
  let s' := Avoa.update_vulture env cfg s in
  Avoa.F s' = Fs
  /\ ((e = Eq16 -> bv0 - p ^ 2 <> 0 /\ bv1 - p ^ 2 <> 0) ->
      elem (Avoa.P s') k (Avoa.i s) j
      = spec_update e (lb cfg) (ub cfg) Fs
          (elem (Avoa.best_vultures s) k selected j) p bv0 bv1
          (U (S (S (S (S (S c)))))) (U (S (S (S (S (S (S c)))))))
          (telem (Avoa.Levy s') k j))
  /\ (forall r, r <> Avoa.i s ->
        row r (nth k (Avoa.P s') []) = row r (nth k (Avoa.P s) []))
  /\ Avoa.i s' = S (Avoa.i s)
  /\ Avoa.rng s' = (c + 5 + spec_draws e shapes)%nat.
Proof.
  intros Hrnd Hs Hi Hk Hj _ _ _ _ _ c U selected Fs e p bv0 bv1 s'.
  destruct (update_vulture_elements env cfg shapes N s k j Hrnd Hs Hi Hk Hj)
    as (HF & He & Ho).
  split; [exact HF|]. split; [intros _; exact He|]. split; [exact Ho|].
  split; [apply (update_vulture_stays env cfg shapes N Hrnd s Hs Hi)|].
  exact (update_vulture_rng env cfg shapes N s Hs).
Qed.

(** ** Counting calls *)

Lemma count_app f l1 l2 : count f (l1 ++ l2) = (count f l1 + count f l2)%nat.
Proof. unfold count. now rewrite filter_app, length_app. Qed.

Lemma observed_app l1 l2 : observed (l1 ++ l2) = observed l1 ++ observed l2.
Proof. unfold observed. apply flat_map_app. Qed.

Lemma Rleb_INR_IZR n z : Rleb (INR n) (IZR z) = (Z.of_nat n <=? z)%Z.
Proof.
  rewrite INR_IZR_INZ. unfold Rleb.
  destruct (Rle_dec (IZR (Z.of_nat n)) (IZR z)) as [H|H];
    destruct (Z.leb_spec (Z.of_nat n) z) as [H'|H']; auto.
  - apply le_IZR in H. lia.
  - exfalso. apply H. now apply IZR_le.
Qed.

(** ** AVOA: the outer loop *)

Section AvoaLoop.

Variable env : environment.
Variable cfg : config.
Variable shapes : list nat.

Let N := Z.to_nat (population_size cfg).
Let T := IZR (generation_limit cfg).

Hypothesis rnd_ok : random_source_ok (rnd env).
Hypothesis N_ge_2 : (2 <= N)%nat.

Lemma sweep_stays n s :
  avoa_shapes_ok shapes N s -> (Avoa.i s + n <= N)%nat ->
  avoa_shapes_ok shapes N (Avoa.sweep env cfg n s)
  /\ avoa_same_control s (Avoa.sweep env cfg n s).
Proof.
  revert s; induction n as [|n IH]; intros s Hs Hi; simpl.
  - split; [exact Hs | unfold avoa_same_control; auto].
  - destruct (update_vulture_stays env cfg shapes N rnd_ok s Hs ltac:(lia))
      as (H1 & H2 & H3).
    destruct (IH _ H1 ltac:(lia)) as [H4 H5]. split; [exact H4|].
    unfold avoa_same_control in *. intuition congruence.
Qed.

Lemma gather_ok sz (p : slot) idxs :
  slot_ok N sz p -> length idxs = 2%nat ->
  (forall j, In j idxs -> (j < N)%nat) ->
  slot_ok 2 sz (gather p idxs).
Proof.
  intros [Hl Hr] Hlen Hin. split.
  - unfold gather. now rewrite length_map.
  - intros r Hr2. unfold gather.
    rewrite (nth_map_lt _ _ _ _ O) by lia.
    apply Hr. apply Hin. apply nth_In. lia.
Qed.

Lemma update_best_vultures_ok s :
  avoa_shapes_ok shapes N s -> length (Avoa.fitness_values s) = N ->
  exists s', Avoa.update_best_vultures s = Some s'
    /\ avoa_shapes_ok shapes N s'
    /\ Avoa.P s' = Avoa.P s /\ Avoa.trace s' = Avoa.trace s
    /\ Avoa.gen s' = Avoa.gen s
    /\ Avoa.fitness_values s' = Avoa.fitness_values s.
Proof.
  intros (HP & Hbv & HS & HA & HR & HD & HL) Hfv.
  unfold Avoa.update_best_vultures.
  assert (Hlen : length (firstn 2 (argsort (Avoa.fitness_values s))) = 2%nat).
  { rewrite length_firstn, argsort_length. lia. }
  rewrite Hlen. simpl. eexists. split; [reflexivity|].
  split; [|auto].
  unfold avoa_shapes_ok, population_ok in *. avoa_fields.
  refine (conj HP (conj _ (conj HS (conj HA (conj HR (conj HD HL)))))).
  apply (slots_ok_zip_with _ _ _ _ _ [] []);
    [exact (proj1 Hbv) | exact (proj1 HP) |].
  intros k Hk. eapply gather_ok; eauto.
  - apply (proj2 HP); assumption.
  - intros j Hj. apply argsort_bound in Hj. lia.
Qed.


Lemma count_hooks g best fv :
  count is_evaluation (loop_hooks cfg g best fv) = O
  /\ count is_status (loop_hooks cfg g best fv) = O
  /\ count is_forced_log (loop_hooks cfg g best fv) = O
  /\ count is_apply (loop_hooks cfg g best fv) = O.
Proof.
  unfold loop_hooks.
  destruct (0 <? fitness_log_frequency cfg)%Z;
    destruct ((0 <? best_individual_save_frequency cfg)%Z
              && (Z.of_nat g mod best_individual_save_frequency cfg =? 0)%Z);
    repeat split; reflexivity.
Qed.

(** The first part of a pass of the outer loop. *)
Lemma start_of_generation_ok s :
  avoa_shapes_ok shapes N s ->
  let fv := update_population_fitness env (Avoa.P s) N in
  exists s5,
    Avoa.start_of_generation env cfg s = Some s5
    /\ avoa_shapes_ok shapes N s5
    /\ Avoa.P s5 = Avoa.P s
    /\ Avoa.best_vultures s5
       = zip_with (fun (_ : slot) p => gather p (firstn 2 (argsort fv)))
                  (Avoa.best_vultures s) (Avoa.P s)
    /\ Avoa.gen s5 = Avoa.gen s
    /\ Avoa.best_fitness s5 = reduce_min fv
    /\ Avoa.fitness_values s5 = fv
    /\ Avoa.trace s5
       = Avoa.trace s ++ UpdatePopulationFitness fv
           :: loop_hooks cfg (Avoa.gen s) (reduce_min fv) fv
           ++ [PrintTrainingStatus (Avoa.gen s) (reduce_min fv)].
Proof.
  intros Hs fv. unfold Avoa.start_of_generation. fold N. fold fv.
  set (s1 := Avoa.emit (UpdatePopulationFitness fv)
               (Avoa.with_fitness_values fv s)).
  assert (Hs1 : avoa_shapes_ok shapes N s1) by exact Hs.
  assert (Hfv : length (Avoa.fitness_values s1) = N)
    by apply update_population_fitness_length.
  destruct (update_best_vultures_ok s1 Hs1 Hfv)
    as (s2 & E & Hs2 & HP2 & Htr2 & Hg2 & Hfv2).
  assert (Hbv2 : Avoa.best_vultures s2
                 = zip_with (fun (_ : slot) p => gather p (firstn 2 (argsort fv)))
                            (Avoa.best_vultures s) (Avoa.P s)).
  { unfold Avoa.update_best_vultures in E.
    destruct (length (firstn 2 (argsort (Avoa.fitness_values s1))) =? 2)%nat;
      [|discriminate].
    injection E as <-. reflexivity. }
  rewrite E.
  set (s3 := Avoa.with_best_fitness (reduce_min (Avoa.fitness_values s2)) s2).
  set (s4 := Avoa.save_best_in_loop cfg (Avoa.log_fitness cfg false s3)).
  assert (H4 : avoa_shapes_ok shapes N s4 /\ Avoa.P s4 = Avoa.P s
               /\ Avoa.best_vultures s4 = Avoa.best_vultures s2
               /\ Avoa.gen s4 = Avoa.gen s
               /\ Avoa.best_fitness s4 = reduce_min fv
               /\ Avoa.fitness_values s4 = fv
               /\ Avoa.trace s4
                  = Avoa.trace s ++ UpdatePopulationFitness fv
                      :: loop_hooks cfg (Avoa.gen s) (reduce_min fv) fv).
  { unfold s4, Avoa.save_best_in_loop, Avoa.log_fitness, loop_hooks.
    assert (E3 : Avoa.fitness_values s3 = fv) by (unfold s3; simpl; exact Hfv2).
    assert (Eb : Avoa.best_fitness s3 = reduce_min fv)
      by (unfold s3; simpl; now rewrite Hfv2).
    assert (Eg : Avoa.gen s3 = Avoa.gen s) by (unfold s3; simpl; exact Hg2).
    assert (Et : Avoa.trace s3 = Avoa.trace s ++ [UpdatePopulationFitness fv])
      by (unfold s3; simpl; exact Htr2).
    assert (EP : Avoa.P s3 = Avoa.P s) by (unfold s3; simpl; exact HP2).
    assert (Hs3 : avoa_shapes_ok shapes N s3) by exact Hs2.
    destruct (0 <? fitness_log_frequency cfg)%Z; avoa_fields;
      rewrite ?Eg;
      destruct ((0 <? best_individual_save_frequency cfg)%Z
                && (Z.of_nat (Avoa.gen s) mod best_individual_save_frequency cfg =? 0)%Z);
      avoa_fields; (split; [exact Hs3|]);
      rewrite ?Et, ?Eb, ?E3, ?Eg, ?EP, <- ?app_assoc; simpl;
      repeat split; auto. }
  destruct H4 as (Hs4 & HP4 & Hbv4 & Hg4 & Hb4 & Hfv4 & Ht4).
  eexists. split; [reflexivity|].
  split; [exact Hs4|]. avoa_fields.
  split; [exact HP4|]. split; [congruence|]. split; [exact Hg4|].
  split; [exact Hb4|]. split; [exact Hfv4|].
  rewrite Ht4, Hg4, Hb4, <- app_assoc. reflexivity.
Qed.

(** One pass of the outer loop. *)
Lemma generation_cases s :
  avoa_shapes_ok shapes N s ->
  let fv := update_population_fitness env (Avoa.P s) N in
  exists s',
    (if Rlt_dec (reduce_min fv) (fitness_limit cfg)
     then Avoa.generation env cfg s = Avoa.Break s'
          /\ Avoa.gen s' = Avoa.gen s /\ Avoa.P s' = Avoa.P s
     else Avoa.generation env cfg s = Avoa.Next s'
          /\ Avoa.gen s' = S (Avoa.gen s))
    /\ avoa_shapes_ok shapes N s'
    /\ Avoa.best_fitness s' = reduce_min fv
    /\ Avoa.fitness_values s' = fv
    /\ Avoa.trace s'
       = Avoa.trace s ++ UpdatePopulationFitness fv
           :: loop_hooks cfg (Avoa.gen s) (reduce_min fv) fv
           ++ [PrintTrainingStatus (Avoa.gen s) (reduce_min fv)].
Proof.
  intros Hs fv.
  destruct (start_of_generation_ok s Hs)
    as (s5 & E5 & Hs4 & HP5 & _ & Hg4 & Hb5 & Hfv4 & Ht5).
  fold fv in Hb5, Hfv4, Ht5.
  unfold Avoa.generation. rewrite E5.
  unfold Rltb. rewrite Hb5.
  destruct (Rlt_dec (reduce_min fv) (fitness_limit cfg)).
  - exists s5. split; [repeat split; auto|]. split; [exact Hs4|]. auto.
  - assert (Hs5 : avoa_shapes_ok shapes N (Avoa.with_i O s5)) by exact Hs4.
    destruct (sweep_stays N (Avoa.with_i O s5) Hs5 ltac:(simpl; lia))
      as [Hs6 (Ca & Cb & Cc & Cd & Ce)].
    eexists. split; [split; [reflexivity|]|].
    + avoa_fields. f_equal. etransitivity; [exact Cb|]. exact Hg4.
    + split; [exact Hs6|]. avoa_fields.
      split; [etransitivity; [exact Cc|exact Hb5]|].
      split; [etransitivity; [exact Cd|exact Hfv4]|].
      etransitivity; [exact Ca|exact Ht5].
Qed.

Lemma count_pass f g best fv :
  count f (UpdatePopulationFitness fv
             :: loop_hooks cfg g best fv ++ [PrintTrainingStatus g best])
  = (count f [UpdatePopulationFitness fv] + count f (loop_hooks cfg g best fv)
     + count f [PrintTrainingStatus g best])%nat.
Proof.
  change (UpdatePopulationFitness fv
            :: loop_hooks cfg g best fv ++ [PrintTrainingStatus g best])
    with ([UpdatePopulationFitness fv]
            ++ loop_hooks cfg g best fv ++ [PrintTrainingStatus g best]).
  rewrite !count_app. apply Nat.add_assoc.
Qed.

(** The outer loop ends, given fuel for the generations that are left. *)
Lemma avoa_loop_runs fuel s :
  avoa_at_head cfg shapes s ->
  (Z.to_nat (generation_limit cfg + 1) - Avoa.gen s < fuel)%nat ->
  exists s', Avoa.loop env cfg fuel s = Some (Completed s')
             /\ avoa_at_exit cfg shapes s'.
Proof.
  revert s; induction fuel as [|fuel IH]; intros s Hhead Hfuel; [lia|].
  destruct Hhead as (Hs & He & Hst & Hfl & Hap & Hg).
  simpl. rewrite Rleb_INR_IZR.
  destruct (Z.leb_spec (Z.of_nat (Avoa.gen s)) (generation_limit cfg)) as [Hle|Hgt].
  - destruct (generation_cases s Hs) as (s' & Hcase & Hs' & Hb & Hfv & Htr).
    destruct (count_hooks (Avoa.gen s)
                (reduce_min (update_population_fitness env (Avoa.P s) N))
                (update_population_fitness env (Avoa.P s) N))
      as (C1 & C2 & C3 & C4).
    assert (Hcounts :
      count is_evaluation (Avoa.trace s') = S (Avoa.gen s)
      /\ count is_status (Avoa.trace s') = S (Avoa.gen s)
      /\ count is_forced_log (Avoa.trace s') = O
      /\ count is_apply (Avoa.trace s') = O).
    { rewrite Htr, !count_app, !count_pass, C1, C2, C3, C4, He, Hst, Hfl, Hap.
      unfold count; simpl. repeat split; lia. }
    destruct Hcounts as (D1 & D2 & D3 & D4).
    destruct (Rlt_dec _ _) as [Hlt|Hnlt].
    + destruct Hcase as (-> & Hg' & _). exists s'. split; [reflexivity|].
      unfold avoa_at_exit. fold N. refine (conj Hs' (conj D3 (conj D4 _))).
      right. rewrite Hg', Hb. repeat split; auto. lia.
    + destruct Hcase as (-> & Hg').
      apply IH.
      * unfold avoa_at_head. fold N. rewrite Hg'.
        refine (conj Hs' (conj D1 (conj D2 (conj D3 (conj D4 _))))). lia.
      * lia.
  - exists s. split; [reflexivity|].
    unfold avoa_at_exit. fold N. refine (conj Hs (conj Hfl (conj Hap _))).
    left. repeat split; auto. lia.
Qed.

Lemma zeros_length n : length (Avoa.zeros n) = n.
Proof. apply repeat_length. Qed.

Lemma tensors_ok_zeros (weights : candidate) :
  tensors_ok (shapes_of weights)
    (map (fun wt : tensor => Avoa.zeros (length wt)) weights).
Proof.
  apply tensors_ok_iff. unfold shapes_of. rewrite map_map.
  apply map_ext. intros a. apply zeros_length.
Qed.

Lemma slots_ok_zeros (weights : candidate) :
  slots_ok 2 (shapes_of weights)
    (map (fun wt : tensor => [Avoa.zeros (length wt); Avoa.zeros (length wt)])
         weights).
Proof.
  unfold shapes_of. split.
  - now rewrite !length_map.
  - intros k Hk. rewrite length_map in Hk.
    unfold candidate, slot, tensor in *.
    rewrite (nth_map_lt _ _ _ _ []) by exact Hk.
    rewrite (nth_map_lt _ _ _ _ []) by exact Hk.
    split; [reflexivity|].
    intros [|[|r]] Hr; simpl; try lia; apply zeros_length.
Qed.

Lemma avoa_finish_calls s :
  Avoa.trace (Avoa.finish env cfg s)
  = Avoa.trace s
    ++ final_calls env cfg (Avoa.fitness_values s) (Avoa.P s)
         (Avoa.best_fitness s)
  /\ Avoa.P (Avoa.finish env cfg s) = Avoa.P s
  /\ Avoa.gen (Avoa.finish env cfg s) = Avoa.gen s
  /\ Avoa.best_fitness (Avoa.finish env cfg s) = Avoa.best_fitness s.
Proof.
  unfold Avoa.finish, Avoa.log_fitness, final_calls. fold N.
  destruct (0 <? fitness_log_frequency cfg)%Z;
    destruct (0 <? best_individual_save_frequency cfg)%Z;
    avoa_fields; rewrite <- ?app_assoc; simpl; auto.
Qed.

Hypothesis weights_nonempty : model_weights cfg <> [].
Hypothesis created_ok :
  population_ok (shapes_of (model_weights cfg)) N (created_population env).
Hypothesis shapes_are : shapes = shapes_of (model_weights cfg).
Hypothesis sigma_ok : Avoa.calculate_sigma env cfg <> None.

Lemma avoa_init_head :
  exists s0, Avoa.init env cfg = Some s0 /\ avoa_at_head cfg shapes s0
             /\ Avoa.trace s0 = [] /\ Avoa.gen s0 = O
             /\ Avoa.P s0 = created_population env.
Proof.
  assert (Hc : create_population env (model_weights cfg) (population_size cfg)
                 (transfer_learning cfg) = Some (created_population env)).
  { unfold create_population.
    destruct (Z.leb_spec (population_size cfg) 0) as [H|H];
      [unfold N in N_ge_2; lia|].
    destruct (model_weights cfg); [congruence|reflexivity]. }
  unfold Avoa.init. rewrite Hc.
  destruct (Avoa.calculate_sigma env cfg) as [sg|]; [|congruence].
  eexists. split; [reflexivity|].
  split; [|auto].
  unfold avoa_at_head. fold N. rewrite shapes_are.
  split; [|simpl; repeat split; auto; lia].
  unfold avoa_shapes_ok. avoa_fields.
  pose proof (slots_ok_zeros (model_weights cfg)) as Hz2.
  pose proof (tensors_ok_zeros (model_weights cfg)) as Hz1.
  exact (conj created_ok (conj Hz2 (conj Hz2 (conj Hz2 (conj Hz1 (conj Hz1 Hz1)))))).
Qed.

(** Every run of [avoa] on a well-shaped population ends, in a state reached
    from the loop's last state by [finish]. *)
Lemma avoa_runs fuel :
  (Z.to_nat (generation_limit cfg + 1) < fuel)%nat ->
  exists s', Avoa.avoa env cfg fuel = Some (Completed (Avoa.finish env cfg s'))
             /\ avoa_at_exit cfg shapes s'.
Proof.
  intros Hfuel.
  destruct avoa_init_head as (s0 & E0 & Hhead & _ & Hg0 & _).
  destruct (avoa_loop_runs fuel s0 Hhead ltac:(lia)) as (s' & El & Hexit).
  exists s'. unfold Avoa.avoa. rewrite E0, El. auto.
Qed.

End AvoaLoop.

(** ** STBO: shapes *)

Lemma reshape_length n sz flat : length (reshape n sz flat) = n.
Proof. revert flat; induction n; intros; simpl; auto. Qed.

Lemma reshape_ok n sz flat :
  length flat = (n * sz)%nat -> slot_ok n sz (reshape n sz flat).
Proof.
  intros H. split; [apply reshape_length|].
  revert flat H; induction n as [|n IH]; intros flat H r Hr; [lia|].
  simpl. destruct r as [|r].
  - rewrite length_firstn. simpl in H. lia.
  - apply IH; [|lia]. rewrite length_skipn. simpl in H. lia.
Qed.

Lemma flatten_reshape n sz flat :
  length flat = (n * sz)%nat -> flatten (reshape n sz flat) = flat.
Proof.
  unfold flatten. revert flat; induction n as [|n IH]; intros flat H; simpl.
  - destruct flat; [reflexivity|discriminate].
  - rewrite IH; [apply firstn_skipn|].
    rewrite length_skipn. simpl in H. lia.
Qed.

Lemma slot_ok_size n sz x : slot_ok n sz x -> Stbo.size x = (n * sz)%nat.
Proof.
  unfold Stbo.size, flatten. revert n; induction x as [|r t IH]; intros n [Hl Hr].
  - simpl in *. subst. reflexivity.
  - simpl in Hl. destruct n as [|n]; [discriminate|]. injection Hl as Hl.
    simpl. rewrite length_app. rewrite (IH n).
    + specialize (Hr O ltac:(lia)). simpl in Hr. lia.
    + split; [exact Hl|]. intros k Hk. apply (Hr (S k)). lia.
Qed.

Lemma slot_ok_row_size n sz x :
  slot_ok n sz x -> (0 < n)%nat -> Stbo.row_size x = sz.
Proof. intros [_ Hr] Hn. now apply Hr. Qed.

Lemma slot_ok_zero sz x : length x = O -> slot_ok O sz x.
Proof. intros H. split; [exact H|]. intros r Hr. lia. Qed.

Lemma tabulate_like_ok n sz x f :
  slot_ok n sz x -> slot_ok n sz (Stbo.tabulate_like x f).
Proof.
  intros Hx. unfold Stbo.tabulate_like.
  pose proof (slot_ok_size _ _ _ Hx) as Hsz.
  destruct Hx as [Hl Hr]. rewrite Hl.
  destruct n as [|n].
  - apply slot_ok_zero. apply reshape_length.
  - rewrite (slot_ok_row_size (S n) sz x) by (try split; auto; lia).
    apply reshape_ok. now rewrite length_map, length_seq.
Qed.

Lemma tensor_scatter_nd_update_length x idx upd :
  length (Stbo.tensor_scatter_nd_update x idx upd) = length x.
Proof.
  unfold Stbo.tensor_scatter_nd_update.
  revert x; induction (combine idx upd) as [|[i u] t IH]; intros x; simpl; auto.
  rewrite IH. apply set_row_length.
Qed.

Lemma eq_7_and_8_slot_ok rs k g T SIv n sz x :
  slot_ok n sz x -> slot_ok n sz (Stbo.eq_7_and_8_slot rs k g T SIv x).
Proof.
  intros Hx. unfold Stbo.eq_7_and_8_slot.
  pose proof (slot_ok_size _ _ _ Hx) as Hsz.
  destruct Hx as [Hl Hr]. rewrite Hl.
  destruct n as [|n].
  - apply slot_ok_zero. apply reshape_length.
  - rewrite (slot_ok_row_size (S n) sz x) by (try split; auto; lia).
    apply reshape_ok. rewrite tensor_scatter_nd_update_length. exact Hsz.
Qed.

Lemma assign_proposals_ok body draws shapes n :
  (forall k sz x, slot_ok n sz x -> slot_ok n sz (body k x)) ->
  forall k Xs XPs,
    slots_ok n shapes Xs -> length XPs = length Xs ->
    slots_ok n shapes (fst (Stbo.assign_proposals body draws k Xs XPs)).
Proof.
  intros Hbody k Xs. revert k shapes.
  induction Xs as [|x Xt IH]; intros k shapes XPs [Hl Hk] Hlen.
  - destruct XPs; [|discriminate]. simpl. split; auto. 
  - destruct XPs as [|xp XPt]; [discriminate|].
    destruct shapes as [|sz sh]; [discriminate|].
    simpl. specialize (IH (k + draws x)%nat sh XPt).
    destruct (Stbo.assign_proposals body draws (k + draws x) Xt XPt) as [rest k'].
    simpl in *.
    assert (Hrest : slots_ok n sh rest).
    { apply IH; [|lia]. split; [lia|]. intros j Hj. apply (Hk (S j)). lia. }
    split; [destruct Hrest; simpl; lia|].
    intros [|j] Hj; simpl in Hj.
    + apply Hbody. apply (Hk O). lia.
    + apply Hrest. lia.
Qed.

Lemma where_rows_ok n sz improved xp x :
  length improved = n -> slot_ok n sz xp -> slot_ok n sz x ->
  slot_ok n sz (Stbo.where_rows improved xp x).
Proof.
  intros Hi [Hlp Hrp] [Hlx Hrx]. split.
  - apply where_rows_length; auto.
  - intros r Hr. rewrite nth_where_rows by lia.
    destruct (nth r improved false); auto.
Qed.

Lemma slots_ok_rows n shapes Xs : slots_ok n shapes Xs -> rows_ok n Xs.
Proof.
  intros [Hl Hk]. unfold rows_ok. apply Forall_forall. intros x Hx.
  destruct (In_nth _ _ [] Hx) as (k & Hkl & <-).
  apply Hk. unfold slot, tensor in *. lia.
Qed.

(** ** [reduce_min] and [argmin] *)

Lemma fold_min_le t x : fold_left Rmin t x <= x.
Proof.
  revert x; induction t as [|a t IH]; intros x; simpl; [lra|].
  eapply Rle_trans; [apply IH|apply Rmin_l].
Qed.

Lemma fold_min_le_in t x y : In y t -> fold_left Rmin t x <= y.
Proof.
  revert x; induction t as [|a t IH]; intros x H; simpl; [contradiction|].
  destruct H as [<-|H].
  - eapply Rle_trans; [apply fold_min_le|apply Rmin_r].
  - now apply IH.
Qed.

Lemma fold_min_in t x : In (fold_left Rmin t x) (x :: t).
Proof.
  revert x; induction t as [|a t IH]; intros x; simpl; [auto|].
  destruct (IH (Rmin x a)) as [H|H]; [|auto].
  rewrite <- H. unfold Rmin. destruct (Rle_dec x a); auto.
Qed.

Lemma reduce_min_le l x : In x l -> reduce_min l <= x.
Proof.
  destruct l as [|a t]; [contradiction|]. intros [<-|H]; simpl.
  - apply fold_min_le.
  - now apply fold_min_le_in.
Qed.

Lemma reduce_min_in l : l <> [] -> In (reduce_min l) l.
Proof.
  destruct l as [|a t]; [congruence|]. intros _. apply fold_min_in.
Qed.

Lemma reduce_min_mono l' l :
  length l' = length l ->
  (forall i, (i < length l)%nat -> nth i l' 0 <= nth i l 0) ->
  reduce_min l' <= reduce_min l.
Proof.
  intros Hlen Hle. destruct l as [|a t].
  - destruct l'; [lra|discriminate].
  - destruct (In_nth _ _ 0 (reduce_min_in (a :: t) ltac:(discriminate)))
      as (i & Hi & E).
    rewrite <- E. eapply Rle_trans; [|apply Hle; exact Hi].
    apply reduce_min_le. apply nth_In. lia.
Qed.

Lemma argmin_from_spec l best bv k :
  let r := argmin_from best bv k l in
  (r = best /\ fold_left Rmin l bv = bv)
  \/ ((k <= r < k + length l)%nat /\ nth (r - k) l 0 = fold_left Rmin l bv).
Proof.
  revert best bv k; induction l as [|x t IH]; intros best bv k; simpl.
  - left; auto.
  - destruct (Rlt_dec x bv) as [Hlt|Hge].
    + replace (Rmin bv x) with x by (unfold Rmin; destruct (Rle_dec bv x); lra).
      destruct (IH k x (S k)) as [[E1 E2]|[E1 E2]].
      * right. rewrite E1, E2. split; [lia|]. now rewrite Nat.sub_diag.
      * right. split; [lia|].
        replace (argmin_from k x (S k) t - k)%nat
          with (S (argmin_from k x (S k) t - S k)) by lia.
        exact E2.
    + replace (Rmin bv x) with bv by (unfold Rmin; destruct (Rle_dec bv x); lra).
      destruct (IH best bv (S k)) as [[E1 E2]|[E1 E2]].
      * left. auto.
      * right. split; [lia|].
        replace (argmin_from best bv (S k) t - k)%nat
          with (S (argmin_from best bv (S k) t - S k)) by lia.
        exact E2.
Qed.

Lemma argmin_spec l :
  l <> [] -> (argmin l < length l)%nat /\ nth (argmin l) l 0 = reduce_min l.
Proof.
  destruct l as [|x t]; [congruence|]. intros _. simpl.
  destruct (argmin_from_spec t O x 1) as [[E1 E2]|[E1 E2]].
  - rewrite E1, E2. split; [lia|reflexivity].
  - split; [lia|].
    destruct (argmin_from 0 x 1 t) as [|r]; [lia|].
    simpl in E2. rewrite Nat.sub_0_r in E2. exact E2.
Qed.

(** ** STBO: the phases *)

Ltac stbo_fields :=
  unfold Stbo.with_X, Stbo.with_F, Stbo.with_SI, Stbo.with_XP, Stbo.with_FP,
    Stbo.with_best_fitness, Stbo.with_gen, Stbo.with_rng, Stbo.emit;
  cbn [Stbo.X Stbo.F Stbo.SI Stbo.XP Stbo.FP Stbo.best_fitness Stbo.gen
       Stbo.rng Stbo.trace fst snd].

Ltac split6 := refine (conj _ (conj _ (conj _ (conj _ (conj _ _))))).

Section StboLoop.

Variable env : environment.
Variable cfg : config.
Variable shapes : list nat.

Let N := Z.to_nat (population_size cfg).

Lemma stbo_proposed_trans s1 s2 s3 :
  Stbo.XP s2 = Stbo.XP s1 ->
  stbo_proposed shapes N s1 s2 -> stbo_proposed shapes N s2 s3 ->
  stbo_proposed shapes N s1 s3.
Proof.
  unfold stbo_proposed. intros E (A1 & A2 & A3 & A4 & A5 & A6)
    (B1 & B2 & B3 & B4 & B5 & B6).
  split6; try congruence.
  intros HX HXP. apply B6; [now rewrite A1 | now rewrite E].
Qed.

Lemma update_SI_proposed n s :
  stbo_proposed shapes N s (fold_left (Stbo.update_SI_step (rnd env)) (seq 0 n) s)
  /\ Stbo.XP (fold_left (Stbo.update_SI_step (rnd env)) (seq 0 n) s) = Stbo.XP s.
Proof.
  generalize (seq 0 n). intros l. revert s.
  induction l as [|i l IH]; intros s; simpl.
  - unfold stbo_proposed. split; [split6|]; auto.
  - destruct (IH (Stbo.update_SI_step (rnd env) s i)) as [(A1 & A2 & A3 & A4 & A5 & A6) E].
    split; [|exact E]. unfold stbo_proposed. split6; auto.
Qed.

Lemma assign_proposed body draws s :
  (forall k n sz x, slot_ok n sz x -> slot_ok n sz (body k x)) ->
  let r := Stbo.assign_proposals body draws (Stbo.rng s) (Stbo.X s) (Stbo.XP s) in
  stbo_proposed shapes N s (Stbo.with_rng (snd r) (Stbo.with_XP (fst r) s)).
Proof.
  intros Hbody r. unfold stbo_proposed. stbo_fields. split6; auto.
  intros HX HXP. unfold r.
  apply assign_proposals_ok;
    [intros k sz x; apply Hbody | exact HX |].
  destruct HX as [-> _], HXP as [-> _]. reflexivity.
Qed.

Lemma eq_5_proposed s : stbo_proposed shapes N s (Stbo.eq_5 env s).
Proof.
  unfold Stbo.eq_5.
  pose proof (assign_proposed
                (fun k x => Stbo.eq_5_slot (rnd env) k (Stbo.SI s) x)
                (fun x => (2 * Stbo.size x)%nat) s) as H.
  destruct (Stbo.assign_proposals _ _ (Stbo.rng s) (Stbo.X s) (Stbo.XP s)).
  apply H. intros k0 n0 sz0 x0 Hx. now apply tabulate_like_ok.
Qed.

Lemma eq_7_and_8_proposed s : stbo_proposed shapes N s (Stbo.eq_7_and_8 env cfg s).
Proof.
  unfold Stbo.eq_7_and_8.
  pose proof (assign_proposed
                (fun k x => Stbo.eq_7_and_8_slot (rnd env) k (Stbo.gen s)
                              (IZR (generation_limit cfg)) (Stbo.SI s) x)
                (fun _ => 1%nat) s) as H.
  destruct (Stbo.assign_proposals _ _ (Stbo.rng s) (Stbo.X s) (Stbo.XP s)).
  apply H. intros k0 n0 sz0 x0 Hx. now apply eq_7_and_8_slot_ok.
Qed.

Lemma eq_10_proposed s : stbo_proposed shapes N s (Stbo.eq_10 env cfg s).
Proof.
  unfold Stbo.eq_10.
  pose proof (assign_proposed
                (fun k x => Stbo.eq_10_slot (rnd env) k (lb cfg) (ub cfg)
                              (Stbo.gen s) x)
                Stbo.size s) as H.
  destruct (Stbo.assign_proposals _ _ (Stbo.rng s) (Stbo.X s) (Stbo.XP s)).
  apply H. intros k0 n0 sz0 x0 Hx. now apply tabulate_like_ok.
Qed.

Lemma in_where_rows (improved : list bool) (a b : list R) y :
  In y (Stbo.where_rows improved a b) -> In y a \/ In y b.
Proof.
  unfold Stbo.where_rows. revert a b.
  induction improved as [|c t IH]; intros [|x a] [|z b]; simpl; try tauto.
  intros [<-|H].
  - destruct c; auto.
  - destruct (IH _ _ H); auto.
Qed.

(** The accept-if-improved step after a proposal step. *)
Lemma accept_step s0 s :
  stbo_in_step env cfg shapes s0 -> stbo_proposed shapes N s0 s ->
  let s' := Stbo.update_improved_positions env cfg s in
  stbo_in_step env cfg shapes s'
  /\ (forall i, (i < N)%nat -> nth i (Stbo.F s') 0 <= nth i (Stbo.F s0) 0)
  /\ length (Stbo.F s') = N
  /\ (exists FPv, Stbo.trace s'
                  = Stbo.trace s0 ++ [UpdatePopulationFitness (Stbo.F s0);
                                      UpdatePopulationFitness FPv])
  /\ Stbo.gen s' = Stbo.gen s0
  /\ Stbo.best_fitness s' = Stbo.best_fitness s0.
Proof.
  intros (HX & HXP0 & HF & Hincl & Hall) (EX & EF & Etr & Eg & Eb & HXP) s'.
  fold N in HX, HXP0, HF.
  specialize (HXP HX HXP0).
  destruct (improved_positions_facts env cfg s)
    as (FX & FF & FXP & _ & _ & Fg & _ & Fb & Ftr).
  fold N in FX, FF, Ftr. fold s' in FX, FF, FXP, Fg, Fb, Ftr.
  rewrite EX in *.
  set (Fv := update_population_fitness env (Stbo.X s0) N) in *.
  set (FPv := update_population_fitness env (Stbo.XP s) N) in *.
  set (improved := zip_with Rltb FPv Fv) in *.
  assert (LF : length Fv = N) by apply update_population_fitness_length.
  assert (LFP : length FPv = N) by apply update_population_fitness_length.
  assert (Limp : length improved = N)
    by (unfold improved; rewrite zip_with_length; lia).
  assert (LF' : length (Stbo.F s') = N)
    by (rewrite FF; apply where_rows_length; auto).
  assert (Hrows : rows_ok N (Stbo.X s0) /\ rows_ok N (Stbo.XP s)
                  /\ length (Stbo.XP s) = length (Stbo.X s0)).
  { repeat split; try (eapply slots_ok_rows; eassumption).
    destruct HX as [-> _], HXP as [-> _]. reflexivity. }
  destruct Hrows as (R1 & R2 & R3).
  assert (Hpt : forall i, (i < N)%nat ->
            nth i (Stbo.F s') 0 = Rmin (nth i Fv 0) (nth i FPv 0)
            /\ nth i (Stbo.F s') 0
               = model_fitness_fn env (individual (Stbo.X s') i)).
  { intros i Hi.
    destruct (accept_pointwise env cfg s i) as (_ & P2 & P3); fold N; auto.
    - now rewrite EX.
    - now rewrite EX.
    - fold s' in P2, P3. split; [|exact P3]. rewrite P2.
      unfold Fv, FPv. rewrite !nth_update_population_fitness by exact Hi.
      now rewrite EX. }
  assert (HX' : population_ok shapes N (Stbo.X s')).
  { rewrite FX. apply (slots_ok_zip_with _ _ _ _ _ [] []);
      [exact (proj1 HXP) | exact (proj1 HX) |].
    intros k Hk. apply where_rows_ok; auto.
    - apply (proj2 HXP); exact Hk.
    - apply (proj2 HX); exact Hk. }
  assert (Hsync : Stbo.F s' = update_population_fitness env (Stbo.X s') N).
  { apply (nth_ext _ _ 0 0).
    - now rewrite LF', update_population_fitness_length.
    - intros i Hi. rewrite LF' in Hi.
      rewrite nth_update_population_fitness by exact Hi.
      now apply Hpt. }
  assert (Hobs : observed (Stbo.trace s')
                 = observed (Stbo.trace s0) ++ Fv ++ FPv).
  { rewrite Ftr, Etr, observed_app. simpl. now rewrite app_nil_r. }
  split; [|split; [|split; [exact LF'|split; [|split; congruence]]]].
  - unfold stbo_in_step. fold N. refine (conj HX' (conj _ (conj Hsync (conj _ _)))).
    + now rewrite FXP.
    + intros y Hy. rewrite Hobs. rewrite FF in Hy.
      apply in_or_app. right. apply in_or_app.
      destruct (in_where_rows _ _ _ _ Hy); auto.
    + rewrite Hobs. apply Forall_app. split; [|apply Forall_app; split].
      * apply Forall_forall. intros v Hv.
        rewrite Forall_forall in Hall. destruct (Hall v Hv) as (y & Hy & Hle).
        rewrite HF in Hy. fold Fv in Hy.
        destruct (In_nth _ _ 0 Hy) as (i & Hi & <-).
        exists (nth i (Stbo.F s') 0). split; [apply nth_In; lia|].
        destruct (Hpt i ltac:(lia)) as [-> _].
        eapply Rle_trans; [apply Rmin_l|exact Hle].
      * apply Forall_forall. intros v Hv.
        destruct (In_nth _ _ 0 Hv) as (i & Hi & <-).
        exists (nth i (Stbo.F s') 0). split; [apply nth_In; lia|].
        destruct (Hpt i ltac:(lia)) as [-> _]. apply Rmin_l.
      * apply Forall_forall. intros v Hv.
        destruct (In_nth _ _ 0 Hv) as (i & Hi & <-).
        exists (nth i (Stbo.F s') 0). split; [apply nth_In; lia|].
        destruct (Hpt i ltac:(lia)) as [-> _]. apply Rmin_r.
  - intros i Hi. destruct (Hpt i Hi) as [-> _]. rewrite HF. fold Fv. apply Rmin_l.
  - exists FPv. rewrite Ftr, Etr, HF. reflexivity.
Qed.

Lemma observed_hooks g best fv :
  observed (loop_hooks cfg g best fv ++ [PrintTrainingStatus g best]) = [].
Proof.
  unfold loop_hooks.
  destruct (0 <? fitness_log_frequency cfg)%Z;
    destruct ((0 <? best_individual_save_frequency cfg)%Z
              && (Z.of_nat g mod best_individual_save_frequency cfg =? 0)%Z);
    reflexivity.
Qed.

Lemma count_hooks_status f g best fv :
  count f (loop_hooks cfg g best fv ++ [PrintTrainingStatus g best])
  = (count f (loop_hooks cfg g best fv) + count f [PrintTrainingStatus g best])%nat.
Proof. apply count_app. Qed.

(** The part of a pass after the three phases. *)
Lemma stbo_end_of_generation s3 :
  let best := reduce_min (Stbo.F s3) in
  let s' := Stbo.end_of_generation cfg s3 in
  Stbo.X s' = Stbo.X s3 /\ Stbo.XP s' = Stbo.XP s3 /\ Stbo.F s' = Stbo.F s3
  /\ Stbo.best_fitness s' = best /\ Stbo.gen s' = S (Stbo.gen s3)
  /\ Stbo.trace s'
     = Stbo.trace s3 ++ loop_hooks cfg (Stbo.gen s3) best (Stbo.F s3)
         ++ [PrintTrainingStatus (Stbo.gen s3) best].
Proof.
  intros best s'. unfold s', Stbo.end_of_generation.
  unfold Stbo.save_best_in_loop, Stbo.log_fitness, loop_hooks. fold best.
  destruct (0 <? fitness_log_frequency cfg)%Z; stbo_fields;
    destruct ((0 <? best_individual_save_frequency cfg)%Z
              && (Z.of_nat (Stbo.gen s3) mod best_individual_save_frequency cfg =? 0)%Z);
    stbo_fields; rewrite <- ?app_assoc; cbn [app]; repeat split; reflexivity.
Qed.

(** The three phases of a pass. *)
Lemma stbo_phases s :
  stbo_in_step env cfg shapes s ->
  let s3 := Stbo.phase_3 env cfg (Stbo.phase_2 env cfg (Stbo.phase_1 env cfg s)) in
  stbo_in_step env cfg shapes s3
  /\ (forall i, (i < N)%nat -> nth i (Stbo.F s3) 0 <= nth i (Stbo.F s) 0)
  /\ length (Stbo.F s3) = N
  /\ (exists evs, Stbo.trace s3 = Stbo.trace s ++ evs
                  /\ count is_evaluation evs = 6%nat
                  /\ count is_status evs = O
                  /\ count is_forced_log evs = O
                  /\ count is_apply evs = O)
  /\ Stbo.gen s3 = Stbo.gen s
  /\ Stbo.best_fitness s3 = Stbo.best_fitness s.
Proof.
  intros H0.
  assert (P1 : stbo_proposed shapes N s
                 (Stbo.eq_5 env (Stbo.update_SI (rnd env) N s))).
  { destruct (update_SI_proposed N s) as [Ha Hb].
    eapply stbo_proposed_trans; [exact Hb|exact Ha|apply eq_5_proposed]. }
  destruct (accept_step s _ H0 P1) as (H1 & L1 & _ & (e1 & T1) & G1 & B1).
  set (p1 := Stbo.update_improved_positions env cfg
               (Stbo.eq_5 env (Stbo.update_SI (rnd env) N s))) in *.
  destruct (accept_step p1 _ H1 (eq_7_and_8_proposed p1))
    as (H2 & L2 & _ & (e2 & T2) & G2 & B2).
  set (p2 := Stbo.update_improved_positions env cfg (Stbo.eq_7_and_8 env cfg p1)) in *.
  destruct (accept_step p2 _ H2 (eq_10_proposed p2))
    as (H3 & L3 & Len3 & (e3 & T3) & G3 & B3).
  set (p3 := Stbo.update_improved_positions env cfg (Stbo.eq_10 env cfg p2)) in *.
  change (Stbo.phase_3 env cfg (Stbo.phase_2 env cfg (Stbo.phase_1 env cfg s)))
    with p3.
  cbv zeta. split; [exact H3|]. split.
  { intros i Hi. eapply Rle_trans; [apply L3; exact Hi|].
    eapply Rle_trans; [apply L2; exact Hi|]. apply L1; exact Hi. }
  split; [exact Len3|]. split; [|split; congruence].
  eexists. split.
  - rewrite T3, T2, T1, <- !app_assoc. reflexivity.
  - repeat split; reflexivity.
Qed.

Lemma stbo_generation_head s :
  stbo_at_head env cfg shapes s ->
  (Z.of_nat (Stbo.gen s) <= generation_limit cfg)%Z ->
  stbo_at_head env cfg shapes (Stbo.generation env cfg s)
  /\ Stbo.gen (Stbo.generation env cfg s) = S (Stbo.gen s)
  /\ Stbo.best_fitness (Stbo.generation env cfg s) <= Stbo.best_fitness s.
Proof.
  intros (Hin & Hb & He & Hst & Hfl & Hap & Hg) Hle.
  destruct (stbo_phases s Hin) as (H3 & L3 & Len3 & (evs & T3 & C1 & C2 & C3 & C4) & G3 & B3).
  set (s3 := Stbo.phase_3 env cfg (Stbo.phase_2 env cfg (Stbo.phase_1 env cfg s))) in *.
  destruct (stbo_end_of_generation s3) as (EX & EXP & EF & Eb & Eg & Et).
  change (Stbo.end_of_generation cfg s3) with (Stbo.generation env cfg s) in *.
  set (s' := Stbo.generation env cfg s) in *.
  destruct (count_hooks cfg (Stbo.gen s3) (reduce_min (Stbo.F s3)) (Stbo.F s3))
    as (K1 & K2 & K3 & K4).
  assert (Hobs : observed (Stbo.trace s') = observed (Stbo.trace s3)).
  { rewrite Et, observed_app, observed_hooks. apply app_nil_r. }
  assert (Hlen : length (Stbo.F s3) = length (Stbo.F s)).
  { rewrite Len3. destruct Hin as (_ & _ & -> & _).
    now rewrite update_population_fitness_length. }
  split; [|split].
  - unfold stbo_at_head. split; [|split; [congruence|]].
    + destruct H3 as (A1 & A2 & A3 & A4 & A5).
      unfold stbo_in_step. rewrite EX, EXP, EF, Hobs.
      exact (conj A1 (conj A2 (conj A3 (conj A4 A5)))).
    + rewrite Et, T3, !count_app, K1, K2, K3, K4.
      rewrite C1, C2, C3, C4, He, Hst, Hfl, Hap, Eg, G3.
      unfold count; simpl. repeat split; lia.
  - congruence.
  - rewrite Eb, Hb. apply reduce_min_mono; [exact Hlen|].
    intros i Hi. apply L3.
    destruct Hin as (_ & _ & E & _). rewrite E in Hi.
    now rewrite update_population_fitness_length in Hi.
Qed.

Lemma stbo_continues s :
  Stbo.continues cfg s
  = Rltb (fitness_limit cfg) (Stbo.best_fitness s)
    && (Z.of_nat (Stbo.gen s) <=? generation_limit cfg)%Z.
Proof. unfold Stbo.continues, Rgtb. now rewrite Rleb_INR_IZR. Qed.

(** The loop ends, given fuel for the generations that are left. *)
Lemma stbo_loop_runs fuel s :
  stbo_at_head env cfg shapes s ->
  (Z.to_nat (generation_limit cfg + 1) - Stbo.gen s < fuel)%nat ->
  exists s', Stbo.loop env cfg fuel s = Some s'
             /\ stbo_at_head env cfg shapes s'
             /\ Stbo.continues cfg s' = false
             /\ Stbo.best_fitness s' <= Stbo.best_fitness s.
Proof.
  revert s; induction fuel as [|fuel IH]; intros s Hhead Hfuel; [lia|].
  simpl. destruct (Stbo.continues cfg s) eqn:Hc.
  - rewrite stbo_continues in Hc. apply andb_prop in Hc. destruct Hc as [_ Hc].
    apply Z.leb_le in Hc.
    destruct (stbo_generation_head s Hhead Hc) as (Hh' & Hg' & Hb').
    destruct (IH _ Hh' ltac:(lia)) as (s' & E & H1 & H2 & H3).
    exists s'. split; [exact E|]. split; [exact H1|]. split; [exact H2|]. lra.
  - exists s. split; [reflexivity|]. split; [exact Hhead|].
    split; [exact Hc|]. lra.
Qed.

Lemma slots_ok_cons n sz sh (x : slot) xs :
  slot_ok n sz x -> slots_ok n sh xs -> slots_ok n (sz :: sh) (x :: xs).
Proof.
  intros Hx [Hl Hk]. split; [simpl; lia|].
  intros [|k] Hlt; simpl in *; [exact Hx|]. apply Hk. lia.
Qed.

Lemma eq_2_slots_ok k weights :
  slots_ok N (shapes_of weights) (fst (Stbo.eq_2_slots env cfg k weights)).
Proof.
  revert k; induction weights as [|wt rest IH]; intros k; simpl.
  - split; auto. intros j Hj. simpl in Hj. lia.
  - fold N. specialize (IH (k + N * length wt)%nat).
    destruct (Stbo.eq_2_slots env cfg (k + N * length wt) rest) as [slots k'].
    simpl in *. apply slots_ok_cons; [|exact IH].
    unfold Stbo.eq_2_slot. fold N. apply reshape_ok.
    now rewrite length_map, random_uniform_tensor_length.
Qed.

Hypothesis shapes_are : shapes = shapes_of (model_weights cfg).
Hypothesis size_ok : (0 <= population_size cfg)%Z.
Hypothesis created_ok :
  transfer_learning cfg = true ->
  (0 < population_size cfg)%Z /\ model_weights cfg <> []
  /\ population_ok shapes N (created_population env).

Lemma stbo_init_head :
  exists s0, Stbo.init env cfg = Some s0 /\ stbo_at_head env cfg shapes s0
             /\ Stbo.gen s0 = O
             /\ Stbo.trace s0 = [UpdatePopulationFitness (Stbo.F s0)].
Proof.
  assert (H2 : exists X0 k, Stbo.eq_2 env cfg = Some (X0, k)
                            /\ population_ok shapes N X0).
  { unfold Stbo.eq_2. destruct (transfer_learning cfg) eqn:Etl.
    - destruct (created_ok eq_refl) as (Hp & Hw & Hc).
      unfold create_population.
      destruct (Z.leb_spec (population_size cfg) 0) as [H|H]; [lia|].
      destruct (model_weights cfg); [congruence|].
      eexists; eexists; split; [reflexivity|exact Hc].
    - destruct (Z.ltb_spec (population_size cfg) 0) as [H|H]; [lia|].
      destruct (Stbo.eq_2_slots env cfg 0 (model_weights cfg)) as [X0 k] eqn:E.
      exists X0, k. split; [reflexivity|].
      rewrite shapes_are. pose proof (eq_2_slots_ok O (model_weights cfg)) as Hok.
      rewrite E in Hok. exact Hok. }
  destruct H2 as (X0 & k & E2 & HX0).
  unfold Stbo.init. rewrite E2. fold N.
  eexists. split; [reflexivity|]. split; [|split; reflexivity].
  unfold stbo_at_head, stbo_in_step. stbo_fields. fold N.
  assert (Hobs : observed [UpdatePopulationFitness (update_population_fitness env X0 N)]
                 = update_population_fitness env X0 N).
  { simpl. apply app_nil_r. }
  rewrite Hobs.
  refine (conj (conj HX0 (conj HX0 (conj eq_refl (conj _ _)))) _).
  - apply incl_refl.
  - apply Forall_forall. intros v Hv. exists v. split; [exact Hv|lra].
  - simpl. repeat split; auto. lia.
Qed.

Lemma stbo_finish_calls s :
  Stbo.trace (Stbo.finish env cfg s)
  = Stbo.trace s
    ++ final_calls env cfg (Stbo.F s) (Stbo.X s) (Stbo.best_fitness s)
  /\ Stbo.X (Stbo.finish env cfg s) = Stbo.X s
  /\ Stbo.gen (Stbo.finish env cfg s) = Stbo.gen s
  /\ Stbo.best_fitness (Stbo.finish env cfg s) = Stbo.best_fitness s.
Proof.
  unfold Stbo.finish, Stbo.log_fitness, final_calls. fold N.
  destruct (0 <? fitness_log_frequency cfg)%Z;
    destruct (0 <? best_individual_save_frequency cfg)%Z;
    stbo_fields; rewrite <- ?app_assoc; cbn [app]; auto.
Qed.

(** Every run of [stbo] ends, in a state reached from the loop's last state
    by [finish]. *)
Lemma stbo_runs fuel :
  (Z.to_nat (generation_limit cfg + 1) < fuel)%nat ->
  exists s0 s', Stbo.init env cfg = Some s0
             /\ Stbo.stbo env cfg fuel = Some (Completed (Stbo.finish env cfg s'))
             /\ stbo_at_head env cfg shapes s'
             /\ Stbo.continues cfg s' = false
             /\ Stbo.best_fitness s' <= Stbo.best_fitness s0.
Proof.
  intros Hfuel.
  destruct stbo_init_head as (s0 & E0 & Hhead & Hg0 & _).
  destruct (stbo_loop_runs fuel s0 Hhead ltac:(lia)) as (s' & El & H1 & H2 & H3).
  exists s0, s'. unfold Stbo.stbo. rewrite E0, El. auto.
Qed.

End StboLoop.

(** C7.  After [update_improved_positions], individual [i] holds the
    proposal exactly when the proposal's fitness is strictly smaller than the
    current one; its stored fitness is the minimum of the two; and the choice
    is the same for every slot of the individual. *)
Theorem stbo_greedy_acceptance (env : environment) (cfg : config) (s : Stbo.state) (i : nat) :
  let N := Z.to_nat (population_size cfg) in
  let s' := Stbo.update_improved_positions env cfg s in
  let old := model_fitness_fn env (individual (Stbo.X s) i) in
  let proposed := model_fitness_fn env (individual (Stbo.XP s) i) in
  rows_ok N (Stbo.X s) -> rows_ok N (Stbo.XP s) ->
  length (Stbo.XP s) = length (Stbo.X s) -> (i < N)%nat ->
  individual (Stbo.X s') i
    = (if Rlt_dec proposed old then individual (Stbo.XP s) i
       else individual (Stbo.X s) i)
  /\ nth i (Stbo.F s') 0 = Rmin old proposed
  /\ nth i (Stbo.F s') 0 = model_fitness_fn env (individual (Stbo.X s') i).
Proof. exact (accept_pointwise env cfg s i). Qed.

(** ** Concrete settings are well formed *)

Lemma half_rnd_ok : random_source_ok half_rnd.
Proof.
  split; simpl.
  - intros _. lra.
  - intros _ [|a l] H; [congruence|simpl; lia].
  - intros _ l. apply Permutation_refl.
Qed.

Lemma two_scalars_ok x0 x1 : population_ok [1%nat] 2 (two_scalars x0 x1).
Proof.
  split; [reflexivity|]. intros [|k] Hk; simpl in Hk; [|lia].
  split; [reflexivity|]. intros [|[|r]] Hr; simpl; auto; lia.
Qed.

Lemma default_avoa_setting_ok fit x0 x1 limit threshold :
  avoa_setting_ok (env_of fit (two_scalars x0 x1)) (default_config limit threshold).
Proof.
  split; [apply half_rnd_ok|]. split; [simpl; lia|].
  split; [discriminate|]. apply two_scalars_ok.
Qed.

Lemma default_stbo_setting_ok fit P0 limit threshold :
  stbo_setting_ok (env_of fit P0) (default_config limit threshold).
Proof. split; [simpl; lia|]. simpl. discriminate. Qed.

(** ** The run-level lemmas, from the settings *)

Lemma env_of_sigma fit P0 cfg : Avoa.calculate_sigma (env_of fit P0) cfg <> None.
Proof. unfold Avoa.calculate_sigma. simpl. discriminate. Qed.

Lemma default_avoa_run_ok fit x0 x1 limit threshold :
  (limit < 16777216)%Z ->
  avoa_run_ok (env_of fit (two_scalars x0 x1)) (default_config limit threshold).
Proof.
  intros H. split; [apply default_avoa_setting_ok|].
  split; [apply env_of_sigma|exact H].
Qed.

Lemma default_stbo_run_ok fit P0 limit threshold :
  (limit < 16777216)%Z ->
  stbo_run_ok (env_of fit P0) (default_config limit threshold).
Proof.
  intros H. split; [apply default_stbo_setting_ok|].
  split; [reflexivity|exact H].
Qed.

Lemma avoa_completes env cfg fuel :
  avoa_setting_ok env cfg -> Avoa.calculate_sigma env cfg <> None ->
  (Z.to_nat (generation_limit cfg + 1) < fuel)%nat ->
  exists s', Avoa.avoa env cfg fuel = Some (Completed (Avoa.finish env cfg s'))
             /\ avoa_at_exit cfg (shapes_of (model_weights cfg)) s'.
Proof.
  intros (H1 & H2 & H3 & H4) Hsig Hfuel.
  apply avoa_runs; auto. lia.
Qed.

Lemma stbo_completes env cfg fuel :
  stbo_setting_ok env cfg ->
  (Z.to_nat (generation_limit cfg + 1) < fuel)%nat ->
  exists s0 s', Stbo.init env cfg = Some s0
             /\ Stbo.stbo env cfg fuel = Some (Completed (Stbo.finish env cfg s'))
             /\ stbo_at_head env cfg (shapes_of (model_weights cfg)) s'
             /\ Stbo.continues cfg s' = false
             /\ Stbo.best_fitness s' <= Stbo.best_fitness s0.
Proof.
  intros (H1 & H2) Hfuel.
  apply stbo_runs; auto.
Qed.

Lemma count_final_calls env cfg fv P best :
  count is_evaluation (final_calls env cfg fv P best) = O
  /\ count is_status (final_calls env cfg fv P best) = O
  /\ count is_forced_log (final_calls env cfg fv P best)
     = (if (0 <? fitness_log_frequency cfg)%Z then 1 else 0)%nat.
Proof.
  unfold final_calls.
  destruct (0 <? fitness_log_frequency cfg)%Z;
    destruct (0 <? best_individual_save_frequency cfg)%Z;
    repeat split; reflexivity.
Qed.

(** An AVOA run, with the calls of its loop and those after it. *)
Lemma avoa_run_calls env cfg fuel :
  avoa_setting_ok env cfg -> Avoa.calculate_sigma env cfg <> None ->
  (Z.to_nat (generation_limit cfg + 1) < fuel)%nat ->
  exists s' s,
    Avoa.avoa env cfg fuel = Some (Completed s)
    /\ avoa_at_exit cfg (shapes_of (model_weights cfg)) s'
    /\ Avoa.trace s
       = Avoa.trace s'
         ++ final_calls env cfg (Avoa.fitness_values s') (Avoa.P s')
              (Avoa.best_fitness s')
    /\ Avoa.P s = Avoa.P s' /\ Avoa.gen s = Avoa.gen s'
    /\ Avoa.best_fitness s = Avoa.best_fitness s'.
Proof.
  intros Hset Hsig Hfuel.
  destruct (avoa_completes env cfg fuel Hset Hsig Hfuel) as (s' & E & Hexit).
  exists s', (Avoa.finish env cfg s'). split; [exact E|]. split; [exact Hexit|].
  apply avoa_finish_calls.
Qed.

(** An STBO run, with the calls of its loop and those after it. *)
Lemma stbo_run_calls env cfg fuel :
  stbo_setting_ok env cfg ->
  (Z.to_nat (generation_limit cfg + 1) < fuel)%nat ->
  exists s0 s' s,
    Stbo.init env cfg = Some s0
    /\ Stbo.stbo env cfg fuel = Some (Completed s)
    /\ stbo_at_head env cfg (shapes_of (model_weights cfg)) s'
    /\ Stbo.continues cfg s' = false
    /\ Stbo.best_fitness s' <= Stbo.best_fitness s0
    /\ Stbo.trace s
       = Stbo.trace s'
         ++ final_calls env cfg (Stbo.F s') (Stbo.X s') (Stbo.best_fitness s')
    /\ Stbo.X s = Stbo.X s' /\ Stbo.gen s = Stbo.gen s'
    /\ Stbo.best_fitness s = Stbo.best_fitness s'.
Proof.
  intros Hset Hfuel.
  destruct (stbo_completes env cfg fuel Hset Hfuel) as (s0 & s' & E0 & E & Hh & Hc & Hb).
  exists s0, s', (Stbo.finish env cfg s').
  split; [exact E0|]. split; [exact E|]. split; [exact Hh|].
  split; [exact Hc|]. split; [exact Hb|]. apply stbo_finish_calls.
Qed.

(** C5, as amended.  A run that completes ends with the write-back,
    followed by one forced fitness log exactly when
    [fitness_log_frequency > 0] and by one checkpoint exactly when
    [best_individual_save_frequency > 0]; the loop itself makes no forced
    log and no write-back. *)
Theorem final_hooks_follow_frequencies (env : environment) (cfg : config) (fuel : nat) :
  (Z.to_nat (generation_limit cfg + 1) < fuel)%nat ->
  (avoa_run_ok env cfg ->
   exists s calls fv P best index,
     Avoa.avoa env cfg fuel = Some (Completed s)
     /\ Avoa.trace s
        = calls
          ++ ApplyBestSolution fv P
             :: (if (0 <? fitness_log_frequency cfg)%Z
                 then [LogFitnessValue best (fitness_log_frequency cfg) true]
                 else [])
             ++ (if (0 <? best_individual_save_frequency cfg)%Z
                 then [SaveIndividual index] else [])
     /\ count is_forced_log calls = O /\ count is_apply calls = O)
  /\ (stbo_run_ok env cfg ->
      exists s calls fv P best index,
        Stbo.stbo env cfg fuel = Some (Completed s)
        /\ Stbo.trace s
           = calls
             ++ ApplyBestSolution fv P
                :: (if (0 <? fitness_log_frequency cfg)%Z
                    then [LogFitnessValue best (fitness_log_frequency cfg) true]
                    else [])
                ++ (if (0 <? best_individual_save_frequency cfg)%Z
                    then [SaveIndividual index] else [])
        /\ count is_forced_log calls = O /\ count is_apply calls = O).
Proof.
  intros Hfuel. split.
  - intros (Hset & Hsig & _).
    destruct (avoa_run_calls env cfg fuel Hset Hsig Hfuel)
      as (s' & s & E & (_ & Hfl & Hap & _) & Htr & _).
    exists s, (Avoa.trace s'). do 4 eexists.
    split; [exact E|]. split; [exact Htr|]. auto.
  - intros (Hset & _ & _).
    destruct (stbo_run_calls env cfg fuel Hset Hfuel)
      as (s0 & s' & s & _ & E & (_ & _ & _ & _ & Hfl & Hap & _) & _ & _ & Htr & _).
    exists s, (Stbo.trace s'). do 4 eexists.
    split; [exact E|]. split; [exact Htr|]. auto.
Qed.

(** C5 fails as stated: with the default frequencies ([-1]) a run of [avoa]
    ends without any forced fitness log. *)
Lemma default_run_has_no_forced_log :
  exists s,
    Avoa.avoa (env_of first_element (two_scalars (1/2) (-1/4)))
              (default_config 1 (-1)) 3 = Some (Completed s)
    /\ count is_forced_log (Avoa.trace s) = O.
Proof.
  destruct (avoa_run_calls (env_of first_element (two_scalars (1/2) (-1/4)))
              (default_config 1 (-1)) 3
              (default_avoa_setting_ok _ _ _ _ _) (env_of_sigma _ _ _)
              ltac:(simpl; lia))
    as (s' & s & E & (_ & Hfl & _) & Htr & _).
  exists s. split; [exact E|].
  rewrite Htr, count_app, Hfl. reflexivity.
Qed.

Lemma final_hooks_follow_frequencies_witness :
  let env := env_of first_element (two_scalars (1/2) (-1/4)) in
  let cfg := default_config 1 (-1) in
  exists s calls fv P best index,
    Avoa.avoa env cfg 3 = Some (Completed s)
    /\ Avoa.trace s
       = calls
         ++ ApplyBestSolution fv P
            :: (if (0 <? fitness_log_frequency cfg)%Z
                then [LogFitnessValue best (fitness_log_frequency cfg) true]
                else [])
            ++ (if (0 <? best_individual_save_frequency cfg)%Z
                then [SaveIndividual index] else [])
    /\ count is_forced_log calls = O /\ count is_apply calls = O.
Proof.
  intros env cfg.
  apply (final_hooks_follow_frequencies env cfg 3).
  - simpl. lia.
  - apply default_avoa_run_ok. reflexivity.
Defined.

(** The float32 generation counter stops at [2^24]: [16777216 + 1] is
    rounded back to [16777216], so that however often [gen.assign_add(1)]
    is run the counter never exceeds [2^24], and the test [gen <= T] of
    both loops stays true for a generation limit of [2^24] or more. *)
Lemma float32_generation_counter_stalls :
  float32_assign_add_1 16777216 = 16777216%Z
  /\ forall n, (0 <= Nat.iter n float32_assign_add_1 0 <= 16777216)%Z.
Proof.
  split; [reflexivity|].
  induction n as [|n IH]; [simpl; lia|].
  change (Nat.iter (S n) float32_assign_add_1 0%Z)
    with (float32_assign_add_1 (Nat.iter n float32_assign_add_1 0%Z)).
  revert IH.
  generalize (Nat.iter n float32_assign_add_1 0%Z). intros g Hg.
  destruct (Z.eq_dec g 16777216) as [->|Hne].
  - change (float32_assign_add_1 16777216) with 16777216%Z. lia.
  - unfold float32_assign_add_1.
    destruct (Z.leb_spec (g + 1) 16777216) as [H|H]; lia.
Qed.

(** The loop of [stbo], one pass at a time. *)
Lemma stbo_loop_step env cfg fuel s :
  Stbo.loop env cfg (S fuel) s
  = if Rltb (fitness_limit cfg) (Stbo.best_fitness s)
       && (Z.of_nat (Stbo.gen s) <=? generation_limit cfg)%Z
    then Stbo.loop env cfg fuel (Stbo.generation env cfg s)
    else Some s.
Proof. simpl. now rewrite stbo_continues. Qed.

(** C10, for generation limits below [2^24] (at [2^24] the float32 counter
    [gen] stops counting, and the loops no longer end by it).  Every run
    ends after at most [generation_limit + 1] generations
    (one status line each).  [avoa] checks the threshold after the evaluation
    of a generation and before the sweep over the vultures: it breaks,
    leaving the population as it is, exactly when the best fitness is below
    [fitness_limit].  [stbo] checks it in the loop condition, in front of
    the three phases: it goes on exactly while the best fitness is above
    [fitness_limit] and [gen <= generation_limit].  A run that ends
    earlier than the generation limit has crossed the threshold. *)
Theorem runs_terminate (env : environment) (cfg : config) (fuel : nat) :
  (Z.to_nat (generation_limit cfg + 1) < fuel)%nat ->
  let N := Z.to_nat (population_size cfg) in
  let shapes := shapes_of (model_weights cfg) in
  (avoa_run_ok env cfg ->
   (exists s, Avoa.avoa env cfg fuel = Some (Completed s)
      /\ (count is_status (Avoa.trace s) <= Z.to_nat (generation_limit cfg + 1))%nat
      /\ ((count is_status (Avoa.trace s) < Z.to_nat (generation_limit cfg + 1))%nat ->
          Avoa.best_fitness s < fitness_limit cfg))
   /\ (forall s, avoa_shapes_ok shapes N s ->
         let best := reduce_min (update_population_fitness env (Avoa.P s) N) in
         exists s',
           (if Rlt_dec best (fitness_limit cfg)
            then Avoa.generation env cfg s = Avoa.Break s'
                 /\ Avoa.gen s' = Avoa.gen s /\ Avoa.P s' = Avoa.P s
            else Avoa.generation env cfg s = Avoa.Next s'
                 /\ Avoa.gen s' = S (Avoa.gen s))
           /\ Avoa.best_fitness s' = best))
  /\ (stbo_run_ok env cfg ->
      (exists s, Stbo.stbo env cfg fuel = Some (Completed s)
         /\ (count is_status (Stbo.trace s) <= Z.to_nat (generation_limit cfg + 1))%nat
         /\ ((count is_status (Stbo.trace s) < Z.to_nat (generation_limit cfg + 1))%nat ->
             Stbo.best_fitness s <= fitness_limit cfg))
      /\ (forall s n,
            Stbo.loop env cfg (S n) s
            = if Rltb (fitness_limit cfg) (Stbo.best_fitness s)
                 && (Z.of_nat (Stbo.gen s) <=? generation_limit cfg)%Z
              then Stbo.loop env cfg n (Stbo.generation env cfg s)
              else Some s)).
Proof.
  intros Hfuel N shapes. split; intros (Hset & Hsig & _); split.
  - destruct (avoa_run_calls env cfg fuel Hset Hsig Hfuel)
      as (s' & s & E & (_ & _ & _ & Hcase) & Htr & _ & _ & Hb).
    exists s. split; [exact E|].
    destruct (count_final_calls env cfg (Avoa.fitness_values s') (Avoa.P s')
                (Avoa.best_fitness s')) as (_ & K & _).
    rewrite Htr, count_app, K, Hb.
    destruct Hcase as [(Hg & _ & Hst)|(Hg & Hlt & _ & Hst)]; rewrite Hst.
    + split; [lia|]. intros Hc. lia.
    + split; [lia|]. intros _. exact Hlt.
  - intros s Hs best.
    destruct Hset as (Hrnd & HN & _).
    destruct (generation_cases env cfg shapes Hrnd ltac:(lia) s Hs)
      as (s' & Hcase & _ & Hb & _).
    exists s'. split; [exact Hcase|exact Hb].
  - destruct (stbo_run_calls env cfg fuel Hset Hfuel)
      as (s0 & s' & s & _ & E & (_ & _ & _ & Hst & _ & _ & Hg) & Hc & _ & Htr & _ & _ & Hb).
    exists s. split; [exact E|].
    destruct (count_final_calls env cfg (Stbo.F s') (Stbo.X s')
                (Stbo.best_fitness s')) as (_ & K & _).
    rewrite Htr, count_app, K, Hb, Hst.
    split; [lia|]. intros Hlt.
    rewrite stbo_continues in Hc. apply andb_false_iff in Hc.
    destruct Hc as [Hc|Hc].
    + now apply Rltb_false in Hc.
    + apply Z.leb_gt in Hc. lia.
  - intros s n. apply stbo_loop_step.
Qed.

Lemma runs_terminate_witness :
  (exists s, Avoa.avoa (env_of first_element (two_scalars (1/2) (-1/4)))
                       (default_config 1 (-1)) 3 = Some (Completed s)
     /\ (count is_status (Avoa.trace s) <= 2)%nat)
  /\ (exists s, Stbo.stbo (env_of first_element (two_scalars (1/2) (-1/4)))
                          (default_config 1 (-1)) 3 = Some (Completed s)
        /\ (count is_status (Stbo.trace s) <= 2)%nat).
Proof.
  destruct (runs_terminate (env_of first_element (two_scalars (1/2) (-1/4)))
              (default_config 1 (-1)) 3 ltac:(simpl; lia)) as [HA HS].
  destruct (HA ltac:(apply default_avoa_run_ok; reflexivity))
    as [(s & E & Hc & _) _].
  destruct (HS ltac:(apply default_stbo_run_ok; reflexivity))
    as [(s2 & E2 & Hc2 & _) _].
  split; [exists s | exists s2]; auto.
Defined.

(** C9, as amended.  In a run that completes and that the fitness
    threshold does not stop, [avoa] itself calls the evaluation of the
    population [generation_limit + 1] times, once per
    generation; [stbo] calls it once in front of the loop and six times
    in every generation (the current and the proposed population after each
    of the three phases), [1 + 6 * (generation_limit + 1)] times in all.
    Both keep the size and the per-slot shapes of the population through
    every generation. *)
Theorem evaluations_per_run (env : environment) (cfg : config) (fuel : nat) :
  (Z.to_nat (generation_limit cfg + 1) < fuel)%nat ->
  let N := Z.to_nat (population_size cfg) in
  let shapes := shapes_of (model_weights cfg) in
  (avoa_run_ok env cfg ->
   (exists s, Avoa.avoa env cfg fuel = Some (Completed s)
      /\ population_ok shapes N (Avoa.P s)
      /\ (~ Avoa.best_fitness s < fitness_limit cfg ->
          count is_evaluation (Avoa.trace s) = Z.to_nat (generation_limit cfg + 1)))
   /\ (forall s s', avoa_shapes_ok shapes N s ->
         Avoa.generation env cfg s = Avoa.Next s' ->
         population_ok shapes N (Avoa.P s')))
  /\ (stbo_run_ok env cfg ->
      (exists s, Stbo.stbo env cfg fuel = Some (Completed s)
         /\ population_ok shapes N (Stbo.X s)
         /\ (fitness_limit cfg < Stbo.best_fitness s ->
             count is_evaluation (Stbo.trace s)
             = (1 + 6 * Z.to_nat (generation_limit cfg + 1))%nat))
      /\ (forall s, stbo_in_step env cfg shapes s ->
            population_ok shapes N (Stbo.X (Stbo.generation env cfg s)))).
Proof.
  intros Hfuel N shapes. split; intros (Hset & Hsig & _); split.
  - destruct (avoa_run_calls env cfg fuel Hset Hsig Hfuel)
      as (s' & s & E & (Hsh & _ & _ & Hcase) & Htr & HP & _ & Hb).
    exists s. split; [exact E|]. split; [rewrite HP; apply Hsh|].
    intros Hn.
    destruct (count_final_calls env cfg (Avoa.fitness_values s') (Avoa.P s')
                (Avoa.best_fitness s')) as (K & _).
    rewrite Htr, count_app, K.
    destruct Hcase as [(Hg & He & _)|(_ & Hlt & _)]; [lia|].
    rewrite Hb in Hn. contradiction.
  - intros s s' Hs Hgen.
    destruct Hset as (Hrnd & HN & _).
    destruct (generation_cases env cfg shapes Hrnd ltac:(lia) s Hs)
      as (s2 & Hcase & Hs2 & _).
    destruct (Rlt_dec _ _); destruct Hcase as [Hc _];
      rewrite Hgen in Hc; [discriminate|].
    injection Hc as ->. apply Hs2.
  - destruct (stbo_run_calls env cfg fuel Hset Hfuel)
      as (s0 & s' & s & _ & E & (Hin & _ & He & _ & _ & _ & Hg) & Hc & _
          & Htr & HXs & _ & Hb).
    destruct Hin as (HX & _).
    exists s. split; [exact E|]. split; [rewrite HXs; exact HX|].
    intros Hgt.
    destruct (count_final_calls env cfg (Stbo.F s') (Stbo.X s')
                (Stbo.best_fitness s')) as (K & _).
    rewrite Htr, count_app, K, He.
    rewrite stbo_continues in Hc. apply andb_false_iff in Hc.
    destruct Hc as [Hc|Hc].
    + apply Rltb_false in Hc. rewrite Hb in Hgt. lra.
    + apply Z.leb_gt in Hc. lia.
  - intros s Hs.
    destruct (stbo_phases env cfg shapes s Hs) as (Hin & _).
    destruct Hin as (HX & _).
    unfold Stbo.generation.
    destruct (stbo_end_of_generation cfg
                (Stbo.phase_3 env cfg (Stbo.phase_2 env cfg (Stbo.phase_1 env cfg s))))
      as (EX & _).
    rewrite EX. exact HX.
Qed.

(** C9 fails as stated: a run of [stbo] with [generation_limit = 2] that
    the threshold never stops evaluates the population 19 times, not 3. *)
Lemma stbo_evaluates_nineteen_times :
  exists s,
    Stbo.stbo (env_of (fun _ => 0) []) (default_config 2 (-1)) 4 = Some (Completed s)
    /\ fitness_limit (default_config 2 (-1)) < Stbo.best_fitness s
    /\ count is_evaluation (Stbo.trace s) = 19%nat
    /\ (generation_limit (default_config 2 (-1)) + 1 = 3)%Z.
Proof.
  destruct (stbo_run_calls (env_of (fun _ => 0) []) (default_config 2 (-1)) 4
              (default_stbo_setting_ok _ _ _ _) ltac:(simpl; lia))
    as (s0 & s' & s & _ & E & (Hin & Hbf & He & _ & _ & _ & Hg) & Hc & _
        & Htr & _ & _ & Hb).
  destruct Hin as (_ & _ & HF & _).
  assert (Hbest : Stbo.best_fitness s' = 0).
  { rewrite Hbf, HF. unfold update_population_fitness. simpl.
    unfold Rmin. destruct (Rle_dec 0 0); reflexivity. }
  exists s. split; [exact E|]. rewrite Hb, Hbest.
  split; [simpl; lra|]. split; [|reflexivity].
  destruct (count_final_calls (env_of (fun _ => 0) []) (default_config 2 (-1))
              (Stbo.F s') (Stbo.X s') (Stbo.best_fitness s')) as (K & _).
  rewrite Htr, count_app, K, He.
  rewrite stbo_continues in Hc. apply andb_false_iff in Hc.
  destruct Hc as [Hc|Hc].
  - apply Rltb_false in Hc. rewrite Hbest in Hc. simpl in Hc. lra.
  - apply Z.leb_gt in Hc. simpl in Hc, Hg. lia.
Qed.

Lemma evaluations_per_run_witness :
  (exists s, Avoa.avoa (env_of first_element (two_scalars (1/2) (-1/4)))
                       (default_config 1 (-1)) 3 = Some (Completed s)
     /\ population_ok [1%nat] 2 (Avoa.P s))
  /\ (exists s, Stbo.stbo (env_of (fun _ => 0) []) (default_config 2 (-1)) 4
                = Some (Completed s)
        /\ population_ok [1%nat] 2 (Stbo.X s)).
Proof.
  destruct (evaluations_per_run (env_of first_element (two_scalars (1/2) (-1/4)))
              (default_config 1 (-1)) 3 ltac:(simpl; lia)) as [HA _].
  destruct (evaluations_per_run (env_of (fun _ => 0) [])
              (default_config 2 (-1)) 4 ltac:(simpl; lia)) as [_ HS].
  destruct (HA ltac:(apply default_avoa_run_ok; reflexivity))
    as [(s & E & Hp & _) _].
  destruct (HS ltac:(apply default_stbo_run_ok; reflexivity))
    as [(s2 & E2 & Hp2 & _) _].
  split; [exists s | exists s2]; auto.
Defined.




(** ** AVOA under the generator of constant draws *)

Section HalfDraws.

Variable fit : candidate -> R.
Variable P0 : population.
Variable limit : Z.
Variable threshold : R.

Let env := env_of fit P0.
Let cfg := default_config limit threshold.

(** With [z = 0] and [h = 0] the factor [F] of Eq. (4) is [0]. *)
Lemma half_F_zero s : Avoa.F (Avoa.eq_4 env cfg s) = 0.
Proof.
  unfold Avoa.eq_4, Avoa.eq_3. avoa_fields.
  unfold random_uniform, env, env_of, half_rnd; cbn [rnd uniform01].
  replace (1 / 2 * (1 - -1) + -1) with 0 by lra.
  replace (1 / 2 * (2 - -2) + -2) with 0 by lra.
  ring.
Qed.

Lemma Rgeb_false x y : x < y -> Rgeb x y = false.
Proof. intros H. rewrite Rgeb_dec. destruct (Rge_dec x y); [lra|reflexivity]. Qed.

Lemma Rgeb_true x y : y <= x -> Rgeb x y = true.
Proof. intros H. rewrite Rgeb_dec. destruct (Rge_dec x y); [reflexivity|lra]. Qed.

(** Hence every vulture is updated by Eq. (16). *)
Lemma half_update_vulture s :
  let s1 := Avoa.eq_4 env cfg (Avoa.eq_1 env cfg s) in
  Avoa.update_vulture env cfg s
  = Avoa.with_i (S (Avoa.i s)) (Avoa.eq_16 (Avoa.with_rng (S (Avoa.rng s1)) s1)).
Proof.
  intros s1. unfold Avoa.update_vulture. fold s1.
  assert (HF : Avoa.F s1 = 0) by apply half_F_zero.
  rewrite HF. rewrite Rabs_R0.
  rewrite (Rgeb_false 0 1) by lra. rewrite (Rgeb_false 0 0.5) by lra.
  unfold Avoa.probability_test.
  replace (Rgeb (P3 cfg) (random_uniform (rnd env) (Avoa.rng s1) 0 1)) with true.
  - reflexivity.
  - symmetry. apply Rgeb_true.
    unfold random_uniform, env, env_of, half_rnd, cfg, default_config;
      cbn [rnd uniform01 P3]. lra.
Qed.

Lemma half_update_elem shapes N s k j :
  avoa_shapes_ok shapes N s -> (Avoa.i s < N)%nat ->
  (k < length shapes)%nat -> (j < nth k shapes O)%nat ->
  elem (Avoa.P (Avoa.update_vulture env cfg s)) k (Avoa.i s) j
  = (elem (Avoa.best_vultures s) k 0 j + elem (Avoa.best_vultures s) k 1 j) / 2.
Proof.
  intros Hs Hi Hk Hj. rewrite half_update_vulture.
  set (s1 := Avoa.eq_4 env cfg (Avoa.eq_1 env cfg s)).
  set (s2 := Avoa.with_rng (S (Avoa.rng s1)) s1).
  assert (Hs2 : avoa_shapes_ok shapes N s2 /\ Avoa.i s2 = Avoa.i s).
  { destruct (eq_1_stays env cfg shapes N half_rnd_ok s Hs Hi) as (Ha & _ & Hb).
    destruct (eq_4_stays env cfg shapes N _ Ha ltac:(lia)) as (Hc & _ & Hd).
    split; [exact Hc|]. unfold s2, s1. avoa_fields. congruence. }
  destruct Hs2 as [Hs2 Hi2].
  change (Avoa.P (Avoa.with_i (S (Avoa.i s)) (Avoa.eq_16 s2)))
    with (Avoa.P (Avoa.eq_16 s2)).
  rewrite <- Hi2.
  rewrite (eq_16_elem cfg shapes N s2 k j Hs2 ltac:(lia) Hk Hj).
  unfold spec_update.
  assert (HF : Avoa.F s2 = 0) by apply half_F_zero.
  rewrite HF.
  change (Avoa.best_vultures s2) with (Avoa.best_vultures s).
  unfold Rdiv. ring.
Qed.

(** A population of two scalars, from its two elements. *)
Lemma population_two_scalars P :
  population_ok [1%nat] 2 P -> P = two_scalars (elem P 0 0 0) (elem P 0 1 0).
Proof.
  intros [Hl Hk]. destruct P as [|x [|y t]]; try discriminate.
  destruct (Hk O ltac:(simpl; lia)) as [Hx Hr]. simpl in Hx, Hr.
  destruct x as [|r0 [|r1 [|r2 t]]]; try discriminate.
  pose proof (Hr O ltac:(lia)) as H0. pose proof (Hr 1%nat ltac:(lia)) as H1.
  simpl in H0, H1.
  destruct r0 as [|a [|a' t0]]; try discriminate.
  destruct r1 as [|b [|b' t1]]; try discriminate.
  reflexivity.
Qed.

(** The sweep moves both scalars to the midpoint of the two best vultures. *)
Lemma half_sweep s :
  avoa_shapes_ok [1%nat] 2 s -> Avoa.i s = O ->
  let m := (elem (Avoa.best_vultures s) 0 0 0
            + elem (Avoa.best_vultures s) 0 1 0) / 2 in
  let s' := Avoa.sweep env cfg 2 s in
  avoa_shapes_ok [1%nat] 2 s' /\ Avoa.P s' = two_scalars m m
  /\ avoa_same_control s s'.
Proof.
  intros Hs Hi m s'.
  change s' with (Avoa.update_vulture env cfg (Avoa.update_vulture env cfg s)).
  clear s'.
  set (sa := Avoa.update_vulture env cfg s).
  destruct (update_vulture_stays env cfg [1%nat] 2 half_rnd_ok s Hs ltac:(lia))
    as (Hsa & Hca & Hia).
  fold sa in Hsa, Hca, Hia.
  destruct (update_vulture_stays env cfg [1%nat] 2 half_rnd_ok sa Hsa ltac:(lia))
    as (Hsb & Hcb & Hib).
  set (sb := Avoa.update_vulture env cfg sa) in *.
  assert (Ea : elem (Avoa.P sa) 0 0 0 = m).
  { pose proof (half_update_elem [1%nat] 2 s 0 0 Hs ltac:(lia)
                  ltac:(simpl; lia) ltac:(simpl; lia)) as H.
    rewrite Hi in H. exact H. }
  assert (Eb : elem (Avoa.P sb) 0 1 0 = m).
  { pose proof (half_update_elem [1%nat] 2 sa 0 0 Hsa ltac:(lia)
                  ltac:(simpl; lia) ltac:(simpl; lia)) as H.
    replace (Avoa.i sa) with 1%nat in H by lia.
    destruct Hca as (_ & _ & _ & _ & Hbv). rewrite Hbv in H. exact H. }
  assert (Ec : elem (Avoa.P sb) 0 0 0 = m).
  { rewrite <- Ea. unfold elem. f_equal.
    unfold sb. rewrite half_update_vulture.
    set (s1 := Avoa.eq_4 env cfg (Avoa.eq_1 env cfg sa)).
    set (s2 := Avoa.with_rng (S (Avoa.rng s1)) s1).
    assert (Hs2 : avoa_shapes_ok [1%nat] 2 s2 /\ Avoa.i s2 = 1%nat).
    { destruct (eq_1_stays env cfg [1%nat] 2 half_rnd_ok sa Hsa ltac:(lia))
        as (Ha & _ & Hb).
      destruct (eq_4_stays env cfg [1%nat] 2 _ Ha ltac:(lia)) as (Hc & _ & Hd).
      split; [exact Hc|]. unfold s2, s1. avoa_fields. lia. }
    destruct Hs2 as [Hs2 Hi2].
    apply (eq_16_other [1%nat] 2 s2 Hs2 ltac:(lia) 0%nat 0%nat);
      [simpl; lia | lia]. }
  split; [exact Hsb|]. split.
  - rewrite (population_two_scalars (Avoa.P sb)) by apply Hsb.
    now rewrite Ec, Eb.
  - unfold avoa_same_control in *. intuition congruence.
Qed.

End HalfDraws.

(** One generation of [avoa] on two scalars, the fitness being the scalar
    itself: both move to the midpoint. *)
Lemma half_generation P0 limit threshold s x0 x1 :
  let env := env_of first_element P0 in
  let cfg := default_config limit threshold in
  avoa_shapes_ok [1%nat] 2 s -> Avoa.P s = two_scalars x0 x1 ->
  ~ Rmin x0 x1 < threshold ->
  exists s', Avoa.generation env cfg s = Avoa.Next s'
    /\ avoa_shapes_ok [1%nat] 2 s'
    /\ Avoa.P s' = two_scalars ((x0 + x1) / 2) ((x0 + x1) / 2)
    /\ Avoa.best_fitness s' = Rmin x0 x1
    /\ Avoa.gen s' = S (Avoa.gen s)
    /\ In x0 (observed (Avoa.trace s')) /\ In x1 (observed (Avoa.trace s'))
    /\ incl (observed (Avoa.trace s)) (observed (Avoa.trace s'))
    /\ count is_apply (Avoa.trace s') = count is_apply (Avoa.trace s)
    /\ Avoa.fitness_values s' = [x0; x1].
Proof.
  intros env cfg Hs HP Hthr.
  destruct (start_of_generation_ok env cfg [1%nat] ltac:(simpl; lia) s Hs)
    as (s5 & E5 & Hs5 & HP5 & Hbv5 & Hg5 & Hb5 & Hfv5 & Htr5).
  rewrite HP in *.
  change (update_population_fitness env (two_scalars x0 x1)
            (Z.to_nat (population_size cfg))) with [x0; x1] in *.
  change (reduce_min [x0; x1]) with (Rmin x0 x1) in *.
  assert (Hsum : elem (Avoa.best_vultures s5) 0 0 0
                 + elem (Avoa.best_vultures s5) 0 1 0 = x0 + x1).
  { rewrite Hbv5. destruct Hs as (_ & (Hl & _) & _).
    destruct (Avoa.best_vultures s) as [|b [|b' t]]; try discriminate.
    unfold argsort, two_scalars. simpl.
    destruct (Rlt_dec x1 x0); unfold elem; simpl; lra. }
  unfold Avoa.generation. rewrite E5. unfold Rltb. rewrite Hb5.
  destruct (Rlt_dec (Rmin x0 x1) (fitness_limit cfg)) as [Hlt|_];
    [exfalso; apply Hthr; exact Hlt|].
  change (Z.to_nat (population_size cfg)) with 2%nat.
  destruct (half_sweep first_element P0 limit threshold (Avoa.with_i O s5)
              Hs5 eq_refl) as (Hs6 & HP6 & (Ca & Cb & Cc & Cd & Ce)).
  fold env cfg in Hs6, HP6, Ca, Cb, Cc, Cd, Ce.
  eexists. split; [reflexivity|]. avoa_fields.
  split; [exact Hs6|]. split.
  - etransitivity; [exact HP6|].
    change (Avoa.best_vultures (Avoa.with_i 0 s5)) with (Avoa.best_vultures s5).
    now rewrite Hsum.
  - split; [etransitivity; [exact Cc|exact Hb5]|].
    split; [f_equal; etransitivity; [exact Cb|exact Hg5]|].
    assert (Et : Avoa.trace (Avoa.sweep env cfg 2 (Avoa.with_i 0 s5))
                 = Avoa.trace s5) by exact Ca.
    assert (Hfinal : Avoa.fitness_values (Avoa.sweep env cfg 2 (Avoa.with_i 0 s5))
                     = [x0; x1]) by (etransitivity; [exact Cd|exact Hfv5]).
    match goal with
    | |- ?A /\ ?B /\ ?C /\ ?D /\ _ =>
        enough (HH : A /\ B /\ C /\ D)
          by (destruct HH as (h1 & h2 & h3 & h4);
              exact (conj h1 (conj h2 (conj h3 (conj h4 Hfinal)))))
    end.
    match goal with
    | |- In _ (observed ?t) /\ _ => change t with
          (Avoa.trace (Avoa.sweep env cfg 2 (Avoa.with_i 0 s5)))
    end.
    match goal with
    | |- _ /\ _ /\ incl _ (observed ?t) /\ _ => change t with
          (Avoa.trace (Avoa.sweep env cfg 2 (Avoa.with_i 0 s5)))
    end.
    rewrite Et, Htr5, observed_app.
    split; [|split; [|split]].
    + apply in_or_app; right; simpl; auto.
    + apply in_or_app; right; simpl; auto.
    + apply incl_appl, incl_refl.
    + rewrite count_app, count_pass.
      destruct (count_hooks cfg (Avoa.gen s) (Rmin x0 x1) [x0; x1])
        as (_ & _ & _ & K).
      rewrite K. unfold count; simpl. lia.
Qed.

Lemma avoa_loop_step env cfg fuel s :
  Avoa.loop env cfg (S fuel) s
  = if (Z.of_nat (Avoa.gen s) <=? generation_limit cfg)%Z
    then match Avoa.generation env cfg s with
         | Avoa.Break s' => Some (Completed s')
         | Avoa.Next s' => Avoa.loop env cfg fuel s'
         | Avoa.Fail calls => Some (Raised calls)
         end
    else Some (Completed s).
Proof. simpl. now rewrite Rleb_INR_IZR. Qed.

Lemma Rmin_same x : Rmin x x = x.
Proof. unfold Rmin. destruct (Rle_dec x x); reflexivity. Qed.

Lemma two_scalars_eq a b c d :
  a = c -> b = d -> two_scalars a b = two_scalars c d.
Proof. now intros -> ->. Qed.

(** The run of [avoa] on the scalars [1/2] and [-1/4], two generations
    long. *)
Lemma avoa_midpoint_run :
  let env := env_of first_element (two_scalars (1/2) (-1/4)) in
  let cfg := default_config 1 (-1) in
  exists s0 s1 s2,
    Avoa.init env cfg = Some s0
    /\ Avoa.generation env cfg s0 = Avoa.Next s1
    /\ Avoa.generation env cfg s1 = Avoa.Next s2
    /\ Avoa.gen s0 = O /\ Avoa.gen s1 = 1%nat /\ Avoa.gen s2 = 2%nat
    /\ Avoa.best_fitness s1 = -1/4
    /\ Avoa.best_fitness s2 = 1/8
    /\ Avoa.P s2 = two_scalars (1/8) (1/8)
    /\ In (-1/4) (observed (Avoa.trace s2))
    /\ count is_apply (Avoa.trace s2) = O
    /\ exists a b, Avoa.fitness_values s2 = [a; b] /\ a = 1/8 /\ b = 1/8.
Proof.
  intros env cfg.
  destruct (avoa_init_head env cfg [1%nat] ltac:(simpl; lia)
              ltac:(discriminate) (two_scalars_ok _ _) eq_refl
              (env_of_sigma _ _ _))
    as (s0 & E0 & (Hs0 & _) & Ht0 & Hg0 & HP0).
  destruct (half_generation (two_scalars (1/2) (-1/4)) 1 (-1) s0 (1/2) (-1/4)
              Hs0 HP0) as (s1 & E1 & Hs1 & HP1 & Hb1 & Hg1 & _ & Hin1 & _ & Ha1 & _).
  { unfold Rmin. destruct (Rle_dec (1/2) (-1/4)); lra. }
  destruct (half_generation (two_scalars (1/2) (-1/4)) 1 (-1) s1 _ _
              Hs1 HP1) as (s2 & E2 & Hs2 & HP2 & Hb2 & Hg2 & _ & _ & Hinc & Ha2 & Hfv2).
  { rewrite Rmin_same. lra. }
  exists s0, s1, s2.
  split; [exact E0|]. split; [exact E1|]. split; [exact E2|].
  split; [exact Hg0|]. split; [lia|]. split; [lia|].
  split; [rewrite Hb1; unfold Rmin; destruct (Rle_dec (1/2) (-1/4)); lra|].
  split; [rewrite Hb2, Rmin_same; lra|].
  split; [rewrite HP2; apply two_scalars_eq; lra|].
  split; [apply Hinc; replace (-1/4) with (-1 / 4) by lra; exact Hin1|].
  split; [rewrite Ha2, Ha1, Ht0; reflexivity|].
  eexists. eexists. split; [exact Hfv2|]. split; lra.
Qed.

(** C2 fails as stated: in this run of [avoa] the best fitness after the
    second generation, [1/8], is above that after the first, [-1/4]. *)
Lemma avoa_best_fitness_increases :
  exists s0 s1 s2,
    Avoa.init (env_of first_element (two_scalars (1/2) (-1/4)))
              (default_config 1 (-1)) = Some s0
    /\ Avoa.generation (env_of first_element (two_scalars (1/2) (-1/4)))
                       (default_config 1 (-1)) s0 = Avoa.Next s1
    /\ Avoa.generation (env_of first_element (two_scalars (1/2) (-1/4)))
                       (default_config 1 (-1)) s1 = Avoa.Next s2
    /\ Avoa.best_fitness s1 < Avoa.best_fitness s2.
Proof.
  destruct avoa_midpoint_run
    as (s0 & s1 & s2 & E0 & E1 & E2 & _ & _ & _ & Hb1 & Hb2 & _).
  exists s0, s1, s2. repeat split; auto. rewrite Hb1, Hb2. lra.
Qed.

Lemma stbo_iter_head env cfg s0 g :
  stbo_at_head env cfg (shapes_of (model_weights cfg)) s0 -> Stbo.gen s0 = O ->
  (Z.of_nat g <= generation_limit cfg + 1)%Z ->
  stbo_at_head env cfg (shapes_of (model_weights cfg))
    (Nat.iter g (Stbo.generation env cfg) s0)
  /\ Stbo.gen (Nat.iter g (Stbo.generation env cfg) s0) = g.
Proof.
  intros H0 Hg0. induction g as [|g IH]; intros Hg.
  - simpl. auto.
  - change (Nat.iter (S g) (Stbo.generation env cfg) s0)
      with (Stbo.generation env cfg (Nat.iter g (Stbo.generation env cfg) s0)).
    destruct (IH ltac:(lia)) as [Hh Hgen].
    destruct (stbo_generation_head env cfg _ _ Hh ltac:(lia)) as (H1 & H2 & _).
    split; [exact H1|]. rewrite H2, Hgen. reflexivity.
Qed.

(** C2, as amended.  In [stbo] the best fitness never increases from one
    generation to the next.  In [avoa] the best fitness that a generation
    sets is the least fitness of the population evaluated in that
    generation, whatever it was before. *)
Theorem best_fitness_over_generations (env : environment) (cfg : config) :
  (stbo_setting_ok env cfg ->
   exists s0, Stbo.init env cfg = Some s0
     /\ forall g, (Z.of_nat g <= generation_limit cfg)%Z ->
          Stbo.best_fitness (Nat.iter (S g) (Stbo.generation env cfg) s0)
          <= Stbo.best_fitness (Nat.iter g (Stbo.generation env cfg) s0))
  /\ (avoa_setting_ok env cfg ->
      forall s,
        avoa_shapes_ok (shapes_of (model_weights cfg))
          (Z.to_nat (population_size cfg)) s ->
        exists s',
          (Avoa.generation env cfg s = Avoa.Break s'
           \/ Avoa.generation env cfg s = Avoa.Next s')
          /\ Avoa.best_fitness s'
             = reduce_min (update_population_fitness env (Avoa.P s)
                             (Z.to_nat (population_size cfg)))).
Proof.
  split.
  - intros (H1 & H2).
    destruct (stbo_init_head env cfg _ eq_refl H1 H2) as (s0 & E0 & Hh & Hg0 & _).
    exists s0. split; [exact E0|]. intros g Hg.
    destruct (stbo_iter_head env cfg s0 g Hh Hg0 ltac:(lia)) as [Hhg Hgen].
    change (Nat.iter (S g) (Stbo.generation env cfg) s0)
      with (Stbo.generation env cfg (Nat.iter g (Stbo.generation env cfg) s0)).
    apply (stbo_generation_head env cfg _ _ Hhg). lia.
  - intros (Hrnd & HN & _) s Hs.
    destruct (generation_cases env cfg _ Hrnd ltac:(lia) s Hs)
      as (s' & Hcase & _ & Hb & _).
    exists s'. split; [|exact Hb].
    destruct (Rlt_dec _ _); destruct Hcase as [Hc _]; auto.
Qed.

Lemma best_fitness_over_generations_witness :
  exists s0,
    Stbo.init (env_of first_element []) (default_config 1 (-1)) = Some s0
    /\ Stbo.best_fitness
         (Nat.iter 1 (Stbo.generation (env_of first_element [])
                        (default_config 1 (-1))) s0)
       <= Stbo.best_fitness s0.
Proof.
  destruct (best_fitness_over_generations (env_of first_element [])
              (default_config 1 (-1))) as [H _].
  destruct (H (default_stbo_setting_ok _ _ _ _)) as (s0 & E0 & Hmono).
  exists s0. split; [exact E0|].
  apply (Hmono O). simpl. lia.
Defined.

Lemma observed_final_calls env cfg fv P best :
  observed (final_calls env cfg fv P best) = [].
Proof.
  unfold final_calls.
  destruct (0 <? fitness_log_frequency cfg)%Z;
    destruct (0 <? best_individual_save_frequency cfg)%Z; reflexivity.
Qed.

Lemma in_final_calls env cfg fv P best :
  In (ApplyBestSolution fv P) (final_calls env cfg fv P best).
Proof. unfold final_calls. left. reflexivity. Qed.

Lemma count_apply_final_calls env cfg fv P best :
  count is_apply (final_calls env cfg fv P best) = 1%nat.
Proof.
  unfold final_calls.
  destruct (0 <? fitness_log_frequency cfg)%Z;
    destruct (0 <? best_individual_save_frequency cfg)%Z; reflexivity.
Qed.

(** C1, as amended.  Neither engine keeps a best-candidate record of its
    own: at termination each makes one call of [apply_best_solution], and
    gives it the final population and the fitness vector.  In [stbo], whose
    acceptance is greedy, the fitness vector given is that of the population
    given, and the member at its minimum has the least fitness that any
    evaluation pass of the run produced.  In [avoa] the population given is
    the one that the last generation left, whatever was seen before. *)
Theorem written_back_candidate (env : environment) (cfg : config) (fuel : nat) :
  (Z.to_nat (generation_limit cfg + 1) < fuel)%nat ->
  let N := Z.to_nat (population_size cfg) in
  let shapes := shapes_of (model_weights cfg) in
  (avoa_run_ok env cfg ->
   exists s fv P,
     Avoa.avoa env cfg fuel = Some (Completed s)
     /\ In (ApplyBestSolution fv P) (Avoa.trace s)
     /\ count is_apply (Avoa.trace s) = 1%nat
     /\ P = Avoa.P s /\ population_ok shapes N P)
  /\ (stbo_run_ok env cfg ->
      exists s Fv X j,
        Stbo.stbo env cfg fuel = Some (Completed s)
        /\ In (ApplyBestSolution Fv X) (Stbo.trace s)
        /\ count is_apply (Stbo.trace s) = 1%nat
        /\ X = Stbo.X s /\ population_ok shapes N X
        /\ Fv = update_population_fitness env X N
        /\ j = argmin Fv /\ (j < N)%nat
        /\ In (model_fitness_fn env (individual X j)) (observed (Stbo.trace s))
        /\ forall v, In v (observed (Stbo.trace s)) ->
             model_fitness_fn env (individual X j) <= v).
Proof.
  intros Hfuel N shapes. split.
  - intros (Hset & Hsig & _).
    destruct (avoa_run_calls env cfg fuel Hset Hsig Hfuel)
      as (s' & s & E & (Hsh & _ & Hap & _) & Htr & HP & _).
    exists s, (Avoa.fitness_values s'), (Avoa.P s').
    split; [exact E|]. split.
    { rewrite Htr. apply in_or_app. right. apply in_final_calls. }
    split; [rewrite Htr, count_app, Hap, count_apply_final_calls; reflexivity|].
    split; [symmetry; exact HP|]. apply Hsh.
  - intros (Hset & HN & _).
    destruct (stbo_run_calls env cfg fuel Hset Hfuel)
      as (s0 & s' & s & _ & E & (Hin & _ & _ & _ & _ & Hap & _) & _ & _ & Htr & HX & _).
    destruct Hin as (HXok & _ & HF & Hincl & Hall).
    fold N in HF.
    assert (HlF : length (Stbo.F s') = N).
    { rewrite HF. apply update_population_fitness_length. }
    assert (Hne : Stbo.F s' <> []).
    { intros E'. rewrite E' in HlF. simpl in HlF. unfold N in HlF. lia. }
    destruct (argmin_spec (Stbo.F s') Hne) as [Hj Hmin].
    rewrite HlF in Hj.
    assert (Hfit : model_fitness_fn env (individual (Stbo.X s') (argmin (Stbo.F s')))
                   = reduce_min (Stbo.F s')).
    { rewrite <- (nth_update_population_fitness env (Stbo.X s') N _ Hj).
      rewrite <- HF. exact Hmin. }
    assert (Hobs : observed (Stbo.trace s) = observed (Stbo.trace s')).
    { rewrite Htr, observed_app, observed_final_calls. apply app_nil_r. }
    exists s, (Stbo.F s'), (Stbo.X s'), (argmin (Stbo.F s')).
    split; [exact E|]. split.
    { rewrite Htr. apply in_or_app. right. apply in_final_calls. }
    split; [rewrite Htr, count_app, Hap, count_apply_final_calls; reflexivity|].
    split; [symmetry; exact HX|]. split; [exact HXok|]. split; [exact HF|].
    split; [reflexivity|]. split; [exact Hj|].
    rewrite Hobs, Hfit. split.
    + apply Hincl. now apply reduce_min_in.
    + intros v Hv. rewrite Forall_forall in Hall.
      destruct (Hall v Hv) as (y & Hy & Hyv).
      eapply Rle_trans; [apply reduce_min_le; exact Hy|exact Hyv].
Qed.

(** C1 fails as stated: this run of [avoa] has seen the fitness [-1/4] in
    its first evaluation pass, and the one call of [apply_best_solution] is
    given a population whose two members both have the fitness [1/8], and a
    fitness vector that holds [1/8] twice: the best candidate found is not
    among what is handed over. *)
Lemma avoa_writes_back_a_worse_candidate :
  exists s fv P,
    Avoa.avoa (env_of first_element (two_scalars (1/2) (-1/4)))
              (default_config 1 (-1)) 3 = Some (Completed s)
    /\ In (ApplyBestSolution fv P) (Avoa.trace s)
    /\ count is_apply (Avoa.trace s) = 1%nat
    /\ In (-1/4) (observed (Avoa.trace s))
    /\ (forall i, (i < 2)%nat ->
          -1/4 < model_fitness_fn
                   (env_of first_element (two_scalars (1/2) (-1/4)))
                   (individual P i))
    /\ (forall v, In v fv -> -1/4 < v).
Proof.
  destruct avoa_midpoint_run
    as (s0 & s1 & s2 & E0 & E1 & E2 & Hg0 & Hg1 & Hg2 & _ & _ & HP2 & Hin & Hap
        & a & b & Hfv & -> & ->).
  set (env := env_of first_element (two_scalars (1/2) (-1/4))) in *.
  set (cfg := default_config 1 (-1)) in *.
  assert (Erun : Avoa.avoa env cfg 3 = Some (Completed (Avoa.finish env cfg s2))).
  { unfold Avoa.avoa. rewrite E0.
    rewrite avoa_loop_step, Hg0.
    change (Z.of_nat 0 <=? generation_limit cfg)%Z with true. cbv iota.
    rewrite E1, avoa_loop_step, Hg1.
    change (Z.of_nat 1 <=? generation_limit cfg)%Z with true. cbv iota.
    rewrite E2, avoa_loop_step, Hg2.
    change (Z.of_nat 2 <=? generation_limit cfg)%Z with false. cbv iota.
    reflexivity. }
  destruct (avoa_finish_calls env cfg s2) as (Htr & _).
  rewrite HP2, Hfv in Htr.
  exists (Avoa.finish env cfg s2), [1/8; 1/8], (two_scalars (1/8) (1/8)).
  split; [exact Erun|]. rewrite Htr. split.
  - apply in_or_app. right. apply in_final_calls.
  - split; [|split; [|split]].
    + rewrite count_app, Hap, count_apply_final_calls. reflexivity.
    + rewrite observed_app. apply in_or_app. left. exact Hin.
    + intros [|[|i]] Hi; [| |lia]; unfold env, env_of, first_element; simpl; lra.
    + intros v [<-|[<-|[]]]; lra.
Qed.

Lemma written_back_candidate_witness :
  exists s fv P,
    Avoa.avoa (env_of first_element (two_scalars (1/2) (-1/4)))
              (default_config 1 (-1)) 3 = Some (Completed s)
    /\ In (ApplyBestSolution fv P) (Avoa.trace s)
    /\ count is_apply (Avoa.trace s) = 1%nat.
Proof.
  destruct (written_back_candidate
              (env_of first_element (two_scalars (1/2) (-1/4)))
              (default_config 1 (-1)) 3 ltac:(simpl; lia)) as [H _].
  destruct (H ltac:(apply default_avoa_run_ok; reflexivity))
    as (s & fv & P & E & Hin & Hc & _).
  exists s, fv, P. auto.
Defined.

Lemma tensors_ok_scalar x : tensors_ok [1%nat] [[x]].
Proof.
  split; [reflexivity|]. intros [|k] Hk; simpl in *; [reflexivity|lia].
Qed.

Lemma avoa_state_of_ok x0 x1 : avoa_shapes_ok [1%nat] 2 (avoa_state_of x0 x1).
Proof.
  unfold avoa_shapes_ok, avoa_state_of. simpl.
  pose proof (two_scalars_ok 0 0) as H0.
  pose proof (tensors_ok_scalar 0) as H1.
  exact (conj (two_scalars_ok x0 x1)
              (conj H0 (conj H0 (conj H0 (conj H1 (conj H1 H1)))))).
Qed.

Lemma avoa_branch_dispatch_witness :
  Avoa.F (Avoa.update_vulture (env_of first_element [])
                              (default_config 1 (-1))
                              (avoa_state_of (1/2) (-1/4)))
  = spec_F 2.5 (INR 0) (IZR 1)
      (random_uniform half_rnd 1 0 1) (random_uniform half_rnd 2 (-1) 1)
      (random_uniform half_rnd 3 (-2) 2).
Proof.
  refine (proj1 (avoa_branch_dispatch (env_of first_element [])
                   (default_config 1 (-1)) [1%nat] 2
                   (avoa_state_of (1/2) (-1/4)) 0 0
                   half_rnd_ok (avoa_state_of_ok _ _)
                   (Nat.lt_0_succ 1) (Nat.lt_0_succ 0) (Nat.lt_0_succ 0)
                   eq_refl _ _ _ _)).
  - discriminate.
  - simpl. lra.
  - simpl. lra.
  - simpl. lra.
Defined.

Lemma rows_ok_two_scalars x0 x1 : rows_ok 2 (two_scalars x0 x1).
Proof. repeat constructor. Qed.

Lemma stbo_greedy_acceptance_witness :
  nth 0 (Stbo.F (Stbo.update_improved_positions
                   (env_of first_element []) (default_config 1 (-1))
                   (stbo_state_of 1 2 0 3))) 0
  = Rmin (first_element [[1]]) (first_element [[0]]).
Proof.
  exact (proj1 (proj2 (stbo_greedy_acceptance (env_of first_element [])
                         (default_config 1 (-1)) (stbo_state_of 1 2 0 3) 0
                         (rows_ok_two_scalars 1 2) (rows_ok_two_scalars 0 3)
                         eq_refl (Nat.lt_0_succ 1)))).
Defined.

(** ** The imitation phase, position by position *)

Lemma tf_round_near x : x - 1/2 <= IZR (tf_round x) <= x + 1/2.
Proof.
  unfold tf_round.
  pose proof (Rplus_Int_part_frac_part x) as Hx.
  pose proof (base_fp x) as [Hf0 Hf1].
  destruct (Rlt_dec (frac_part x) (1/2)); [lra|].
  destruct (Rlt_dec (1/2) (frac_part x)); [rewrite plus_IZR; lra|].
  destruct (Z.even (Int_part x)); [lra|rewrite plus_IZR; lra].
Qed.

Lemma Int_part_IZR z : Int_part (IZR z) = z.
Proof.
  symmetry. apply Int_part_spec. generalize (IZR z). intros r. split; lra.
Qed.

Lemma tf_round_IZR z : tf_round (IZR z) = z.
Proof.
  unfold tf_round, frac_part. rewrite Int_part_IZR.
  replace (IZR z - IZR z) with 0 by ring.
  destruct (Rlt_dec 0 (1/2)); [reflexivity|lra].
Qed.

Lemma nth_flatten n sz (x : slot) i j :
  slot_ok n sz x -> (i < n)%nat -> (j < sz)%nat ->
  nth (i * sz + j) (flatten x) 0 = nth j (row i x) 0.
Proof.
  unfold flatten, row. revert n i.
  induction x as [|r t IH]; intros n i [Hl Hr] Hi Hj.
  - simpl in Hl. lia.
  - destruct n as [|n]; [lia|]. simpl in Hl.
    pose proof (Hr O ltac:(lia)) as H0. simpl in H0.
    destruct i as [|i]; simpl.
    + unfold tensor in *. rewrite app_nth1 by lia. reflexivity.
    + unfold tensor in *. rewrite app_nth2 by lia.
      replace (sz + i * sz + j - length r)%nat with (i * sz + j)%nat by lia.
      apply (IH n);
        [split; [exact (eq_add_S _ _ Hl)|intros k Hk; apply (Hr (S k)); lia]
        | lia | lia].
Qed.

Lemma nth_reshape n sz (flat : tensor) i j :
  length flat = (n * sz)%nat -> (i < n)%nat -> (j < sz)%nat ->
  nth j (row i (reshape n sz flat)) 0 = nth (i * sz + j) flat 0.
Proof.
  unfold row. revert flat i.
  induction n as [|n IH]; intros flat i Hl Hi Hj; [lia|].
  simpl in Hl. simpl. destruct i as [|i].
  - simpl. rewrite <- (firstn_skipn sz flat) at 2.
    rewrite app_nth1; [reflexivity|]. rewrite length_firstn. lia.
  - rewrite IH; [| rewrite length_skipn; lia | lia | lia].
    rewrite <- (firstn_skipn sz flat) at 2.
    rewrite app_nth2; rewrite length_firstn; [|lia].
    f_equal. lia.
Qed.

Lemma nth_scatter_out g idx (xf : tensor) p :
  ~ In p idx ->
  nth p (Stbo.tensor_scatter_nd_update xf idx (map g idx)) 0 = nth p xf 0.
Proof.
  unfold Stbo.tensor_scatter_nd_update. revert xf.
  induction idx as [|i t IH]; intros xf Hn; simpl; [reflexivity|].
  rewrite IH by (intros H; apply Hn; now right).
  apply nth_set_row_neq. intros ->. apply Hn. now left.
Qed.

Lemma nth_scatter_in g idx (xf : tensor) p :
  In p idx -> (p < length xf)%nat ->
  nth p (Stbo.tensor_scatter_nd_update xf idx (map g idx)) 0 = g p.
Proof.
  revert xf. induction idx as [|i t IH]; intros xf Hin Hp; [destruct Hin|].
  destruct (in_dec Nat.eq_dec p t) as [Ht|Ht].
  - change (Stbo.tensor_scatter_nd_update xf (i :: t) (map g (i :: t)))
      with (Stbo.tensor_scatter_nd_update (set_row i (g i) xf) t (map g t)).
    apply IH; [exact Ht|]. now rewrite set_row_length.
  - destruct Hin as [->|Hin]; [|contradiction].
    change (Stbo.tensor_scatter_nd_update xf (p :: t) (map g (p :: t)))
      with (Stbo.tensor_scatter_nd_update (set_row p (g p) xf) t (map g t)).
    rewrite nth_scatter_out by exact Ht.
    now apply nth_set_row_eq.
Qed.

Lemma NoDup_firstn {A} n (l : list A) : NoDup l -> NoDup (firstn n l).
Proof.
  intros H. rewrite <- (firstn_skipn n l) in H.
  exact (NoDup_app_remove_r _ _ H).
Qed.

Lemma gather_slot_ok n sz (x : slot) SIv :
  slot_ok n sz x -> length SIv = n ->
  (forall i, (i < n)%nat -> (nth i SIv O < n)%nat) ->
  slot_ok n sz (gather x SIv).
Proof.
  intros [Hl Hr] Hlen Hb. split.
  - unfold gather. now rewrite length_map.
  - intros r Hrn. unfold gather.
    rewrite (nth_map_lt _ _ _ _ O) by lia.
    apply Hr. now apply Hb.
Qed.

Lemma ms_of_positive g T m : 0 < T -> (1 <= Stbo.ms_of g T m)%Z.
Proof.
  intros HT. unfold Stbo.ms_of.
  set (x := 1 + INR g / (2 * T) * INR m).
  pose proof (tf_round_near x) as [Hlo _].
  pose proof (pos_INR g) as Hg0. pose proof (pos_INR m) as Hm0.
  assert (Hq : 0 <= INR g / (2 * T)).
  { apply Rmult_le_pos; [exact Hg0|]. left. apply Rinv_0_lt_compat. lra. }
  assert (Hx : 1 <= x) by (unfold x; nra).
  assert (H : (0 < tf_round x)%Z) by (apply lt_IZR; lra). lia.
Qed.

Lemma slice_to_firstn {A} (ms : Z) (l : list A) :
  exists len, Stbo.slice_to ms l = firstn len l
              /\ ((0 <= ms)%Z -> len = Z.to_nat ms).
Proof.
  unfold Stbo.slice_to. destruct (Z.leb_spec 0 ms) as [H|H].
  - exists (Z.to_nat ms). now split.
  - exists (length l - Z.to_nat (- ms))%nat. split; [reflexivity|lia].
Qed.

Lemma eq_4_one_two : Stbo.eq_4 [1; 2] 0 = [O] /\ Stbo.eq_4 [1; 2] 1 = [O].
Proof.
  unfold Stbo.eq_4. simpl. unfold Rltb.
  repeat match goal with
         | |- context [Rlt_dec ?a ?b] => destruct (Rlt_dec a b); try lra
         end; split; reflexivity.
Qed.

(** C3 fails as stated.  Two scalar individuals [1] and [2] with the
    fitness values [1] and [2]: [update_SI] gives both the instructor [0].
    In generation [0], with [T = 1] and the identity shuffle, [eq_7_and_8]
    counts [m = 2] elements (the whole variable), selects [ms = 1] flat
    position of the variable, position [0], and so overwrites the element
    of individual [0] only: individual [1] keeps its value [2], where the
    specification has it take one element, i.e. its only one, from its
    instructor. *)
Lemma imitation_is_not_per_individual :
  let env := env_of first_element [] in
  let cfg := default_config 1 (-1) in
  let s := Stbo.update_SI (rnd env) 2 (stbo_state_of 1 2 1 2) in
  let x : slot := nth 0 (Stbo.X s) [] in
  let xp : slot := nth 0 (Stbo.XP (Stbo.eq_7_and_8 env cfg s)) [] in
  x = [[1]; [2]]
  /\ Stbo.F s = update_population_fitness env (Stbo.X s) 2
  /\ Stbo.SI s = [O; O] /\ Stbo.gen s = O
  /\ Stbo.size x = 2%nat
  /\ Stbo.SDi_of (rnd env) (Stbo.rng s) (Stbo.gen s) 1 (Stbo.size x) = [O]
  /\ xp = [[1]; [2]]
  /\ ~ spec_imitation (Stbo.gen s) 1 x (Stbo.SI s) xp 1.
Proof.
  intros env cfg s x xp.
  destruct eq_4_one_two as [E0 E1].
  assert (Es : s = Stbo.mk (two_scalars 1 2) [1; 2] [O; O] (two_scalars 1 2)
                     [1; 2] (Rmin 1 2) O 2 []).
  { unfold s, Stbo.update_SI. cbn [seq fold_left].
    unfold Stbo.update_SI_step, stbo_state_of.
    cbn [Stbo.F Stbo.SI Stbo.rng Stbo.with_SI Stbo.with_rng Stbo.X Stbo.XP
         Stbo.FP Stbo.best_fitness Stbo.gen Stbo.trace].
    rewrite E0, E1. reflexivity. }
  assert (Hms : Stbo.ms_of 0 1 2 = 1%Z).
  { unfold Stbo.ms_of. replace (1 + INR 0 / (2 * 1) * INR 2) with (IZR 1)
      by (simpl; lra). apply tf_round_IZR. }
  assert (Hx : x = [[1]; [2]]) by (unfold x; rewrite Es; reflexivity).
  assert (HSD : Stbo.SDi_of (rnd env) (Stbo.rng s) (Stbo.gen s) 1 (Stbo.size x)
                = [O]).
  { rewrite Hx, Es. change (Stbo.size [[1]; [2]]) with 2%nat.
    unfold Stbo.SDi_of. cbn [Stbo.gen]. rewrite Hms. reflexivity. }
  assert (Hxp : xp = [[1]; [2]]).
  { unfold xp, Stbo.eq_7_and_8. rewrite Es.
    cbn [Stbo.X Stbo.XP Stbo.rng Stbo.gen Stbo.SI two_scalars
         Stbo.assign_proposals].
    cbn [Stbo.with_XP Stbo.with_rng Stbo.XP nth].
    unfold Stbo.eq_7_and_8_slot.
    change (Stbo.size [[1]; [2]]) with 2%nat.
    unfold Stbo.SDi_of. change (IZR (generation_limit cfg)) with 1.
    rewrite Hms. reflexivity. }
  split; [exact Hx|]. split; [rewrite Es; reflexivity|].
  split; [rewrite Es; reflexivity|]. split; [rewrite Es; reflexivity|].
  split; [rewrite Hx; reflexivity|]. split; [exact HSD|].
  split; [exact Hxp|].
  rewrite Hxp, Hx. replace (Stbo.gen s) with O by (rewrite Es; reflexivity).
  replace (Stbo.SI s) with [O; O] by (rewrite Es; reflexivity).
  intros (SD & Hnd & Hlen & Hb & Hin & Hout).
  change (length (row 1 [[1]; [2]])) with 1%nat in Hlen, Hb.
  replace (1 + INR 0 / (2 * 1) * INR 1) with (IZR 1) in Hlen by (simpl; lra).
  rewrite tf_round_IZR in Hlen.
  destruct SD as [|j [|j' t]]; try discriminate.
  pose proof (Hb j ltac:(now left)) as Hj.
  assert (j = O) by lia. subst j.
  specialize (Hin O ltac:(now left)). unfold row in Hin. simpl in Hin. lra.
Qed.

(** C3, amended.  For a variable [x] of [n] rows of [sz] elements,
    [eq_7_and_8] counts [m = n*sz] elements, those of the whole variable,
    and draws one selection [SDi] for it: for every value [ms] of the
    count, the first [min ms m] entries of one shuffle of [0..m-1],
    pairwise different.  Element [j] of individual [i] of the proposal, at
    flat position [i*sz + j], is the instructor's element [j] when that
    position is selected, and the individual's own in [X] otherwise.  For
    [0 < T] the count is at least [1], and with
    [ms = round(1 + gen/(2T) * m)] in exact arithmetic this is the proposal
    of the engine. *)
Theorem imitation_positions rs k (ms : Z) SIv n sz (x : slot) :
  random_source_ok rs -> slot_ok n sz x -> length SIv = n ->
  (forall i, (i < n)%nat -> (nth i SIv O < n)%nat) ->
  let m := (n * sz)%nat in
  let SDi := Stbo.slice_to ms (shuffle rs k (seq 0 (Stbo.size x))) in
  let xp := Stbo.eq_7_and_8_slot_at rs k ms SIv x in
  Stbo.size x = m
  /\ NoDup SDi /\ (forall p, In p SDi -> (p < m)%nat)
  /\ ((0 <= ms)%Z -> length SDi = Nat.min (Z.to_nat ms) m)
  /\ slot_ok n sz xp
  /\ (forall i j, (i < n)%nat -> (j < sz)%nat ->
        (In (i * sz + j)%nat SDi ->
         nth j (row i xp) 0 = nth j (row (nth i SIv O) x) 0)
        /\ (~ In (i * sz + j)%nat SDi ->
            nth j (row i xp) 0 = nth j (row i x) 0))
  /\ (forall g T, 0 < T -> ms = Stbo.ms_of g T (Stbo.size x) ->
        (1 <= ms)%Z /\ Stbo.eq_7_and_8_slot rs k g T SIv x = xp).
Proof.
  intros Hrs Hx Hlen Hb m SDi xp.
  pose proof (slot_ok_size _ _ _ Hx) as Hsz. fold m in Hsz.
  assert (Hperm : Permutation (shuffle rs k (seq 0 m)) (seq 0 m))
    by apply Hrs.
  destruct (slice_to_firstn ms (shuffle rs k (seq 0 m))) as (len & Elen & Hlen0).
  assert (ESD : SDi = firstn len (shuffle rs k (seq 0 m))).
  { unfold SDi. rewrite Hsz. exact Elen. }
  split; [exact Hsz|]. rewrite ESD.
  split.
  { apply NoDup_firstn. apply (Permutation_NoDup (Permutation_sym Hperm)).
    apply seq_NoDup. }
  split.
  { intros p Hp. apply In_firstn in Hp.
    apply (Permutation_in _ Hperm) in Hp. apply in_seq in Hp. lia. }
  split.
  { intros Hms. rewrite (Hlen0 Hms).
    rewrite length_firstn, (Permutation_length Hperm), length_seq.
    reflexivity. }
  assert (Hxp : xp = reshape (length x) (Stbo.row_size x)
                  (Stbo.tensor_scatter_nd_update (flatten x)
                     (firstn len (shuffle rs k (seq 0 m)))
                     (map (fun q => nth q (flatten (gather x SIv)) 0)
                          (firstn len (shuffle rs k (seq 0 m)))))).
  { unfold xp, Stbo.eq_7_and_8_slot_at. rewrite Hsz, Elen. reflexivity. }
  split.
  { rewrite Hxp. destruct Hx as [Hl Hr]. rewrite Hl.
    destruct n as [|n'].
    - apply slot_ok_zero. apply reshape_length.
    - rewrite (slot_ok_row_size (S n') sz x) by (try split; auto; lia).
      apply reshape_ok. rewrite tensor_scatter_nd_update_length. exact Hsz. }
  split.
  { intros i j Hi Hj.
    assert (Hxp' : xp = reshape n sz
                    (Stbo.tensor_scatter_nd_update (flatten x)
                       (firstn len (shuffle rs k (seq 0 m)))
                       (map (fun q => nth q (flatten (gather x SIv)) 0)
                            (firstn len (shuffle rs k (seq 0 m)))))).
    { rewrite Hxp. destruct Hx as [Hl Hr]. rewrite Hl.
      rewrite (slot_ok_row_size n sz x) by (try split; auto; lia).
      reflexivity. }
    assert (Hpos : (i * sz + j < length (flatten x))%nat).
    { change (length (flatten x)) with (Stbo.size x). rewrite Hsz.
      unfold m. nia. }
    rewrite Hxp'.
    rewrite nth_reshape;
      [| rewrite tensor_scatter_nd_update_length; exact Hsz | exact Hi | exact Hj].
    split; intros Hsel.
    - rewrite (nth_scatter_in (fun q => nth q (flatten (gather x SIv)) 0))
        by assumption.
      rewrite (nth_flatten n sz (gather x SIv) i j
                 (gather_slot_ok n sz x SIv Hx Hlen Hb) Hi Hj).
      unfold row at 1, gather. rewrite (nth_map_lt _ _ _ _ O) by lia.
      reflexivity.
    - rewrite nth_scatter_out by assumption.
      exact (nth_flatten n sz x i j Hx Hi Hj). }
  intros g T HT Hms.
  pose proof (ms_of_positive g T (Stbo.size x) HT) as H1. rewrite <- Hms in H1.
  split; [exact H1|].
  unfold xp, Stbo.eq_7_and_8_slot, Stbo.eq_7_and_8_slot_at, Stbo.SDi_of,
    Stbo.slice_to.
  rewrite <- Hms.
  destruct (Z.leb_spec 0 ms) as [_|H]; [reflexivity|lia].
Qed.

Lemma imitation_positions_witness :
  slot_ok 2 1 (Stbo.eq_7_and_8_slot_at half_rnd 0 1 [O; O] [[1]; [2]])
  /\ Stbo.eq_7_and_8_slot half_rnd 0 0 1 [O; O] [[1]; [2]]
     = Stbo.eq_7_and_8_slot_at half_rnd 0 1 [O; O] [[1]; [2]].
Proof.
  assert (Hx : slot_ok 2 1 [[1]; [2]]).
  { split; [reflexivity|]. intros [|[|r]] Hr; simpl; auto; lia. }
  assert (Hb : forall i, (i < 2)%nat -> (nth i [O; O] O < 2)%nat).
  { intros [|[|i]] Hi; simpl; lia. }
  assert (Hms : 1%Z = Stbo.ms_of 0 1 (Stbo.size [[1]; [2]])).
  { unfold Stbo.ms_of. change (Stbo.size [[1]; [2]]) with 2%nat.
    replace (1 + INR 0 / (2 * 1) * INR 2) with (IZR 1) by (simpl; lra).
    symmetry. apply tf_round_IZR. }
  destruct (imitation_positions half_rnd 0 1 [O; O] 2 1 [[1]; [2]]
              half_rnd_ok Hx eq_refl Hb) as (_ & _ & _ & _ & Hok & _ & Hlink).
  split; [exact Hok|].
  exact (proj2 (Hlink O 1 Rlt_0_1 Hms)).
Defined.

(** ** Division by zero in [eq_10] and in Eq. (15) *)

Lemma nth_map_seq (f : nat -> R) m p :
  (p < m)%nat -> nth p (map f (seq 0 m)) 0 = f p.
Proof.
  intros H. rewrite (nth_map_lt _ _ _ _ O) by now rewrite length_seq.
  now rewrite seq_nth.
Qed.

Lemma flat_position n sz i j : (i < n)%nat -> (j < sz)%nat -> (i * sz + j < n * sz)%nat.
Proof. intros Hi Hj. nia. Qed.

Lemma nth_tabulate_like n sz x f i j :
  slot_ok n sz x -> (i < n)%nat -> (j < sz)%nat ->
  nth j (row i (Stbo.tabulate_like x f)) 0 = f (i * sz + j)%nat.
Proof.
  intros Hx Hi Hj. unfold Stbo.tabulate_like.
  pose proof (slot_ok_size _ _ _ Hx) as Hsz.
  rewrite (slot_ok_row_size n sz x Hx) by lia.
  destruct Hx as [Hl Hr]. rewrite Hl, Hsz.
  rewrite nth_reshape; [|now rewrite length_map, length_seq|exact Hi|exact Hj].
  apply nth_map_seq. now apply flat_position.
Qed.

Lemma nth_random_uniform_tensor rs k n p lo hi :
  (p < n)%nat ->
  nth p (random_uniform_tensor rs k n lo hi) 0 = random_uniform rs (k + p) lo hi.
Proof. intros H. unfold random_uniform_tensor. now apply nth_map_seq. Qed.








Lemma stbo_init_some env cfg :
  stbo_setting_ok env cfg -> exists s0, Stbo.init env cfg = Some s0.
Proof.
  intros H.
  destruct (stbo_completes env cfg (S (Z.to_nat (generation_limit cfg + 1))) H
              ltac:(lia)) as (s0 & _ & E & _).
  now exists s0.
Qed.


(** * Further properties of the engines *)

(** ** STBO: the training instructors ([eq_4], [update_SI]) *)

Lemma eq_4_filter Fv index j :
  In j (filter (fun j => Rltb (nth j Fv 0) (nth index Fv 0)) (seq 0 (length Fv)))
  <-> (j < length Fv)%nat /\ nth j Fv 0 < nth index Fv 0.
Proof.
  rewrite filter_In, in_seq, Rltb_true. split; intros [H1 H2]; split; auto; lia.
Qed.

(** X1.  The candidate instructors of member [index] are the members of strictly
    smaller fitness; a member that nobody beats is its own only candidate.
    The list is never empty. *)
Theorem eq_4_candidates (Fv : list R) (index : nat) :
  (index < length Fv)%nat ->
  let CSI := Stbo.eq_4 Fv index in
  CSI <> []
  /\ (forall j, In j CSI -> (j < length Fv)%nat /\ nth j Fv 0 <= nth index Fv 0)
  /\ ((exists k, (k < length Fv)%nat /\ nth k Fv 0 < nth index Fv 0) ->
      forall j, In j CSI <-> (j < length Fv)%nat /\ nth j Fv 0 < nth index Fv 0)
  /\ ((forall k, (k < length Fv)%nat -> nth index Fv 0 <= nth k Fv 0) ->
      CSI = [index]).
Proof.
  intros Hi CSI. unfold CSI, Stbo.eq_4.
  pose proof (eq_4_filter Fv index) as Hf.
  destruct (filter _ (seq 0 (length Fv))) as [|c t] eqn:E.
  - split; [discriminate|]. split.
    { intros j [<-|[]]. split; [exact Hi|lra]. }
    split.
    { intros (k & Hk & Hlt). exfalso. apply (proj2 (Hf k)). now split. }
    reflexivity.
  - split; [discriminate|]. split.
    { intros j Hj. apply Hf in Hj. destruct Hj. split; [assumption|lra]. }
    split.
    { intros _ j. apply Hf. }
    intros Hmin. exfalso.
    destruct (proj1 (Hf c) ltac:(now left)) as [Hc Hlt].
    specialize (Hmin c Hc). lra.
Qed.

Lemma eq_4_candidates_witness :
  Stbo.eq_4 [1; 2] 0 = [O].
Proof.
  apply (eq_4_candidates [1; 2] 0 (Nat.lt_0_succ 1)).
  intros [|[|k]] Hk; simpl in *; try lra; lia.
Defined.

Lemma eq_4_nonempty Fv index : Stbo.eq_4 Fv index <> [].
Proof.
  unfold Stbo.eq_4. destruct (filter _ (seq 0 (length Fv))); discriminate.
Qed.

(** One pass of the loop of [update_SI] writes a candidate of [eq_4] into
    [SI[i]]. *)
Lemma update_SI_step_facts rs s i :
  let s' := Stbo.update_SI_step rs s i in
  Stbo.F s' = Stbo.F s /\ Stbo.X s' = Stbo.X s /\ Stbo.XP s' = Stbo.XP s
  /\ Stbo.FP s' = Stbo.FP s /\ Stbo.rng s' = S (Stbo.rng s)
  /\ length (Stbo.SI s') = length (Stbo.SI s)
  /\ (forall r, r <> i -> nth r (Stbo.SI s') O = nth r (Stbo.SI s) O)
  /\ ((i < length (Stbo.SI s))%nat ->
      In (nth i (Stbo.SI s') O) (Stbo.eq_4 (Stbo.F s) i)).
Proof.
  unfold Stbo.update_SI_step. stbo_fields.
  repeat (split; [reflexivity|]).
  split; [apply set_row_length|].
  split; [intros r Hr; apply nth_set_row_neq; congruence|].
  intros Hi. rewrite nth_set_row_eq by exact Hi.
  apply nth_In. unfold random_uniform_int.
  rewrite Nat.sub_0_r, Nat.add_0_l. apply Nat.mod_upper_bound.
  intros H. apply length_zero_iff_nil in H.
  exact (eq_4_nonempty (Stbo.F s) i H).
Qed.

Lemma update_SI_fold rs l s :
  NoDup l -> (forall i, In i l -> (i < length (Stbo.SI s))%nat) ->
  let s' := fold_left (Stbo.update_SI_step rs) l s in
  Stbo.F s' = Stbo.F s /\ Stbo.X s' = Stbo.X s /\ Stbo.XP s' = Stbo.XP s
  /\ Stbo.FP s' = Stbo.FP s /\ Stbo.rng s' = (Stbo.rng s + length l)%nat
  /\ length (Stbo.SI s') = length (Stbo.SI s)
  /\ (forall r, ~ In r l -> nth r (Stbo.SI s') O = nth r (Stbo.SI s) O)
  /\ (forall i, In i l -> In (nth i (Stbo.SI s') O) (Stbo.eq_4 (Stbo.F s) i)).
Proof.
  revert s. induction l as [|a l IH]; intros s Hnd Hb; simpl.
  - repeat (split; [reflexivity|]). split; [lia|].
    split; [reflexivity|]. split; [reflexivity|]. intros i [].
  - inversion Hnd as [|? ? Ha Hnd']; subst.
    destruct (update_SI_step_facts rs s a)
      as (A1 & A2 & A3 & A4 & A5 & A6 & A7 & A8).
    destruct (IH (Stbo.update_SI_step rs s a) Hnd')
      as (B1 & B2 & B3 & B4 & B5 & B6 & B7 & B8).
    { intros i Hi. rewrite A6. apply Hb. now right. }
    split; [congruence|]. split; [congruence|]. split; [congruence|].
    split; [congruence|]. split; [rewrite B5, A5; lia|].
    split; [congruence|]. split.
    + intros r Hr. rewrite B7 by (intros H; apply Hr; now right).
      apply A7. intros ->. apply Hr. now left.
    + intros i [<-|Hi].
      * rewrite B7 by exact Ha. apply A8. apply Hb. now left.
      * rewrite <- A1. now apply B8.
Qed.

(** X2.  After [update_SI] every member has a valid instructor: an index below
    [N] whose fitness is strictly smaller than the member's own, or the
    member itself when no member is strictly better.  The call writes [SI]
    and draws [N] random numbers; the populations and the fitness vectors
    stay as they are. *)
Theorem update_SI_instructors (rs : random_source) (N : nat) (s : Stbo.state) :
  length (Stbo.F s) = N -> length (Stbo.SI s) = N ->
  let s' := Stbo.update_SI rs N s in
  Stbo.X s' = Stbo.X s /\ Stbo.F s' = Stbo.F s
  /\ Stbo.XP s' = Stbo.XP s /\ Stbo.FP s' = Stbo.FP s
  /\ Stbo.rng s' = (Stbo.rng s + N)%nat
  /\ length (Stbo.SI s') = N
  /\ forall i, (i < N)%nat ->
       let t := nth i (Stbo.SI s') O in
       (t < N)%nat
       /\ (t <> i -> nth t (Stbo.F s) 0 < nth i (Stbo.F s) 0)
       /\ (t = i -> forall k, (k < N)%nat ->
                    nth i (Stbo.F s) 0 <= nth k (Stbo.F s) 0).
Proof.
  intros HF HSI s'.
  destruct (update_SI_fold rs (seq 0 N) s (seq_NoDup N 0))
    as (B1 & B2 & B3 & B4 & B5 & B6 & B7 & B8).
  { intros i Hi. apply in_seq in Hi. lia. }
  fold (Stbo.update_SI rs N s) in B1, B2, B3, B4, B5, B6, B7, B8.
  fold s' in B1, B2, B3, B4, B5, B6, B7, B8.
  rewrite length_seq in B5.
  split; [exact B2|]. split; [exact B1|]. split; [exact B3|].
  split; [exact B4|]. split; [exact B5|]. split; [congruence|].
  intros i Hi t.
  assert (Hin : In t (Stbo.eq_4 (Stbo.F s) i)).
  { apply B8. apply in_seq. lia. }
  assert (Hidx : (i < length (Stbo.F s))%nat) by lia.
  destruct (eq_4_filter (Stbo.F s) i t) as [Hf1 Hf2].
  unfold Stbo.eq_4 in Hin.
  destruct (filter (fun j => Rltb (nth j (Stbo.F s) 0) (nth i (Stbo.F s) 0))
                   (seq 0 (length (Stbo.F s)))) as [|c l] eqn:E.
  - destruct Hin as [<-|[]]. split; [exact Hi|]. split; [congruence|].
    intros _ k Hk.
    destruct (Rlt_dec (nth k (Stbo.F s) 0) (nth i (Stbo.F s) 0)) as [Hlt|Hge];
      [|lra].
    exfalso.
    assert (Hk' : In k []).
    { rewrite <- E. apply eq_4_filter. split; [lia|exact Hlt]. }
    destruct Hk'.
  - destruct (Hf1 Hin) as [Ht Hlt]. split; [lia|]. split; [intros _; exact Hlt|].
    intros ->. lra.
Qed.

Lemma update_SI_instructors_witness :
  length (Stbo.SI (Stbo.update_SI half_rnd 2 (stbo_state_of 1 2 0 3))) = 2%nat.
Proof.
  exact (proj1 (proj2 (proj2 (proj2 (proj2 (proj2
           (update_SI_instructors half_rnd 2 (stbo_state_of 1 2 0 3)
              eq_refl eq_refl))))))).
Defined.

(** ** STBO: the initial population ([eq_2]) *)

Lemma Forall_firstn_R {A} (Q : A -> Prop) n l : Forall Q l -> Forall Q (firstn n l).
Proof.
  intros H. rewrite <- (firstn_skipn n l) in H. now apply Forall_app in H.
Qed.

Lemma Forall_skipn_R {A} (Q : A -> Prop) n l : Forall Q l -> Forall Q (skipn n l).
Proof.
  intros H. rewrite <- (firstn_skipn n l) in H. now apply Forall_app in H.
Qed.

Lemma Forall_reshape (Q : R -> Prop) n sz flat :
  Forall Q flat -> Forall (Forall Q) (reshape n sz flat).
Proof.
  revert flat. induction n as [|n IH]; intros flat H; simpl; constructor.
  - now apply Forall_firstn_R.
  - apply IH. now apply Forall_skipn_R.
Qed.

Lemma random_uniform_unit rs k :
  random_source_ok rs -> 0 <= random_uniform rs k 0 1 < 1.
Proof.
  intros Hrs. unfold random_uniform.
  pose proof (uniform01_range rs Hrs k). lra.
Qed.

Lemma Forall_random_uniform_tensor rs k n :
  random_source_ok rs ->
  Forall (fun u => 0 <= u < 1) (random_uniform_tensor rs k n 0 1).
Proof.
  intros Hrs. unfold random_uniform_tensor. apply Forall_map, Forall_forall.
  intros j _. now apply random_uniform_unit.
Qed.

Lemma eq_2_slots_bounds env cfg k weights :
  random_source_ok (rnd env) -> lb cfg <= ub cfg ->
  Forall (Forall (Forall (fun e => lb cfg <= e <= ub cfg)))
         (fst (Stbo.eq_2_slots env cfg k weights))
  /\ snd (Stbo.eq_2_slots env cfg k weights)
     = (k + Z.to_nat (population_size cfg) * length (concat weights))%nat.
Proof.
  intros Hrs Hb. revert k. induction weights as [|wt rest IH]; intros k.
  - simpl. split; [constructor|lia].
  - cbn [Stbo.eq_2_slots].
    destruct (IH (k + Z.to_nat (population_size cfg) * length wt)%nat) as [I1 I2].
    destruct (Stbo.eq_2_slots env cfg
                (k + Z.to_nat (population_size cfg) * length wt) rest)
      as [slots k'].
    cbn [fst snd] in *. split.
    + constructor; [|exact I1]. unfold Stbo.eq_2_slot.
      apply Forall_reshape, Forall_map.
      eapply Forall_impl; [|apply Forall_random_uniform_tensor; exact Hrs].
      cbv beta. intros u Hu. split; nra.
    + rewrite I2. cbn [concat]. rewrite length_app. lia.
Qed.

(** X3.  Without transfer learning the initial population is drawn inside the
    bounds: for [lb <= ub] every element of every individual lies in
    [[lb, ub]].  It has the shapes of the model weights, and the draw uses
    one random number per element. *)
Theorem eq_2_in_bounds (env : environment) (cfg : config) (X0 : population) (k : nat) :
  random_source_ok (rnd env) -> lb cfg <= ub cfg ->
  transfer_learning cfg = false ->
  Stbo.eq_2 env cfg = Some (X0, k) ->
  population_ok (shapes_of (model_weights cfg))
                (Z.to_nat (population_size cfg)) X0
  /\ Forall (Forall (Forall (fun e => lb cfg <= e <= ub cfg))) X0
  /\ k = (Z.to_nat (population_size cfg) * length (concat (model_weights cfg)))%nat.
Proof.
  intros Hrs Hb Htl. unfold Stbo.eq_2. rewrite Htl.
  destruct (population_size cfg <? 0)%Z; [discriminate|].
  intros [= E].
  destruct (eq_2_slots_bounds env cfg 0 (model_weights cfg) Hrs Hb) as [B1 B2].
  pose proof (eq_2_slots_ok env cfg 0 (model_weights cfg)) as Hok.
  destruct (Stbo.eq_2_slots env cfg 0 (model_weights cfg)) as [X1 k1].
  injection E as -> ->. cbn [fst snd] in *.
  split; [exact Hok|]. split; [exact B1|exact B2].
Qed.

Lemma eq_2_in_bounds_witness :
  exists X0 k,
    Stbo.eq_2 (env_of first_element []) (default_config 1 (-1)) = Some (X0, k)
    /\ k = 2%nat.
Proof.
  destruct (Stbo.eq_2 (env_of first_element []) (default_config 1 (-1)))
    as [[X0 k]|] eqn:E; [|discriminate].
  exists X0, k. split; [reflexivity|].
  apply (eq_2_in_bounds (env_of first_element []) (default_config 1 (-1)) X0 k
           half_rnd_ok ltac:(simpl; lra) eq_refl E).
Defined.

(** ** STBO: the proposals of the training and practice phases ([eq_5], [eq_10]) *)

(** X4.  Element [j] of the proposal of member [i] in the training phase is
    [x + r * (g - I * x)], where [x] is the member's own element, [g] that
    of its instructor, [r] a uniform draw of [[0, 1)] and [I] an integer
    draw that is [1] or [2]; both draws are made per element. *)
Theorem eq_5_elements (rs : random_source) (k : nat) (SIv : list nat)
    (n sz : nat) (x : slot) (i j : nat) :
  random_source_ok rs -> slot_ok n sz x -> length SIv = n ->
  (forall i, (i < n)%nat -> (nth i SIv O < n)%nat) ->
  (i < n)%nat -> (j < sz)%nat ->
  let p := (i * sz + j)%nat in
  let r := random_uniform rs (k + p) 0 1 in
  let I := INR (random_uniform_int rs (k + n * sz + p) 1 3) in
  nth j (row i (Stbo.eq_5_slot rs k SIv x)) 0
  = nth j (row i x) 0
    + r * (nth j (row (nth i SIv O) x) 0 - I * nth j (row i x) 0)
  /\ 0 <= r < 1 /\ (I = 1 \/ I = 2)
  /\ slot_ok n sz (Stbo.eq_5_slot rs k SIv x).
Proof.
  intros Hrs Hx Hlen Hb Hi Hj p r I.
  pose proof (slot_ok_size _ _ _ Hx) as Hsz.
  pose proof (flat_position n sz i j Hi Hj) as Hp. fold p in Hp.
  split; [|split; [|split]].
  - unfold Stbo.eq_5_slot. rewrite (nth_tabulate_like n sz x _ i j Hx Hi Hj).
    fold p. rewrite Hsz.
    rewrite nth_random_uniform_tensor by exact Hp.
    rewrite nth_map_seq by exact Hp.
    unfold I, r, p.
    rewrite (nth_flatten n sz x i j Hx Hi Hj).
    rewrite (nth_flatten n sz (gather x SIv) i j
               (gather_slot_ok n sz x SIv Hx Hlen Hb) Hi Hj).
    unfold row at 2, gather. rewrite (nth_map_lt _ _ _ _ O) by lia.
    reflexivity.
  - now apply random_uniform_unit.
  - unfold I, random_uniform_int. change (3 - 1)%nat with 2%nat.
    pose proof (Nat.mod_upper_bound (random_int rs (k + n * sz + p)) 2
                  ltac:(discriminate)) as Hm.
    destruct (random_int rs (k + n * sz + p) mod 2) as [|[|m]]; [left|right|lia].
    + reflexivity.
    + simpl. lra.
  - unfold Stbo.eq_5_slot. now apply tabulate_like_ok.
Qed.

Lemma eq_5_elements_witness :
  slot_ok 2 1 (Stbo.eq_5_slot half_rnd 0 [1%nat; O] [[1]; [2]]).
Proof.
  assert (Hx : slot_ok 2 1 [[1]; [2]]).
  { split; [reflexivity|]. intros [|[|r]] Hr; simpl; auto; lia. }
  assert (Hb : forall i, (i < 2)%nat -> (nth i [1%nat; O] O < 2)%nat).
  { intros [|[|i]] Hi; simpl; lia. }
  exact (proj2 (proj2 (proj2
           (eq_5_elements half_rnd 0 [1%nat; O] 2 1 [[1]; [2]] 0 0
              half_rnd_ok Hx eq_refl Hb (Nat.lt_0_succ 1) (Nat.lt_0_succ 0))))).
Defined.

Lemma clip_by_value_bounds t lo hi :
  (lo <= hi -> lo <= clip_by_value t lo hi <= hi)
  /\ (hi < lo -> clip_by_value t lo hi = lo).
Proof.
  unfold clip_by_value, Rmax, Rmin.
  destruct (Rle_dec t hi); destruct (Rle_dec _ lo); split; intros; lra.
Qed.

(** X5.  Element [j] of the proposal of member [i] in the practice phase is
    [clip(x + (lb + r*(ub - lb)) / gen, lb, ub)] with one uniform draw [r]
    per element.  From generation [1] on it lies in [[lb, ub]] when
    [lb <= ub]; with inverted bounds ([ub < lb]) it is [lb], whatever the
    member was. *)
Theorem eq_10_elements (rs : random_source) (k : nat) (lo hi : R) (g : nat)
    (n sz : nat) (x : slot) (i j : nat) :
  slot_ok n sz x -> (0 < g)%nat -> (i < n)%nat -> (j < sz)%nat ->
  let r := random_uniform rs (k + (i * sz + j)) 0 1 in
  let e := nth j (row i (Stbo.eq_10_slot rs k lo hi g x)) 0 in
  e = clip_by_value (nth j (row i x) 0 + (lo + r * (hi - lo)) / INR g) lo hi
  /\ (lo <= hi -> lo <= e <= hi)
  /\ (hi < lo -> e = lo)
  /\ slot_ok n sz (Stbo.eq_10_slot rs k lo hi g x).
Proof.
  intros Hx Hg Hi Hj r e.
  pose proof (slot_ok_size _ _ _ Hx) as Hsz.
  pose proof (flat_position n sz i j Hi Hj) as Hp.
  assert (He : e = clip_by_value
                     (nth j (row i x) 0 + (lo + r * (hi - lo)) / INR g) lo hi).
  { unfold e, Stbo.eq_10_slot.
    rewrite (nth_tabulate_like n sz x _ i j Hx Hi Hj). rewrite Hsz.
    rewrite nth_random_uniform_tensor by exact Hp.
    rewrite (nth_flatten n sz x i j Hx Hi Hj). reflexivity. }
  split; [exact He|]. rewrite He.
  split; [apply clip_by_value_bounds|].
  split; [apply clip_by_value_bounds|].
  unfold Stbo.eq_10_slot. now apply tabulate_like_ok.
Qed.

Lemma eq_10_elements_witness :
  slot_ok 2 1 (Stbo.eq_10_slot half_rnd 0 (-1) 1 1 [[1]; [2]]).
Proof.
  assert (Hx : slot_ok 2 1 [[1]; [2]]).
  { split; [reflexivity|]. intros [|[|r]] Hr; simpl; auto; lia. }
  exact (proj2 (proj2 (proj2
           (eq_10_elements half_rnd 0 (-1) 1 1 2 1 [[1]; [2]] 0 0
              Hx (Nat.lt_0_succ 0) (Nat.lt_0_succ 1) (Nat.lt_0_succ 0))))).
Defined.

(** ** STBO: accepting twice ([update_improved_positions]) *)

Lemma where_rows_none {A} (improved : list bool) (xp x : list A) :
  (forall i, (i < length x)%nat -> nth i improved false = false) ->
  length improved = length x -> length xp = length x ->
  Stbo.where_rows improved xp x = x.
Proof.
  unfold Stbo.where_rows. revert xp x.
  induction improved as [|b t IH]; intros [|p xp] [|c x] Hf Hl1 Hl2;
    simpl in *; try discriminate; try reflexivity.
  rewrite (Hf O ltac:(lia)). f_equal.
  apply IH; [|lia|lia]. intros i Hi. apply (Hf (S i)). lia.
Qed.

Lemma rows_ok_where (improved : list bool) (XPs Xs : population) N :
  length improved = N -> rows_ok N XPs -> rows_ok N Xs ->
  rows_ok N (zip_with (Stbo.where_rows improved) XPs Xs).
Proof.
  intros Hl HXP. revert Xs. unfold rows_ok in *.
  induction HXP as [|xp XPs Hxp HXP IH]; intros Xs HX; simpl; [constructor|].
  destruct HX as [|x Xs Hx HX]; constructor.
  - now apply where_rows_length.
  - now apply IH.
Qed.

Lemma zip_where_none (improved : list bool) (XPs Xs : population) N :
  (forall i, (i < N)%nat -> nth i improved false = false) ->
  length improved = N -> rows_ok N XPs -> rows_ok N Xs ->
  length XPs = length Xs ->
  zip_with (Stbo.where_rows improved) XPs Xs = Xs.
Proof.
  intros Hf Hl HXP. revert Xs. unfold rows_ok in *.
  induction HXP as [|xp XPs Hxp HXP IH]; intros Xs HX Hlen.
  - destruct Xs; [reflexivity|discriminate].
  - destruct HX as [|x Xs Hx HX]; [discriminate|]. simpl. f_equal.
    + apply where_rows_none; [|congruence|congruence].
      intros i Hi. apply Hf. congruence.
    + apply IH; [exact HX|]. simpl in Hlen. lia.
Qed.

(** X6.  Accepting a second time changes nothing: after
    [update_improved_positions] no proposal is strictly better than the
    member it was offered to, so a second call leaves the population and its
    fitness vector as they are (it evaluates both populations again). *)
Theorem update_improved_positions_idempotent (env : environment) (cfg : config)
    (s : Stbo.state) :
  let N := Z.to_nat (population_size cfg) in
  rows_ok N (Stbo.X s) -> rows_ok N (Stbo.XP s) ->
  length (Stbo.XP s) = length (Stbo.X s) ->
  let s1 := Stbo.update_improved_positions env cfg s in
  let s2 := Stbo.update_improved_positions env cfg s1 in
  Stbo.X s2 = Stbo.X s1 /\ Stbo.F s2 = Stbo.F s1
  /\ Stbo.XP s2 = Stbo.XP s /\ Stbo.FP s2 = Stbo.FP s1
  /\ Stbo.trace s2
     = Stbo.trace s1 ++ [UpdatePopulationFitness (Stbo.F s1);
                         UpdatePopulationFitness (Stbo.FP s1)].
Proof.
  intros N HX HXP Hlen s1 s2.
  destruct (improved_positions_facts env cfg s)
    as (A1 & A2 & A3 & A4 & _).
  destruct (improved_positions_facts env cfg s1)
    as (B1 & B2 & B3 & B4 & _ & _ & _ & _ & B9).
  fold N in A1, A2, A4, B1, B2, B4, B9. fold s1 in A1, A2, A3, A4.
  fold s2 in B1, B2, B3, B4, B9.
  set (Fv := update_population_fitness env (Stbo.X s) N) in *.
  set (FPv := update_population_fitness env (Stbo.XP s) N) in *.
  assert (HX1 : rows_ok N (Stbo.X s1)).
  { rewrite A1. apply rows_ok_where; auto.
    rewrite zip_with_length. unfold Fv, FPv.
    rewrite !update_population_fitness_length. apply Nat.min_id. }
  assert (HF1 : update_population_fitness env (Stbo.X s1) N = Stbo.F s1).
  { apply (nth_ext _ _ 0 0).
    - rewrite update_population_fitness_length, A2. symmetry.
      apply where_rows_length; unfold Fv, FPv;
        rewrite ?zip_with_length, ?update_population_fitness_length;
        auto using Nat.min_id.
    - intros i Hi. rewrite update_population_fitness_length in Hi.
      rewrite nth_update_population_fitness by exact Hi.
      destruct (accept_pointwise env cfg s i HX HXP Hlen Hi) as (_ & _ & H).
      symmetry. exact H. }
  rewrite A3 in B1, B2, B4, B9. fold FPv in B1, B2, B4, B9.
  rewrite HF1 in B1, B2, B9.
  assert (Hnone : forall i, (i < N)%nat ->
            nth i (zip_with Rltb FPv (Stbo.F s1)) false = false).
  { intros i Hi.
    assert (HlF : length (Stbo.F s1) = N).
    { rewrite <- HF1. apply update_population_fitness_length. }
    rewrite (nth_zip_with _ _ _ _ _ 0 0)
      by (unfold FPv; rewrite ?update_population_fitness_length; lia).
    destruct (accept_pointwise env cfg s i HX HXP Hlen Hi) as (_ & H & _).
    fold s1 in H. rewrite H. unfold FPv.
    rewrite nth_update_population_fitness by exact Hi.
    apply Rltb_false. apply Rmin_r. }
  assert (HlF : length (Stbo.F s1) = N).
  { rewrite <- HF1. apply update_population_fitness_length. }
  assert (Hli : length (zip_with Rltb FPv (Stbo.F s1)) = N).
  { rewrite zip_with_length. unfold FPv.
    rewrite update_population_fitness_length, HlF. apply Nat.min_id. }
  split.
  { rewrite B1. apply (zip_where_none _ _ _ N); auto.
    rewrite A1, zip_with_length. unfold population, slot, tensor in *. lia. }
  split.
  { rewrite B2. apply where_rows_none.
    - intros i Hi. apply Hnone. lia.
    - lia.
    - unfold FPv. rewrite update_population_fitness_length. lia. }
  split; [congruence|]. split; [congruence|].
  rewrite B9, A4. reflexivity.
Qed.

Lemma update_improved_positions_idempotent_witness :
  Stbo.X (Stbo.update_improved_positions (env_of first_element [])
            (default_config 1 (-1))
            (Stbo.update_improved_positions (env_of first_element [])
               (default_config 1 (-1)) (stbo_state_of 1 2 0 3)))
  = Stbo.X (Stbo.update_improved_positions (env_of first_element [])
              (default_config 1 (-1)) (stbo_state_of 1 2 0 3)).
Proof.
  exact (proj1 (update_improved_positions_idempotent (env_of first_element [])
                  (default_config 1 (-1)) (stbo_state_of 1 2 0 3)
                  (rows_ok_two_scalars 1 2) (rows_ok_two_scalars 0 3) eq_refl)).
Defined.

(** ** STBO: how many positions the imitation phase copies ([eq_7_and_8]) *)

Lemma SDi_of_length rs k g T m :
  random_source_ok rs ->
  length (Stbo.SDi_of rs k g T m) = Nat.min (Z.to_nat (Stbo.ms_of g T m)) m.
Proof.
  intros Hrs. unfold Stbo.SDi_of.
  rewrite length_firstn, (Permutation_length (shuffle_perm rs Hrs k (seq 0 m))).
  now rewrite length_seq.
Qed.

Lemma ms_of_bounds g T m :
  0 < T -> INR g <= T ->
  (1 <= Stbo.ms_of g T m)%Z /\ (2 * Stbo.ms_of g T m <= Z.of_nat m + 3)%Z.
Proof.
  intros HT Hg. unfold Stbo.ms_of.
  set (x := 1 + INR g / (2 * T) * INR m).
  pose proof (tf_round_near x) as [Hlo Hhi].
  pose proof (pos_INR g) as Hg0. pose proof (pos_INR m) as Hm0.
  assert (Hq : 0 <= INR g / (2 * T) <= 1 / 2).
  { split.
    - apply Rmult_le_pos; [exact Hg0|]. left. apply Rinv_0_lt_compat. lra.
    - apply (Rmult_le_reg_r (2 * T)); [lra|]. unfold Rdiv.
      rewrite Rmult_assoc, Rinv_l by lra. lra. }
  assert (Hx : 1 <= x <= 1 + INR m / 2).
  { unfold x. split; [|unfold Rdiv]; nra. }
  split.
  - assert (H : (0 < tf_round x)%Z) by (apply lt_IZR; lra). lia.
  - apply le_IZR. rewrite plus_IZR, mult_IZR, <- INR_IZR_INZ. lra.
Qed.

(** X7.  Inside the loop ([gen <= T], [0 < T]) the imitation phase overwrites
    at least one and at most [(m + 3) / 2] of the [m] elements of a
    variable, all at different positions; in generation [0] it overwrites
    exactly one element of the whole variable. *)
Theorem imitation_selection_size (rs : random_source) (k g : nat) (T : R)
    (n sz : nat) (x : slot) :
  random_source_ok rs -> slot_ok n sz x -> 0 < T -> INR g <= T ->
  (0 < n * sz)%nat ->
  let m := (n * sz)%nat in
  let SDi := Stbo.SDi_of rs k g T (Stbo.size x) in
  (1 <= length SDi <= m)%nat
  /\ (2 * length SDi <= m + 3)%nat
  /\ NoDup SDi
  /\ (g = O -> length SDi = 1%nat).
Proof.
  intros Hrs Hx HT Hg Hm m SDi.
  pose proof (slot_ok_size _ _ _ Hx) as Hsz. fold m in Hsz.
  unfold SDi. rewrite Hsz, SDi_of_length by exact Hrs.
  destruct (ms_of_bounds g T m HT Hg) as [H1 H2].
  split; [fold m in Hm; lia|]. split; [lia|]. split.
  - unfold Stbo.SDi_of. apply NoDup_firstn.
    apply (Permutation_NoDup (Permutation_sym (shuffle_perm rs Hrs k (seq 0 m)))).
    apply seq_NoDup.
  - intros ->. unfold Stbo.ms_of.
    replace (1 + INR 0 / (2 * T) * INR m) with (IZR 1)
      by (simpl; unfold Rdiv; ring).
    rewrite tf_round_IZR. fold m in Hm. simpl Z.to_nat. lia.
Qed.

Lemma imitation_selection_size_witness :
  NoDup (Stbo.SDi_of half_rnd 0 0 1 (Stbo.size [[1]; [2]])).
Proof.
  assert (Hx : slot_ok 2 1 [[1]; [2]]).
  { split; [reflexivity|]. intros [|[|r]] Hr; simpl; auto; lia. }
  exact (proj1 (proj2 (proj2
           (imitation_selection_size half_rnd 0 0 1 2 1 [[1]; [2]]
              half_rnd_ok Hx Rlt_0_1 ltac:(simpl; lra) (Nat.lt_0_succ 1))))).
Defined.

(** ** AVOA: the two best vultures ([update_best_vultures]) *)

Lemma insert_by_sorted key j l :
  sorted_by key l -> sorted_by key (insert_by key j l).
Proof.
  induction l as [|k t IH]; intros Hs; simpl.
  - split; [intros b []|exact I].
  - destruct Hs as [Hk Ht].
    destruct (Rlt_dec (key j) (key k)) as [Hlt|Hge]; simpl.
    + split; [|split; assumption].
      intros b [<-|Hb]; [lra|]. specialize (Hk b Hb). lra.
    + split; [|now apply IH].
      intros b Hb. apply (Permutation_in _ (insert_by_perm key j t)) in Hb.
      destruct Hb as [<-|Hb]; [lra|now apply Hk].
Qed.

Lemma argsort_sorted v : sorted_by (fun k => nth k v 0) (argsort v).
Proof.
  unfold argsort.
  assert (H : forall js acc, sorted_by (fun k => nth k v 0) acc ->
            sorted_by (fun k => nth k v 0)
              (fold_left (fun a j => insert_by (fun k => nth k v 0) j a) js acc)).
  { induction js as [|j t IH]; intros acc Hacc; simpl; [exact Hacc|].
    apply IH. now apply insert_by_sorted. }
  apply H. exact I.
Qed.

(** The first two entries of [argsort]: two different indices, the first
    of least key, the second of least key among the others. *)
Lemma argsort_two_least v :
  (2 <= length v)%nat ->
  exists a b rest,
    argsort v = a :: b :: rest
    /\ (a < length v)%nat /\ (b < length v)%nat /\ a <> b
    /\ (forall j, (j < length v)%nat -> nth a v 0 <= nth j v 0)
    /\ (forall j, (j < length v)%nat -> j <> a -> nth b v 0 <= nth j v 0).
Proof.
  intros Hlen.
  pose proof (argsort_perm v) as Hperm.
  pose proof (argsort_sorted v) as Hsort.
  pose proof (argsort_length v) as Hl.
  destruct (argsort v) as [|a [|b rest]]; simpl in Hl; try lia.
  exists a, b, rest. split; [reflexivity|].
  assert (Hnd : NoDup (a :: b :: rest)).
  { apply (Permutation_NoDup (Permutation_sym Hperm)). apply seq_NoDup. }
  assert (Hin : forall j, In j (a :: b :: rest) <-> (j < length v)%nat).
  { intros j. split; intros H.
    - apply (Permutation_in _ Hperm) in H. apply in_seq in H. lia.
    - apply (Permutation_in _ (Permutation_sym Hperm)). apply in_seq. lia. }
  destruct Hsort as [Ha [Hb _]].
  split; [apply Hin; now left|]. split; [apply Hin; right; now left|].
  inversion Hnd as [|? ? Hna _]; subst.
  split; [intros ->; apply Hna; now left|].
  split.
  - intros j Hj. apply Hin in Hj. destruct Hj as [<-|Hj]; [lra|now apply Ha].
  - intros j Hj Hne. apply Hin in Hj.
    destruct Hj as [<-|[<-|Hj]]; [congruence|lra|now apply Hb].
Qed.

(** X8.  With at least two vultures, [update_best_vultures] stores in every
    slot of [best_vultures] the rows of two different vultures: first one of
    least fitness, then one of least fitness among the others.  The
    population and the fitness values are not touched. *)
Theorem update_best_vultures_two_best (shapes : list nat) (N : nat) (s : Avoa.state) :
  avoa_shapes_ok shapes N s -> length (Avoa.fitness_values s) = N ->
  (2 <= N)%nat ->
  exists a b s',
    Avoa.update_best_vultures s = Some s'
    /\ (a < N)%nat /\ (b < N)%nat /\ a <> b
    /\ (forall j, (j < N)%nat ->
          nth a (Avoa.fitness_values s) 0 <= nth j (Avoa.fitness_values s) 0)
    /\ (forall j, (j < N)%nat -> j <> a ->
          nth b (Avoa.fitness_values s) 0 <= nth j (Avoa.fitness_values s) 0)
    /\ (forall k, (k < length shapes)%nat ->
          nth k (Avoa.best_vultures s') []
          = [row a (nth k (Avoa.P s) []); row b (nth k (Avoa.P s) [])])
    /\ Avoa.P s' = Avoa.P s
    /\ Avoa.fitness_values s' = Avoa.fitness_values s.
Proof.
  intros (HP & Hbv & _) Hfv HN.
  destruct (argsort_two_least (Avoa.fitness_values s) ltac:(lia))
    as (a & b & rest & E & Ha & Hb & Hab & Hmin & Hmin2).
  rewrite Hfv in Ha, Hb, Hmin, Hmin2.
  exists a, b. unfold Avoa.update_best_vultures. rewrite E.
  cbn [firstn length Nat.eqb]. eexists. split; [reflexivity|].
  avoa_fields.
  split; [exact Ha|]. split; [exact Hb|]. split; [exact Hab|].
  split; [exact Hmin|]. split; [exact Hmin2|].
  split; [|split; reflexivity].
  intros k Hk.
  destruct HP as [HlP _], Hbv as [Hlbv _].
  rewrite (nth_zip_with (fun _ p : slot => gather p [a; b])
             (Avoa.best_vultures s) (Avoa.P s) k [] [] []) by congruence.
  reflexivity.
Qed.

Lemma update_best_vultures_two_best_witness :
  exists a b s',
    Avoa.update_best_vultures (avoa_state_of (1/2) (-1/4)) = Some s'
    /\ (a < 2)%nat /\ (b < 2)%nat /\ a <> b.
Proof.
  destruct (update_best_vultures_two_best [1%nat] 2 (avoa_state_of (1/2) (-1/4))
              (avoa_state_of_ok _ _) eq_refl (Nat.le_refl 2))
    as (a & b & s' & E & Ha & Hb & Hab & _).
  exists a, b, s'. split; [exact E|]. split; [exact Ha|]. split; assumption.
Defined.

(** X9.  With a single vulture the two rows cannot be gathered: when the
    setup has gone through ([math.gamma] has returned inside
    [calculate_sigma()]), the assignment to [best_vultures] raises in the
    first generation, after the first evaluation of the population and
    before any status line. *)
Theorem avoa_single_vulture_raises (env : environment) (cfg : config) (fuel : nat) :
  population_size cfg = 1%Z -> model_weights cfg <> [] ->
  Avoa.calculate_sigma env cfg <> None ->
  (0 <= generation_limit cfg)%Z ->
  Avoa.avoa env cfg (S fuel)
  = Some (Raised [UpdatePopulationFitness
                    [model_fitness_fn env (individual (created_population env) 0)]]).
Proof.
  intros HN Hw Hsig HT. unfold Avoa.avoa, Avoa.init, create_population.
  rewrite HN. cbn [Z.leb Z.compare].
  destruct (model_weights cfg) as [|w0 ws] eqn:Ew; [congruence|].
  destruct (Avoa.calculate_sigma env cfg) as [sg|]; [|congruence].
  rewrite avoa_loop_step. avoa_fields.
  destruct (Z.leb_spec (Z.of_nat 0) (generation_limit cfg)) as [_|H];
    [|simpl in H; lia].
  unfold Avoa.generation, Avoa.start_of_generation, Avoa.update_best_vultures.
  rewrite HN. avoa_fields. reflexivity.
Qed.

Lemma avoa_single_vulture_raises_witness :
  Avoa.avoa (env_of first_element [[[1]]])
    {| model_weights := [[0]]; generation_limit := 1; fitness_limit := -1;
       population_size := 1; transfer_learning := false;
       fitness_log_frequency := -1; best_individual_save_frequency := -1;
       L1 := 0.8; L2 := 0.2; w := 2.5; P1 := 0.6; P2 := 0.4; P3 := 0.6;
       lb := -1; ub := 1; beta := 1.5 |} 1
  = Some (Raised [UpdatePopulationFitness [first_element [[1]]]]).
Proof.
  apply avoa_single_vulture_raises;
    [reflexivity|discriminate|apply env_of_sigma|discriminate].
Defined.

(** ** AVOA: the choice of the reference vulture ([eq_1]) *)

(** X10.  [eq_1] copies, into every slot of [R], the same row of
    [best_vultures], drawn by [tf.random.categorical] from the logits
    [log(sum(L) / L)].  For positive [L1] and [L2] these logits stand for the
    probabilities [L2 / (L1 + L2)] of the best vulture (row [0]) and
    [L1 / (L1 + L2)] of the second best (row [1]): the weights are used
    inverted. *)
Theorem eq_1_selection (env : environment) (cfg : config) (s : Avoa.state) :
  0 < L1 cfg -> 0 < L2 cfg ->
  let selected := categorical (rnd env) (Avoa.rng s) (eq_1_logits cfg) in
  Avoa.Rv (Avoa.eq_1 env cfg s)
  = zip_with (fun (_ : tensor) bv => row selected bv)
             (Avoa.Rv s) (Avoa.best_vultures s)
  /\ (random_source_ok (rnd env) -> (selected < 2)%nat)
  /\ softmax (eq_1_logits cfg) 0 = L2 cfg / (L1 cfg + L2 cfg)
  /\ softmax (eq_1_logits cfg) 1 = L1 cfg / (L1 cfg + L2 cfg)
  /\ Avoa.P (Avoa.eq_1 env cfg s) = Avoa.P s
  /\ Avoa.rng (Avoa.eq_1 env cfg s) = S (Avoa.rng s).
Proof.
  intros H1 H2 selected.
  split; [reflexivity|]. split.
  { intros Hrs. apply (categorical_range _ Hrs (Avoa.rng s) (eq_1_logits cfg)).
    discriminate. }
  assert (Ha : 0 < (L1 cfg + L2 cfg) / L1 cfg).
  { apply Rdiv_lt_0_compat; lra. }
  assert (Hb : 0 < (L1 cfg + L2 cfg) / L2 cfg).
  { apply Rdiv_lt_0_compat; lra. }
  unfold softmax, eq_1_logits. cbn [map nth fold_right].
  rewrite !exp_ln by assumption.
  split; [field; repeat split; nra|]. split; [field; repeat split; nra|].
  split; reflexivity.
Qed.

Lemma eq_1_selection_witness :
  softmax (eq_1_logits (default_config 1 (-1))) 0 = 0.2 / (0.8 + 0.2).
Proof.
  exact (proj1 (proj2 (proj2
           (eq_1_selection (env_of first_element []) (default_config 1 (-1))
              (avoa_state_of 0 0) ltac:(simpl; lra) ltac:(simpl; lra))))).
Defined.

(** ** AVOA: the factor [F] at the ends of a run ([eq_3], [eq_4]) *)

Lemma tf_pow_one y : tf_pow 1 y = 1.
Proof.
  unfold tf_pow. destruct (Req_dec_T 1 0); [lra|].
  unfold Rpower. rewrite ln_1, Rmult_0_r. apply exp_0.
Qed.

Lemma tf_pow_zero y : y <> 0 -> tf_pow 0 y = 0.
Proof.
  intros H. unfold tf_pow. destruct (Req_dec_T 0 0); [|lra].
  destruct (Req_dec_T y 0); [contradiction|reflexivity].
Qed.

(** X11.  In the last generation, [gen = T > 0], the factor [F] of Eq. (4) is
    [0] whatever is drawn, so that every vulture is moved by the third pair
    of equations: Eq. (16) when [P3 >= rand], Eq. (17) otherwise. *)
Theorem avoa_last_generation_F (env : environment) (cfg : config) (s : Avoa.state) :
  (0 < generation_limit cfg)%Z ->
  Z.of_nat (Avoa.gen s) = generation_limit cfg ->
  let s1 := Avoa.eq_4 env cfg (Avoa.eq_1 env cfg s) in
  Avoa.F s1 = 0
  /\ Avoa.update_vulture env cfg s
     = (let s2 := Avoa.with_rng (S (Avoa.rng s1)) s1 in
        let s3 := if Rgeb (P3 cfg) (random_uniform (rnd env) (Avoa.rng s1) 0 1)
                  then Avoa.eq_16 s2 else Avoa.eq_17 env cfg s2 in
        Avoa.with_i (S (Avoa.i s3)) s3).
Proof.
  intros HT Hg s1.
  assert (HF : Avoa.F s1 = 0).
  { unfold s1, Avoa.eq_4, Avoa.eq_3. avoa_fields.
    change (Avoa.gen (Avoa.eq_1 env cfg s)) with (Avoa.gen s).
    assert (Hq : INR (Avoa.gen s) / IZR (generation_limit cfg) = 1).
    { rewrite INR_IZR_INZ, Hg. apply Rdiv_diag.
      apply not_0_IZR. lia. }
    replace (PI / 2 * INR (Avoa.gen s) / IZR (generation_limit cfg))
      with (PI / 2 * (INR (Avoa.gen s) / IZR (generation_limit cfg)))
      by (unfold Rdiv; ring).
    rewrite Hq, Rmult_1_r, sin_PI2, cos_PI2, tf_pow_one. ring. }
  split; [exact HF|].
  unfold Avoa.update_vulture. fold s1. rewrite HF, Rabs_R0.
  rewrite !Rgeb_dec.
  destruct (Rge_dec 0 1) as [H|_]; [lra|].
  destruct (Rge_dec 0 0.5) as [H|_]; [lra|].
  unfold Avoa.probability_test. rewrite Rgeb_dec.
  destruct (Rge_dec _ _); reflexivity.
Qed.

Lemma avoa_last_generation_F_witness :
  Avoa.F (Avoa.eq_4 (env_of first_element []) (default_config 1 (-1))
            (Avoa.eq_1 (env_of first_element []) (default_config 1 (-1))
               (Avoa.with_gen 1 (avoa_state_of 0 0)))) = 0.
Proof.
  exact (proj1 (avoa_last_generation_F (env_of first_element [])
                  (default_config 1 (-1)) (Avoa.with_gen 1 (avoa_state_of 0 0))
                  eq_refl eq_refl)).
Defined.

(** ** AVOA: which population the fitness values belong to *)

Section AvoaFitnessLag.

Variable env : environment.
Variable cfg : config.
Variable shapes : list nat.

Let N := Z.to_nat (population_size cfg).

Hypothesis rnd_ok : random_source_ok (rnd env).
Hypothesis N_ge_2 : (2 <= N)%nat.

Lemma avoa_generation_fitness s :
  avoa_shapes_ok shapes N s ->
  let fv := update_population_fitness env (Avoa.P s) N in
  (forall s', Avoa.generation env cfg s = Avoa.Break s' ->
     avoa_shapes_ok shapes N s' /\ Avoa.P s' = Avoa.P s
     /\ Avoa.fitness_values s' = fv /\ Avoa.best_fitness s' = reduce_min fv
     /\ Avoa.best_fitness s' < fitness_limit cfg)
  /\ (forall s', Avoa.generation env cfg s = Avoa.Next s' ->
        avoa_shapes_ok shapes N s'
        /\ Avoa.fitness_values s' = fv /\ Avoa.best_fitness s' = reduce_min fv
        /\ Avoa.gen s' = S (Avoa.gen s))
  /\ (forall calls, Avoa.generation env cfg s <> Avoa.Fail calls).
Proof.
  intros Hs fv.
  destruct (generation_cases env cfg shapes rnd_ok N_ge_2 s Hs)
    as (s0 & Hcase & Hs0 & Hb & Hfv & _).
  fold N in Hcase, Hs0, Hb, Hfv. fold fv in Hcase, Hb, Hfv.
  destruct (Rlt_dec (reduce_min fv) (fitness_limit cfg)) as [Hlt|Hge].
  - destruct Hcase as (E & Hg & HP). rewrite E.
    split; [|split; [intros s' H; discriminate|intros c H; discriminate]].
    intros s' [= <-]. split; [exact Hs0|]. split; [exact HP|].
    split; [exact Hfv|]. split; [exact Hb|]. rewrite Hb. exact Hlt.
  - destruct Hcase as (E & Hg). rewrite E.
    split; [intros s' H; discriminate|].
    split; [|intros c H; discriminate].
    intros s' [= <-]. split; [exact Hs0|]. split; [exact Hfv|].
    split; [exact Hb|exact Hg].
Qed.

(** How the outer loop is left: not entered, broken by the threshold, or
    ended by the generation counter after a last sweep. *)
Lemma avoa_loop_exit fuel s s' :
  avoa_shapes_ok shapes N s ->
  Avoa.loop env cfg fuel s = Some (Completed s') ->
  (s' = s /\ (generation_limit cfg < Z.of_nat (Avoa.gen s))%Z)
  \/ exists sp, avoa_shapes_ok shapes N sp
       /\ (Z.of_nat (Avoa.gen sp) <= generation_limit cfg)%Z
       /\ (Avoa.generation env cfg sp = Avoa.Break s'
           \/ (Avoa.generation env cfg sp = Avoa.Next s'
               /\ (generation_limit cfg < Z.of_nat (Avoa.gen s'))%Z)).
Proof.
  revert s. induction fuel as [|fuel IH]; intros s Hs; [discriminate|].
  rewrite avoa_loop_step.
  destruct (Z.leb_spec (Z.of_nat (Avoa.gen s)) (generation_limit cfg)) as [Hle|Hgt].
  - destruct (avoa_generation_fitness s Hs) as (HB & HN & HFail).
    destruct (Avoa.generation env cfg s) as [sb|sn|calls] eqn:E.
    + intros [= <-]. right. exists s. split; [exact Hs|]. split; [exact Hle|].
      now left.
    + intros Hl. destruct (HN sn eq_refl) as (Hsn & _).
      destruct (IH sn Hsn Hl) as [[-> Hg]|H].
      * right. exists s. split; [exact Hs|]. split; [exact Hle|].
        right. now split.
      * right. exact H.
    + discriminate.
  - intros [= <-]. left. now split.
Qed.

End AvoaFitnessLag.

Lemma avoa_finish_fields env cfg s :
  Avoa.P (Avoa.finish env cfg s) = Avoa.P s
  /\ Avoa.fitness_values (Avoa.finish env cfg s)
     = fitness_after_apply env (Avoa.fitness_values s) (Avoa.P s)
  /\ Avoa.best_fitness (Avoa.finish env cfg s) = Avoa.best_fitness s
  /\ Avoa.trace (Avoa.finish env cfg s)
     = Avoa.trace s
       ++ final_calls env cfg (Avoa.fitness_values s) (Avoa.P s)
            (Avoa.best_fitness s).
Proof.
  unfold Avoa.finish, Avoa.log_fitness, final_calls.
  destruct (0 <? fitness_log_frequency cfg)%Z;
    destruct (0 <? best_individual_save_frequency cfg)%Z;
    avoa_fields; rewrite <- ?app_assoc; simpl; auto.
Qed.

(** X13.  The fitness values that [avoa] hands to [apply_best_solution] are
    those of the last evaluated population.  When the threshold breaks the
    loop this is the population handed over with them.  When the generation
    counter ends the loop, the last sweep has moved the population since:
    the fitness values of the call, and the best fitness that the final log
    reports, belong to the population in front of that sweep, while the
    population of the call is the one after it. *)
Theorem avoa_fitness_values_lag (env : environment) (cfg : config) (fuel : nat)
    (s : Avoa.state) :
  avoa_run_ok env cfg -> (0 <= generation_limit cfg)%Z ->
  Avoa.avoa env cfg fuel = Some (Completed s) ->
  let N := Z.to_nat (population_size cfg) in
  exists sp s',
    let fv := update_population_fitness env (Avoa.P sp) N in
    Avoa.P s = Avoa.P s'
    /\ Avoa.best_fitness s = reduce_min fv
    /\ Avoa.trace s
       = Avoa.trace s' ++ final_calls env cfg fv (Avoa.P s') (reduce_min fv)
    /\ ((Avoa.generation env cfg sp = Avoa.Break s' /\ Avoa.P s' = Avoa.P sp
         /\ reduce_min fv < fitness_limit cfg)
        \/ (Avoa.generation env cfg sp = Avoa.Next s'
            /\ Z.of_nat (Avoa.gen sp) = generation_limit cfg)).
Proof.
  intros ((Hrs & HN & Hw & Hc) & Hsig & _) HT Hrun N.
  assert (HN2 : (2 <= Z.to_nat (population_size cfg))%nat) by lia.
  destruct (avoa_init_head env cfg (shapes_of (model_weights cfg)) HN2 Hw Hc
              eq_refl Hsig) as (s0 & E0 & (Hs0 & _) & _ & Hg0 & _).
  unfold Avoa.avoa in Hrun. rewrite E0 in Hrun.
  destruct (Avoa.loop env cfg fuel s0) as [[sl|calls]|] eqn:El;
    try discriminate.
  injection Hrun as <-.
  destruct (avoa_finish_fields env cfg sl) as (F1 & F2 & F3 & F4).
  fold N in F4.
  destruct (avoa_loop_exit env cfg (shapes_of (model_weights cfg)) Hrs HN2
              fuel s0 sl Hs0 El) as [[_ Hgt]|(sp & Hsp & Hle & Hcase)].
  { rewrite Hg0 in Hgt. simpl in Hgt. lia. }
  destruct (avoa_generation_fitness env cfg (shapes_of (model_weights cfg))
              Hrs HN2 sp Hsp) as (HB & HNx & _).
  fold N in HB, HNx.
  exists sp, sl. cbv zeta.
  destruct Hcase as [E|[E Hgt]].
  - destruct (HB sl E) as (_ & HP & Hfv & Hb & Hlt).
    split; [exact F1|]. split; [congruence|].
    split; [rewrite F4, Hb, Hfv; reflexivity|].
    left. split; [exact E|]. split; [exact HP|]. rewrite <- Hb. exact Hlt.
  - destruct (HNx sl E) as (_ & Hfv & Hb & Hg).
    split; [exact F1|]. split; [congruence|].
    split; [rewrite F4, Hb, Hfv; reflexivity|].
    right. split; [exact E|]. lia.
Qed.

Lemma avoa_fitness_values_lag_witness :
  exists s,
    Avoa.avoa (env_of first_element (two_scalars (1/2) (-1/4)))
              (default_config 1 (-1)) 3 = Some (Completed s)
    /\ exists sp,
         Avoa.best_fitness s
         = reduce_min
             (update_population_fitness
                (env_of first_element (two_scalars (1/2) (-1/4))) (Avoa.P sp) 2).
Proof.
  destruct (avoa_completes (env_of first_element (two_scalars (1/2) (-1/4)))
              (default_config 1 (-1)) 3
              (default_avoa_setting_ok first_element (1/2) (-1/4) 1 (-1))
              (env_of_sigma _ _ _)
              ltac:(simpl; lia)) as (s' & E & _).
  eexists. split; [exact E|].
  destruct (avoa_fitness_values_lag
              (env_of first_element (two_scalars (1/2) (-1/4)))
              (default_config 1 (-1)) 3 _
              ltac:(apply default_avoa_run_ok; reflexivity)
              ltac:(simpl; lia) E) as (sp & sl & _ & H & _).
  exists sp. exact H.
Defined.

(** ** Runs that make no generation *)

Lemma stbo_finish_fields env cfg s :
  Stbo.X (Stbo.finish env cfg s) = Stbo.X s
  /\ Stbo.F (Stbo.finish env cfg s)
     = fitness_after_apply env (Stbo.F s) (Stbo.X s)
  /\ Stbo.trace (Stbo.finish env cfg s)
     = Stbo.trace s
       ++ final_calls env cfg (Stbo.F s) (Stbo.X s) (Stbo.best_fitness s).
Proof.
  unfold Stbo.finish, Stbo.log_fitness, final_calls.
  destruct (0 <? fitness_log_frequency cfg)%Z;
    destruct (0 <? best_individual_save_frequency cfg)%Z;
    stbo_fields; rewrite <- ?app_assoc; cbn [app]; auto.
Qed.

(** X14.  [stbo] tests the threshold and the generation counter in front of the
    first generation: with a population of at least one member, when the
    initial population already reaches the threshold
    ([best <= fitness_limit]), or the generation limit is negative, the run
    makes no generation.  It evaluates the initial population once, prints
    no status line, and hands the initial population and its fitness values
    to [apply_best_solution]. *)
Theorem stbo_run_without_generation (env : environment) (cfg : config)
    (fuel : nat) (s0 : Stbo.state) :
  (0 < population_size cfg)%Z ->
  Stbo.init env cfg = Some s0 ->
  Stbo.best_fitness s0 <= fitness_limit cfg \/ (generation_limit cfg < 0)%Z ->
  let N := Z.to_nat (population_size cfg) in
  let s := Stbo.finish env cfg s0 in
  Stbo.stbo env cfg (S fuel) = Some (Completed s)
  /\ Stbo.X s = Stbo.X s0
  /\ Stbo.F s0 = update_population_fitness env (Stbo.X s0) N
  /\ Stbo.trace s
     = UpdatePopulationFitness (Stbo.F s0)
       :: final_calls env cfg (Stbo.F s0) (Stbo.X s0) (reduce_min (Stbo.F s0)).
Proof.
  intros _ E0 Hstop N s.
  assert (Hinit : Stbo.gen s0 = O
                  /\ Stbo.best_fitness s0 = reduce_min (Stbo.F s0)
                  /\ Stbo.F s0 = update_population_fitness env (Stbo.X s0) N
                  /\ Stbo.trace s0 = [UpdatePopulationFitness (Stbo.F s0)]).
  { revert E0. unfold Stbo.init.
    destruct (Stbo.eq_2 env cfg) as [[X0 k]|]; [|discriminate].
    intros [= <-]. repeat split. }
  destruct Hinit as (Hg & Hb & HF & Ht).
  destruct (stbo_finish_fields env cfg s0) as (F1 & F2 & F3).
  fold s in F1, F2, F3. fold N in F3.
  split.
  - unfold Stbo.stbo. rewrite E0, stbo_loop_step.
    replace (Rltb (fitness_limit cfg) (Stbo.best_fitness s0)
             && (Z.of_nat (Stbo.gen s0) <=? generation_limit cfg)%Z)
      with false; [reflexivity|].
    symmetry. apply andb_false_iff. destruct Hstop as [H|H].
    + left. now apply Rltb_false.
    + right. rewrite Hg. apply Z.leb_gt. simpl. exact H.
  - split; [exact F1|]. split; [exact HF|].
    rewrite F3, Ht, Hb. reflexivity.
Qed.

Lemma stbo_run_without_generation_witness :
  exists s0,
    Stbo.init (env_of first_element []) (default_config (-1) (-1)) = Some s0
    /\ Stbo.stbo (env_of first_element []) (default_config (-1) (-1)) 1
       = Some (Completed (Stbo.finish (env_of first_element [])
                            (default_config (-1) (-1)) s0)).
Proof.
  destruct (stbo_init_some (env_of first_element []) (default_config (-1) (-1))
              (default_stbo_setting_ok first_element [] (-1) (-1))) as [s0 E].
  exists s0. split; [exact E|].
  apply (stbo_run_without_generation _ _ 0 s0); [reflexivity|exact E|].
  right. reflexivity.
Defined.

(** X15.  With a negative generation limit [avoa], once its setup has gone
    through, makes no evaluation call of its own: [apply_best_solution] is
    handed the created population together with the zeros that
    [fitness_values] was created with, and the final log (when enabled)
    reports the best fitness [0]. *)
Theorem avoa_negative_generation_limit (env : environment) (cfg : config)
    (fuel : nat) (s0 : Avoa.state) :
  Avoa.init env cfg = Some s0 -> (generation_limit cfg < 0)%Z ->
  let N := Z.to_nat (population_size cfg) in
  let s := Avoa.finish env cfg s0 in
  Avoa.avoa env cfg (S fuel) = Some (Completed s)
  /\ Avoa.P s = created_population env
  /\ count is_evaluation (Avoa.trace s) = O
  /\ Avoa.trace s
     = final_calls env cfg (Avoa.zeros N) (created_population env) 0.
Proof.
  intros E0 HT N s.
  assert (Hinit : Avoa.gen s0 = O /\ Avoa.P s0 = created_population env
                  /\ Avoa.fitness_values s0 = Avoa.zeros N
                  /\ Avoa.best_fitness s0 = 0 /\ Avoa.trace s0 = []).
  { revert E0. unfold Avoa.init, create_population.
    destruct (population_size cfg <=? 0)%Z; [discriminate|].
    destruct (model_weights cfg); [discriminate|].
    destruct (Avoa.calculate_sigma env cfg); [|discriminate].
    intros [= <-]. repeat split. }
  destruct Hinit as (Hg & HP & Hfv & Hb & Ht).
  destruct (avoa_finish_fields env cfg s0) as (F1 & F2 & F3 & F4).
  fold s in F1, F2, F3, F4.
  assert (Htr : Avoa.trace s
                = final_calls env cfg (Avoa.zeros N) (created_population env) 0).
  { rewrite F4, Ht, HP, Hb, Hfv. reflexivity. }
  split.
  - unfold Avoa.avoa. rewrite E0, avoa_loop_step.
    destruct (Z.leb_spec (Z.of_nat (Avoa.gen s0)) (generation_limit cfg)) as [H|H];
      [rewrite Hg in H; simpl in H; lia|reflexivity].
  - split; [congruence|]. split; [|exact Htr].
    rewrite Htr. apply count_final_calls.
Qed.

Lemma avoa_negative_generation_limit_witness :
  exists s0,
    Avoa.init (env_of first_element (two_scalars 0 0)) (default_config (-1) (-1))
    = Some s0
    /\ Avoa.avoa (env_of first_element (two_scalars 0 0))
         (default_config (-1) (-1)) 1
       = Some (Completed (Avoa.finish (env_of first_element (two_scalars 0 0))
                            (default_config (-1) (-1)) s0)).
Proof.
  destruct (Avoa.init (env_of first_element (two_scalars 0 0))
              (default_config (-1) (-1))) as [s0|] eqn:E; [|discriminate].
  exists s0. split; [reflexivity|].
  apply (avoa_negative_generation_limit _ _ 0 s0 E). reflexivity.
Defined.

(** ** STBO: no member ever gets worse *)



(** ** AVOA: what the sweep over the vultures leaves alone *)

Lemma update_vulture_other env cfg shapes N s :
  random_source_ok (rnd env) ->
  avoa_shapes_ok shapes N s -> (Avoa.i s < N)%nat ->
  other_rows_kept shapes s (Avoa.update_vulture env cfg s).
Proof.
  intros Hrnd Hs Hi.
  pose (s1 := Avoa.eq_4 env cfg (Avoa.eq_1 env cfg s)).
  assert (H1 : avoa_shapes_ok shapes N s1 /\ Avoa.i s1 = Avoa.i s).
  { destruct (eq_1_stays env cfg shapes N Hrnd s Hs Hi) as (Ha & _ & Hb).
    destruct (eq_4_stays env cfg shapes N _ Ha ltac:(lia)) as (Hc & _ & Hd).
    split; [exact Hc | unfold s1; congruence]. }
  destruct H1 as [Hs1 Hi1].
  pose (s2 := Avoa.with_rng (S (Avoa.rng s1)) s1).
  assert (Hs2 : avoa_shapes_ok shapes N s2) by exact Hs1.
  assert (Hi2 : (Avoa.i s2 < N)%nat) by (change (Avoa.i s2) with (Avoa.i s1); lia).
  assert (Hlift : forall f : Avoa.state -> Avoa.state,
            other_rows_kept shapes s2 (f s2) ->
            other_rows_kept shapes s (Avoa.with_i (S (Avoa.i (f s2))) (f s2))).
  { intros f Ho k r Hk Hr.
    change (Avoa.P (Avoa.with_i (S (Avoa.i (f s2))) (f s2))) with (Avoa.P (f s2)).
    change (Avoa.P s) with (Avoa.P s2). apply (Ho k r Hk).
    change (Avoa.i s2) with (Avoa.i s1). congruence. }
  unfold Avoa.update_vulture. fold s1. unfold Avoa.probability_test. fold s2.
  destruct (Rgeb (Rabs (Avoa.F s1)) 1);
    [|destruct (Rgeb (Rabs (Avoa.F s1)) 0.5)];
    match goal with
    | |- context [Rgeb ?p ?u] => destruct (Rgeb p u)
    end; apply Hlift.
  - apply (eq_6_other env shapes N s2); auto.
  - apply (eq_8_other env cfg shapes N s2); auto.
  - apply (eq_10_other env shapes N s2); auto.
  - apply (eq_13_other env shapes N s2); auto.
  - apply (eq_16_other shapes N s2); auto.
  - apply (eq_17_other env cfg shapes N s2); auto.
Qed.

(** X17.  The sweep over the vultures moves one vulture per pass, in index
    order, and nothing else: the rows of the vultures outside the swept
    range stay as they are, and so do [best_vultures], [fitness_values] and
    [best_fitness], which remain those of the population in front of the
    sweep.  The sweep makes no evaluation, log, checkpoint, status or
    write-back call (its only calls into [metaopts.utilities] are the
    diagnostic [print_function_trace] of the equations, which is not
    recorded): a moved vulture is neither evaluated nor compared with its
    previous position. *)
Theorem avoa_sweep_snapshot (env : environment) (cfg : config)
    (shapes : list nat) (N n : nat) (s : Avoa.state) :
  random_source_ok (rnd env) -> avoa_shapes_ok shapes N s ->
  (Avoa.i s + n <= N)%nat ->
  let s' := Avoa.sweep env cfg n s in
  avoa_shapes_ok shapes N s'
  /\ Avoa.i s' = (Avoa.i s + n)%nat
  /\ Avoa.best_vultures s' = Avoa.best_vultures s
  /\ Avoa.fitness_values s' = Avoa.fitness_values s
  /\ Avoa.best_fitness s' = Avoa.best_fitness s
  /\ Avoa.gen s' = Avoa.gen s
  /\ Avoa.trace s' = Avoa.trace s
  /\ forall k r, (k < length shapes)%nat ->
       (r < Avoa.i s \/ Avoa.i s + n <= r)%nat ->
       row r (nth k (Avoa.P s') []) = row r (nth k (Avoa.P s) []).
Proof.
  intros Hrnd. revert s. induction n as [|n IH]; intros s Hs Hi s'.
  - unfold s'. simpl. repeat (split; [solve [auto]|]). auto.
  - destruct (update_vulture_stays env cfg shapes N Hrnd s Hs ltac:(lia))
      as (H1 & (C1 & C2 & C3 & C4 & C5) & H3).
    pose proof (update_vulture_other env cfg shapes N s Hrnd Hs ltac:(lia)) as Ho.
    destruct (IH (Avoa.update_vulture env cfg s) H1 ltac:(lia))
      as (I1 & I2 & I3 & I4 & I5 & I6 & I7 & I8).
    change (Avoa.sweep env cfg n (Avoa.update_vulture env cfg s)) with s'
      in I1, I2, I3, I4, I5, I6, I7, I8.
    split; [exact I1|]. split; [lia|]. split; [congruence|].
    split; [congruence|]. split; [congruence|]. split; [congruence|].
    split; [congruence|].
    intros k r Hk Hr. rewrite I8 by (try assumption; lia).
    apply (Ho k r Hk). lia.
Qed.

Lemma avoa_sweep_snapshot_witness :
  Avoa.trace (Avoa.sweep (env_of first_element []) (default_config 1 (-1)) 2
                (avoa_state_of (1/2) (-1/4)))
  = Avoa.trace (avoa_state_of (1/2) (-1/4)).
Proof.
  exact (proj1 (proj2 (proj2 (proj2 (proj2 (proj2 (proj2
           (avoa_sweep_snapshot (env_of first_element [])
              (default_config 1 (-1)) [1%nat] 2 2 (avoa_state_of (1/2) (-1/4))
              half_rnd_ok (avoa_state_of_ok _ _) (Nat.le_refl 2))))))))).
Defined.
